(** * VUMeter: the signal-to-needle core of [src/vumeter.js]

    A shallow embedding of the numeric core of the [VUMeter] class: the
    range mapper ([setValue]), the manual and automatic range control
    ([setRange], [resetRange], the auto-range part of [setValue] and of
    [_animate]), the ballistics filter, the peak-hold tracker and the clip
    edge detector ([_updateClipState]).

    Conventions of the model.
    - A JavaScript number is a [num]: a rational, one of the two infinities,
      or NaN.  Arithmetic on the non-finite values follows IEEE-754 as
      JavaScript has it; arithmetic on finite values is exact (no rounding,
      no overflow) and there is one zero, which divides like [+0].  Where
      overflow would change a result by more than rounding, the statement
      bounds the magnitudes it depends on ([MAX_SAFE_INTEGER]).
    - [Date.now()] is an argument [now : Z] (milliseconds); the frame
      timestamp handed to [_animate] is a rational.
    - [Math.exp] and [Math.log10] are arguments of the functions that call
      them.
    - The DOM is not modelled.  What the class does to it is recorded, in
      program order, in the field [log] of the state; the two nodes whose
      existence the code tests ([_peakNeedle], [_light]) are booleans.
    - A call of [_rebuildScale()] is recorded as the event [ScaleRebuilt]
      with the bounds it is made with.  Whether that call returns is a
      property of those bounds (the tick loop of the drawing need not end):
      the state the model gives after such an event is the state of the class
      only if the redraw returned.
    - A callback is an opaque handle; calling it appends an event to [log]
      and does not touch the meter. *)

From Stdlib Require Import QArith Qabs Lqa ZArith List Bool String.
Import ListNotations.

Set Implicit Arguments.

(** ** JavaScript numbers *)

Inductive num : Type :=
| Fin (q : Q)
| PInf
| NInf
| NaN.

Definition of_Z (z : Z) : num := Fin (inject_Z z).

Definition Qlt_bool (x y : Q) : bool := negb (Qle_bool y x).

Definition Qis_zero (x : Q) : bool := Qeq_bool x 0.

(** Sign of a number that is not NaN; the single zero counts as [+0]
    when it is used as a divisor. *)
Inductive sign : Type := Neg | Zero | Pos.

Definition Qsign (q : Q) : sign :=
  if Qis_zero q then Zero else if Qlt_bool q 0 then Neg else Pos.

Definition sign_mul (a b : sign) : sign :=
  match a, b with
  | Zero, _ | _, Zero => Zero
  | Pos, Pos | Neg, Neg => Pos
  | Pos, Neg | Neg, Pos => Neg
  end.

(** An infinity of the given sign; [Infinity * 0] and [0 / 0] are NaN. *)
Definition inf_of_sign (s : sign) : num :=
  match s with Pos => PInf | Neg => NInf | Zero => NaN end.

Definition nsign (a : num) : sign :=
  match a with
  | Fin q => Qsign q
  | PInf => Pos
  | NInf => Neg
  | NaN => Zero
  end.

Definition nneg (a : num) : num :=
  match a with
  | Fin q => Fin (- q)
  | PInf => NInf
  | NInf => PInf
  | NaN => NaN
  end.

Definition nadd (a b : num) : num :=
  match a, b with
  | NaN, _ | _, NaN => NaN
  | Fin x, Fin y => Fin (x + y)
  | PInf, NInf | NInf, PInf => NaN
  | PInf, _ | _, PInf => PInf
  | NInf, _ | _, NInf => NInf
  end.

Definition nsub (a b : num) : num := nadd a (nneg b).

Definition nmul (a b : num) : num :=
  match a, b with
  | NaN, _ | _, NaN => NaN
  | Fin x, Fin y => Fin (x * y)
  | _, _ => inf_of_sign (sign_mul (nsign a) (nsign b))
  end.

Definition ndiv (a b : num) : num :=
  match a, b with
  | NaN, _ | _, NaN => NaN
  | Fin x, Fin y => if Qis_zero y then inf_of_sign (Qsign x) else Fin (x / y)
  | Fin _, _ => Fin 0
  | _, Fin y => inf_of_sign (sign_mul (nsign a) (if Qis_zero y then Pos else Qsign y))
  | _, _ => NaN
  end.

(** The comparisons [a < b] and [a <= b]; both are false when an operand is
    NaN.  [a > b] is [nlt b a] and [a >= b] is [nle b a]. *)
Definition nlt (a b : num) : bool :=
  match a, b with
  | NaN, _ | _, NaN => false
  | Fin x, Fin y => Qlt_bool x y
  | NInf, NInf | PInf, _ | _, NInf => false
  | _, _ => true
  end.

Definition nle (a b : num) : bool :=
  match a, b with
  | NaN, _ | _, NaN => false
  | Fin x, Fin y => Qle_bool x y
  | NInf, _ | _, PInf => true
  | _, _ => false
  end.

Definition ngt (a b : num) : bool := nlt b a.
Definition nge (a b : num) : bool := nle b a.

Definition is_nan (a : num) : bool :=
  match a with NaN => true | _ => false end.

Definition is_finite (a : num) : bool :=
  match a with Fin _ => true | _ => false end.

(** [Math.max(a, b)], [Math.min(a, b)]: NaN when an operand is NaN. *)
Definition Math_max (a b : num) : num :=
  if is_nan a || is_nan b then NaN else if nlt a b then b else a.

Definition Math_min (a b : num) : num :=
  if is_nan a || is_nan b then NaN else if nlt b a then b else a.

(** [Math.max(...xs)] and [Math.min(...xs)]; on no argument they are
    [-Infinity] and [Infinity]. *)
Definition Math_max_list (xs : list num) : num := fold_left Math_max xs NInf.
Definition Math_min_list (xs : list num) : num := fold_left Math_min xs PInf.

Definition Math_abs (a : num) : num :=
  match a with
  | Fin q => Fin (Qabs q)
  | PInf | NInf => PInf
  | NaN => NaN
  end.

(** Numeric equality of two numbers of the model (no NaN is equal to
    anything in JavaScript; here two NaN are related, as by [Object.is]). *)
Definition num_eq (a b : num) : Prop :=
  match a, b with
  | Fin x, Fin y => x == y
  | PInf, PInf | NInf, NInf | NaN, NaN => True
  | _, _ => False
  end.

(** ** Configuration *)

(** A callback is known by a handle only. *)
Definition callback : Type := nat.

(** [this._options], with the keys of [VUMeter.DEFAULTS]. *)
Record options : Type := {
  width : num;
  height : num;
  dbMin : num;
  dbMax : num;
  noiseFloor : num;
  ballistics : bool;
  attackTime : num;
  releaseTime : num;
  label : string;
  brand : string;
  showLight : bool;
  onClip : option callback;
  onClipRelease : option callback;
  clipThreshold : num;
  autoRange : bool;
  autoRangeWindow : num;
  autoRangeMargin : num;
  showPeak : bool;
  peakColor : string;
  peakAttackTime : num;
  peakHoldTime : num;
  peakDecayTime : num;
  scalePreset : option string
}.

(** An options object as a caller passes it: every key may be absent. *)
Module Partial.
Record t : Type := {
  width : option num;
  height : option num;
  dbMin : option num;
  dbMax : option num;
  noiseFloor : option num;
  ballistics : option bool;
  attackTime : option num;
  releaseTime : option num;
  label : option string;
  brand : option string;
  showLight : option bool;
  onClip : option (option callback);
  onClipRelease : option (option callback);
  clipThreshold : option num;
  autoRange : option bool;
  autoRangeWindow : option num;
  autoRangeMargin : option num;
  showPeak : option bool;
  peakColor : option string;
  peakAttackTime : option num;
  peakHoldTime : option num;
  peakDecayTime : option num;
  scalePreset : option (option string)
}.
End Partial.

(** [Object.assign(o, p)]: every key present in [p] overwrites the one of [o]. *)
Definition key {A : Type} (old : A) (new : option A) : A :=
  match new with Some v => v | None => old end.

Definition assign (o : options) (p : Partial.t) : options :=
  {| width := key (width o) (Partial.width p);
     height := key (height o) (Partial.height p);
     dbMin := key (dbMin o) (Partial.dbMin p);
     dbMax := key (dbMax o) (Partial.dbMax p);
     noiseFloor := key (noiseFloor o) (Partial.noiseFloor p);
     ballistics := key (ballistics o) (Partial.ballistics p);
     attackTime := key (attackTime o) (Partial.attackTime p);
     releaseTime := key (releaseTime o) (Partial.releaseTime p);
     label := key (label o) (Partial.label p);
     brand := key (brand o) (Partial.brand p);
     showLight := key (showLight o) (Partial.showLight p);
     onClip := key (onClip o) (Partial.onClip p);
     onClipRelease := key (onClipRelease o) (Partial.onClipRelease p);
     clipThreshold := key (clipThreshold o) (Partial.clipThreshold p);
     autoRange := key (autoRange o) (Partial.autoRange p);
     autoRangeWindow := key (autoRangeWindow o) (Partial.autoRangeWindow p);
     autoRangeMargin := key (autoRangeMargin o) (Partial.autoRangeMargin p);
     showPeak := key (showPeak o) (Partial.showPeak p);
     peakColor := key (peakColor o) (Partial.peakColor p);
     peakAttackTime := key (peakAttackTime o) (Partial.peakAttackTime p);
     peakHoldTime := key (peakHoldTime o) (Partial.peakHoldTime p);
     peakDecayTime := key (peakDecayTime o) (Partial.peakDecayTime p);
     scalePreset := key (scalePreset o) (Partial.scalePreset p) |}.

(** The object [{}]: no key is present. *)
Definition no_options : Partial.t :=
  {| Partial.width := None; Partial.height := None; Partial.dbMin := None;
     Partial.dbMax := None; Partial.noiseFloor := None; Partial.ballistics := None;
     Partial.attackTime := None; Partial.releaseTime := None; Partial.label := None;
     Partial.brand := None; Partial.showLight := None; Partial.onClip := None;
     Partial.onClipRelease := None; Partial.clipThreshold := None;
     Partial.autoRange := None; Partial.autoRangeWindow := None;
     Partial.autoRangeMargin := None; Partial.showPeak := None;
     Partial.peakColor := None; Partial.peakAttackTime := None;
     Partial.peakHoldTime := None; Partial.peakDecayTime := None;
     Partial.scalePreset := None |}.

Definition set_dbMin (v : num) (o : options) : options :=
  {| width := width o; height := height o; dbMin := v; dbMax := dbMax o;
     noiseFloor := noiseFloor o; ballistics := ballistics o;
     attackTime := attackTime o; releaseTime := releaseTime o; label := label o;
     brand := brand o; showLight := showLight o; onClip := onClip o;
     onClipRelease := onClipRelease o; clipThreshold := clipThreshold o;
     autoRange := autoRange o; autoRangeWindow := autoRangeWindow o;
     autoRangeMargin := autoRangeMargin o; showPeak := showPeak o;
     peakColor := peakColor o; peakAttackTime := peakAttackTime o;
     peakHoldTime := peakHoldTime o; peakDecayTime := peakDecayTime o;
     scalePreset := scalePreset o |}.

Definition set_dbMax (v : num) (o : options) : options :=
  {| width := width o; height := height o; dbMin := dbMin o; dbMax := v;
     noiseFloor := noiseFloor o; ballistics := ballistics o;
     attackTime := attackTime o; releaseTime := releaseTime o; label := label o;
     brand := brand o; showLight := showLight o; onClip := onClip o;
     onClipRelease := onClipRelease o; clipThreshold := clipThreshold o;
     autoRange := autoRange o; autoRangeWindow := autoRangeWindow o;
     autoRangeMargin := autoRangeMargin o; showPeak := showPeak o;
     peakColor := peakColor o; peakAttackTime := peakAttackTime o;
     peakHoldTime := peakHoldTime o; peakDecayTime := peakDecayTime o;
     scalePreset := scalePreset o |}.

(** ** Instance state *)

(** An entry [{ db, t }] of [_rangeSamples]. *)
Module Sample.
Record sample : Type := { db : num; t : Z }.
End Sample.

(** What the instance does to its surroundings. *)
Inductive event : Type :=
| ScaleRebuilt (lo hi : num)      (* _rebuildScale(), with the bounds it draws *)
| NeedleSet (angleDeg : num)      (* _updateNeedle(db) *)
| PeakNeedleSet (angleDeg : num)  (* _updatePeakNeedle(db) *)
| LightFill (on : bool)           (* this._light.setAttribute('fill', ...) *)
| WrapperClipping (on : bool)     (* classList.add / remove 'vu-meter--clipping' *)
| OnClip (f : callback)           (* this._options.onClip() *)
| OnClipRelease (f : callback).   (* this._options.onClipRelease() *)

(** The fields of a [VUMeter] instance that the core reads or writes. *)
Record state : Type := {
  _options : options;
  _initDbMin : num;
  _initDbMax : num;
  _targetDb : num;
  _currentDb : num;
  _clipping : bool;
  _paused : bool;
  _lastTime : option Q;
  _rangeSamples : list Sample.sample;
  _autoRangeTargetMin : num;
  _autoRangeTargetMax : num;
  _lastRebuiltDbMin : num;
  _lastRebuiltDbMax : num;
  _peakDb : num;
  _peakVisualDb : num;
  _peakHoldUntil : num;
  _peakDecaying : bool;
  _peakNeedle : bool;
  _light : bool;
  log : list event
}.

Definition set_options (v : options) (s : state) : state :=
  {| _options := v; _initDbMin := _initDbMin s; _initDbMax := _initDbMax s;
     _targetDb := _targetDb s; _currentDb := _currentDb s; _clipping := _clipping s;
     _paused := _paused s; _lastTime := _lastTime s; _rangeSamples := _rangeSamples s;
     _autoRangeTargetMin := _autoRangeTargetMin s;
     _autoRangeTargetMax := _autoRangeTargetMax s;
     _lastRebuiltDbMin := _lastRebuiltDbMin s;
     _lastRebuiltDbMax := _lastRebuiltDbMax s; _peakDb := _peakDb s;
     _peakVisualDb := _peakVisualDb s; _peakHoldUntil := _peakHoldUntil s;
     _peakDecaying := _peakDecaying s; _peakNeedle := _peakNeedle s;
     _light := _light s; log := log s |}.

Definition set_targetDb (v : num) (s : state) : state :=
  {| _options := _options s; _initDbMin := _initDbMin s; _initDbMax := _initDbMax s;
     _targetDb := v; _currentDb := _currentDb s; _clipping := _clipping s;
     _paused := _paused s; _lastTime := _lastTime s; _rangeSamples := _rangeSamples s;
     _autoRangeTargetMin := _autoRangeTargetMin s;
     _autoRangeTargetMax := _autoRangeTargetMax s;
     _lastRebuiltDbMin := _lastRebuiltDbMin s;
     _lastRebuiltDbMax := _lastRebuiltDbMax s; _peakDb := _peakDb s;
     _peakVisualDb := _peakVisualDb s; _peakHoldUntil := _peakHoldUntil s;
     _peakDecaying := _peakDecaying s; _peakNeedle := _peakNeedle s;
     _light := _light s; log := log s |}.

Definition set_currentDb (v : num) (s : state) : state :=
  {| _options := _options s; _initDbMin := _initDbMin s; _initDbMax := _initDbMax s;
     _targetDb := _targetDb s; _currentDb := v; _clipping := _clipping s;
     _paused := _paused s; _lastTime := _lastTime s; _rangeSamples := _rangeSamples s;
     _autoRangeTargetMin := _autoRangeTargetMin s;
     _autoRangeTargetMax := _autoRangeTargetMax s;
     _lastRebuiltDbMin := _lastRebuiltDbMin s;
     _lastRebuiltDbMax := _lastRebuiltDbMax s; _peakDb := _peakDb s;
     _peakVisualDb := _peakVisualDb s; _peakHoldUntil := _peakHoldUntil s;
     _peakDecaying := _peakDecaying s; _peakNeedle := _peakNeedle s;
     _light := _light s; log := log s |}.

Definition set_clipping (v : bool) (s : state) : state :=
  {| _options := _options s; _initDbMin := _initDbMin s; _initDbMax := _initDbMax s;
     _targetDb := _targetDb s; _currentDb := _currentDb s; _clipping := v;
     _paused := _paused s; _lastTime := _lastTime s; _rangeSamples := _rangeSamples s;
     _autoRangeTargetMin := _autoRangeTargetMin s;
     _autoRangeTargetMax := _autoRangeTargetMax s;
     _lastRebuiltDbMin := _lastRebuiltDbMin s;
     _lastRebuiltDbMax := _lastRebuiltDbMax s; _peakDb := _peakDb s;
     _peakVisualDb := _peakVisualDb s; _peakHoldUntil := _peakHoldUntil s;
     _peakDecaying := _peakDecaying s; _peakNeedle := _peakNeedle s;
     _light := _light s; log := log s |}.

Definition set_paused (v : bool) (s : state) : state :=
  {| _options := _options s; _initDbMin := _initDbMin s; _initDbMax := _initDbMax s;
     _targetDb := _targetDb s; _currentDb := _currentDb s; _clipping := _clipping s;
     _paused := v; _lastTime := _lastTime s; _rangeSamples := _rangeSamples s;
     _autoRangeTargetMin := _autoRangeTargetMin s;
     _autoRangeTargetMax := _autoRangeTargetMax s;
     _lastRebuiltDbMin := _lastRebuiltDbMin s;
     _lastRebuiltDbMax := _lastRebuiltDbMax s; _peakDb := _peakDb s;
     _peakVisualDb := _peakVisualDb s; _peakHoldUntil := _peakHoldUntil s;
     _peakDecaying := _peakDecaying s; _peakNeedle := _peakNeedle s;
     _light := _light s; log := log s |}.

Definition set_lastTime (v : option Q) (s : state) : state :=
  {| _options := _options s; _initDbMin := _initDbMin s; _initDbMax := _initDbMax s;
     _targetDb := _targetDb s; _currentDb := _currentDb s; _clipping := _clipping s;
     _paused := _paused s; _lastTime := v; _rangeSamples := _rangeSamples s;
     _autoRangeTargetMin := _autoRangeTargetMin s;
     _autoRangeTargetMax := _autoRangeTargetMax s;
     _lastRebuiltDbMin := _lastRebuiltDbMin s;
     _lastRebuiltDbMax := _lastRebuiltDbMax s; _peakDb := _peakDb s;
     _peakVisualDb := _peakVisualDb s; _peakHoldUntil := _peakHoldUntil s;
     _peakDecaying := _peakDecaying s; _peakNeedle := _peakNeedle s;
     _light := _light s; log := log s |}.

Definition set_rangeSamples (v : list Sample.sample) (s : state) : state :=
  {| _options := _options s; _initDbMin := _initDbMin s; _initDbMax := _initDbMax s;
     _targetDb := _targetDb s; _currentDb := _currentDb s; _clipping := _clipping s;
     _paused := _paused s; _lastTime := _lastTime s; _rangeSamples := v;
     _autoRangeTargetMin := _autoRangeTargetMin s;
     _autoRangeTargetMax := _autoRangeTargetMax s;
     _lastRebuiltDbMin := _lastRebuiltDbMin s;
     _lastRebuiltDbMax := _lastRebuiltDbMax s; _peakDb := _peakDb s;
     _peakVisualDb := _peakVisualDb s; _peakHoldUntil := _peakHoldUntil s;
     _peakDecaying := _peakDecaying s; _peakNeedle := _peakNeedle s;
     _light := _light s; log := log s |}.

Definition set_autoRangeTargetMin (v : num) (s : state) : state :=
  {| _options := _options s; _initDbMin := _initDbMin s; _initDbMax := _initDbMax s;
     _targetDb := _targetDb s; _currentDb := _currentDb s; _clipping := _clipping s;
     _paused := _paused s; _lastTime := _lastTime s; _rangeSamples := _rangeSamples s;
     _autoRangeTargetMin := v; _autoRangeTargetMax := _autoRangeTargetMax s;
     _lastRebuiltDbMin := _lastRebuiltDbMin s;
     _lastRebuiltDbMax := _lastRebuiltDbMax s; _peakDb := _peakDb s;
     _peakVisualDb := _peakVisualDb s; _peakHoldUntil := _peakHoldUntil s;
     _peakDecaying := _peakDecaying s; _peakNeedle := _peakNeedle s;
     _light := _light s; log := log s |}.

Definition set_autoRangeTargetMax (v : num) (s : state) : state :=
  {| _options := _options s; _initDbMin := _initDbMin s; _initDbMax := _initDbMax s;
     _targetDb := _targetDb s; _currentDb := _currentDb s; _clipping := _clipping s;
     _paused := _paused s; _lastTime := _lastTime s; _rangeSamples := _rangeSamples s;
     _autoRangeTargetMin := _autoRangeTargetMin s; _autoRangeTargetMax := v;
     _lastRebuiltDbMin := _lastRebuiltDbMin s;
     _lastRebuiltDbMax := _lastRebuiltDbMax s; _peakDb := _peakDb s;
     _peakVisualDb := _peakVisualDb s; _peakHoldUntil := _peakHoldUntil s;
     _peakDecaying := _peakDecaying s; _peakNeedle := _peakNeedle s;
     _light := _light s; log := log s |}.

Definition set_lastRebuiltDbMin (v : num) (s : state) : state :=
  {| _options := _options s; _initDbMin := _initDbMin s; _initDbMax := _initDbMax s;
     _targetDb := _targetDb s; _currentDb := _currentDb s; _clipping := _clipping s;
     _paused := _paused s; _lastTime := _lastTime s; _rangeSamples := _rangeSamples s;
     _autoRangeTargetMin := _autoRangeTargetMin s;
     _autoRangeTargetMax := _autoRangeTargetMax s; _lastRebuiltDbMin := v;
     _lastRebuiltDbMax := _lastRebuiltDbMax s; _peakDb := _peakDb s;
     _peakVisualDb := _peakVisualDb s; _peakHoldUntil := _peakHoldUntil s;
     _peakDecaying := _peakDecaying s; _peakNeedle := _peakNeedle s;
     _light := _light s; log := log s |}.

Definition set_lastRebuiltDbMax (v : num) (s : state) : state :=
  {| _options := _options s; _initDbMin := _initDbMin s; _initDbMax := _initDbMax s;
     _targetDb := _targetDb s; _currentDb := _currentDb s; _clipping := _clipping s;
     _paused := _paused s; _lastTime := _lastTime s; _rangeSamples := _rangeSamples s;
     _autoRangeTargetMin := _autoRangeTargetMin s;
     _autoRangeTargetMax := _autoRangeTargetMax s;
     _lastRebuiltDbMin := _lastRebuiltDbMin s; _lastRebuiltDbMax := v;
     _peakDb := _peakDb s; _peakVisualDb := _peakVisualDb s;
     _peakHoldUntil := _peakHoldUntil s; _peakDecaying := _peakDecaying s;
     _peakNeedle := _peakNeedle s; _light := _light s; log := log s |}.

Definition set_peakDb (v : num) (s : state) : state :=
  {| _options := _options s; _initDbMin := _initDbMin s; _initDbMax := _initDbMax s;
     _targetDb := _targetDb s; _currentDb := _currentDb s; _clipping := _clipping s;
     _paused := _paused s; _lastTime := _lastTime s; _rangeSamples := _rangeSamples s;
     _autoRangeTargetMin := _autoRangeTargetMin s;
     _autoRangeTargetMax := _autoRangeTargetMax s;
     _lastRebuiltDbMin := _lastRebuiltDbMin s;
     _lastRebuiltDbMax := _lastRebuiltDbMax s; _peakDb := v;
     _peakVisualDb := _peakVisualDb s; _peakHoldUntil := _peakHoldUntil s;
     _peakDecaying := _peakDecaying s; _peakNeedle := _peakNeedle s;
     _light := _light s; log := log s |}.

Definition set_peakVisualDb (v : num) (s : state) : state :=
  {| _options := _options s; _initDbMin := _initDbMin s; _initDbMax := _initDbMax s;
     _targetDb := _targetDb s; _currentDb := _currentDb s; _clipping := _clipping s;
     _paused := _paused s; _lastTime := _lastTime s; _rangeSamples := _rangeSamples s;
     _autoRangeTargetMin := _autoRangeTargetMin s;
     _autoRangeTargetMax := _autoRangeTargetMax s;
     _lastRebuiltDbMin := _lastRebuiltDbMin s;
     _lastRebuiltDbMax := _lastRebuiltDbMax s; _peakDb := _peakDb s;
     _peakVisualDb := v; _peakHoldUntil := _peakHoldUntil s;
     _peakDecaying := _peakDecaying s; _peakNeedle := _peakNeedle s;
     _light := _light s; log := log s |}.

Definition set_peakHoldUntil (v : num) (s : state) : state :=
  {| _options := _options s; _initDbMin := _initDbMin s; _initDbMax := _initDbMax s;
     _targetDb := _targetDb s; _currentDb := _currentDb s; _clipping := _clipping s;
     _paused := _paused s; _lastTime := _lastTime s; _rangeSamples := _rangeSamples s;
     _autoRangeTargetMin := _autoRangeTargetMin s;
     _autoRangeTargetMax := _autoRangeTargetMax s;
     _lastRebuiltDbMin := _lastRebuiltDbMin s;
     _lastRebuiltDbMax := _lastRebuiltDbMax s; _peakDb := _peakDb s;
     _peakVisualDb := _peakVisualDb s; _peakHoldUntil := v;
     _peakDecaying := _peakDecaying s; _peakNeedle := _peakNeedle s;
     _light := _light s; log := log s |}.

Definition set_peakDecaying (v : bool) (s : state) : state :=
  {| _options := _options s; _initDbMin := _initDbMin s; _initDbMax := _initDbMax s;
     _targetDb := _targetDb s; _currentDb := _currentDb s; _clipping := _clipping s;
     _paused := _paused s; _lastTime := _lastTime s; _rangeSamples := _rangeSamples s;
     _autoRangeTargetMin := _autoRangeTargetMin s;
     _autoRangeTargetMax := _autoRangeTargetMax s;
     _lastRebuiltDbMin := _lastRebuiltDbMin s;
     _lastRebuiltDbMax := _lastRebuiltDbMax s; _peakDb := _peakDb s;
     _peakVisualDb := _peakVisualDb s; _peakHoldUntil := _peakHoldUntil s;
     _peakDecaying := v; _peakNeedle := _peakNeedle s; _light := _light s; log := log s |}.

Definition set_log (v : list event) (s : state) : state :=
  {| _options := _options s; _initDbMin := _initDbMin s; _initDbMax := _initDbMax s;
     _targetDb := _targetDb s; _currentDb := _currentDb s; _clipping := _clipping s;
     _paused := _paused s; _lastTime := _lastTime s; _rangeSamples := _rangeSamples s;
     _autoRangeTargetMin := _autoRangeTargetMin s;
     _autoRangeTargetMax := _autoRangeTargetMax s;
     _lastRebuiltDbMin := _lastRebuiltDbMin s;
     _lastRebuiltDbMax := _lastRebuiltDbMax s; _peakDb := _peakDb s;
     _peakVisualDb := _peakVisualDb s; _peakHoldUntil := _peakHoldUntil s;
     _peakDecaying := _peakDecaying s; _peakNeedle := _peakNeedle s;
     _light := _light s; log := v |}.

Definition emit (e : event) (s : state) : state := set_log (log s ++ [e]) s.

(** ** Constants *)

Definition DEFAULTS : options :=
  {| width := Fin 300; height := Fin 200; dbMin := Fin (-20); dbMax := Fin 3;
     noiseFloor := Fin (-20); ballistics := true; attackTime := Fin 300;
     releaseTime := Fin 300; label := "VU"; brand := "MODEL 300"; showLight := true;
     onClip := None; onClipRelease := None; clipThreshold := Fin 0;
     autoRange := false; autoRangeWindow := Fin 30; autoRangeMargin := Fin 2;
     showPeak := false; peakColor := "#5599ff"; peakAttackTime := Fin 50;
     peakHoldTime := Fin 2000; peakDecayTime := Fin 1500; scalePreset := None |}.

Definition SWEEP : num := Fin 100.
Definition ANGLE_MIN : num := Fin 220.

(** ** Construction *)

(** [new VUMeter(container, options)].  [_build()] creates the peak needle
    when [showPeak] is set and the jewel light when [showLight] is set;
    [_startAnimation()] clears [_paused]. *)
Definition constructor (opts : Partial.t) : state :=
  let o := assign DEFAULTS opts in
  {| _options := o;
     _initDbMin := dbMin o; _initDbMax := dbMax o;
     _targetDb := dbMin o; _currentDb := dbMin o;
     _clipping := false; _paused := false; _lastTime := None;
     _rangeSamples := [];
     _autoRangeTargetMin := dbMin o; _autoRangeTargetMax := dbMax o;
     _lastRebuiltDbMin := dbMin o; _lastRebuiltDbMax := dbMax o;
     _peakDb := dbMin o; _peakVisualDb := dbMin o;
     _peakHoldUntil := Fin 0; _peakDecaying := false;
     _peakNeedle := showPeak o; _light := showLight o;
     log := [] |}.

(** ** Geometry and redraw *)

Definition _dbToAngleDeg (db : num) (s : state) : num :=
  let o := _options s in
  nadd ANGLE_MIN (nmul (ndiv (nsub db (dbMin o)) (nsub (dbMax o) (dbMin o))) SWEEP).

(** The call is recorded with the bounds in force; what it draws, and when
    it returns, is [_buildScale] further down. *)
Definition _rebuildScale (s : state) : state :=
  emit (ScaleRebuilt (dbMin (_options s)) (dbMax (_options s))) s.

Definition _updateNeedle (db : num) (s : state) : state :=
  emit (NeedleSet (_dbToAngleDeg db s)) s.

Definition _updatePeakNeedle (db : num) (s : state) : state :=
  emit (PeakNeedleSet (_dbToAngleDeg db s)) s.

(** ** Public API *)

Definition setRange (dbMin' dbMax' : num) (s : state) : state :=
  let s := set_options (set_dbMin dbMin' (_options s)) s in
  let s := set_options (set_dbMax dbMax' (_options s)) s in
  let s := set_targetDb (Math_max dbMin' (Math_min dbMax' (_targetDb s))) s in
  let s := set_currentDb (Math_max dbMin' (Math_min dbMax' (_currentDb s))) s in
  let s := _rebuildScale s in
  let s := set_lastRebuiltDbMin dbMin' s in
  set_lastRebuiltDbMax dbMax' s.

(** Lines 121-147 of [setValue]: sample tracking and immediate expansion. *)
Definition track_sample (now : Z) (db : num) (s : state) : state :=
  let cutoff := nsub (of_Z now) (nmul (autoRangeWindow (_options s)) (Fin 1000)) in
  let s := set_rangeSamples (_rangeSamples s ++ [{| Sample.db := db; Sample.t := now |}]) s in
  let s := set_rangeSamples
             (filter (fun x => nge (of_Z (Sample.t x)) cutoff) (_rangeSamples s)) s in
  if (0 <? List.length (_rangeSamples s))%nat then
    let dbs := map Sample.db (_rangeSamples s) in
    let observedMin := Math_min_list dbs in
    let observedMax := Math_max_list dbs in
    let newMin := nsub observedMin (autoRangeMargin (_options s)) in
    let newMax := nadd observedMax (autoRangeMargin (_options s)) in
    let s := set_autoRangeTargetMin newMin s in
    let s := set_autoRangeTargetMax newMax s in
    let lower := nlt newMin (dbMin (_options s)) in
    let upper := ngt newMax (dbMax (_options s)) in
    let expandMin := if lower then newMin else dbMin (_options s) in
    let expandMax := if upper then newMax else dbMax (_options s) in
    let needsExpand := lower || upper in
    if needsExpand then setRange expandMin expandMax s else s
  else s.

(** Lines 149-158 of [setValue]: map [noiseFloor, dbMax] onto [dbMin, dbMax]. *)
Definition mapped_target (db : num) (o : options) : num :=
  let mapped :=
    if nle db (noiseFloor o) then dbMin o
    else nadd (dbMin o)
           (nmul (ndiv (nsub db (noiseFloor o)) (nsub (dbMax o) (noiseFloor o)))
                 (nsub (dbMax o) (dbMin o))) in
  Math_max (dbMin o) (Math_min (nadd (dbMax o) (Fin 1)) mapped).

Definition setValue (now : Z) (db : num) (s : state) : state :=
  let s := if autoRange (_options s) then track_sample now db s else s in
  set_targetDb (mapped_target db (_options s)) s.

Definition getValue (s : state) : num := _currentDb s.

Definition resetRange (s : state) : state :=
  let s := set_rangeSamples [] s in
  let s := set_autoRangeTargetMin (_initDbMin s) s in
  let s := set_autoRangeTargetMax (_initDbMax s) s in
  let s := set_options (set_dbMin (_initDbMin s) (_options s)) s in
  let s := set_options (set_dbMax (_initDbMax s) (_options s)) s in
  let s := _rebuildScale s in
  let s := set_lastRebuiltDbMin (_initDbMin s) s in
  set_lastRebuiltDbMax (_initDbMax s) s.

Definition has_key {A : Type} (k : option A) : bool :=
  match k with Some _ => true | None => false end.

Definition setOptions (opts : Partial.t) (s : state) : state :=
  let needsRebuild :=
    has_key (Partial.clipThreshold opts) || has_key (Partial.scalePreset opts)
    || has_key (Partial.label opts) || has_key (Partial.brand opts) in
  let s := set_options (assign (_options s) opts) s in
  if needsRebuild then _rebuildScale s else s.

Definition pause (s : state) : state := set_paused true s.

Definition resume (s : state) : state :=
  if _paused s then set_lastTime None (set_paused false s) else s.

(** ** Clip detection *)

Definition _updateClipState (db : num) (s : state) : state :=
  let clipping := ngt db (clipThreshold (_options s)) in
  if Bool.eqb clipping (_clipping s) then s
  else
    let s := set_clipping clipping s in
    let s := if _light s then emit (LightFill clipping) s else s in
    let s := emit (WrapperClipping clipping) s in
    let s := match clipping, onClip (_options s) with
             | true, Some f => emit (OnClip f) s
             | _, _ => s
             end in
    match negb clipping, onClipRelease (_options s) with
    | true, Some f => emit (OnClipRelease f) s
    | _, _ => s
    end.

(** ** Animation *)

Section Animation.

(** [Math.exp] and [Math.log10] of the host. *)
Variable Math_exp : num -> num.
Variable Math_log10 : num -> num.

Definition setAmplitude (now : Z) (amp : num) (s : state) : state :=
  if nle amp (Fin 0) then setValue now NInf s
  else setValue now (nmul (Fin 20) (Math_log10 amp)) s.

(** Lines 712-717: the elapsed time since the previous frame, at most 100. *)
Definition frame_dt (timestamp : Q) (s : state) : num :=
  let last := match _lastTime s with None => timestamp | Some l => l end in
  Math_min (nsub (Fin timestamp) (Fin last)) (Fin 100).

(** Lines 720-745: rate-limited contraction of the automatic range. *)
Definition contract_range (dt : num) (s : state) : state :=
  if autoRange (_options s) then
    let maxChange := ndiv dt (Fin 1000) in
    let s :=
      if nlt (dbMin (_options s)) (_autoRangeTargetMin s) then
        set_options
          (set_dbMin (Math_min (nadd (dbMin (_options s)) maxChange)
                               (_autoRangeTargetMin s))
                     (_options s)) s
      else s in
    let s :=
      if ngt (dbMax (_options s)) (_autoRangeTargetMax s) then
        set_options
          (set_dbMax (Math_max (nsub (dbMax (_options s)) maxChange)
                               (_autoRangeTargetMax s))
                     (_options s)) s
      else s in
    if nge (Math_abs (nsub (dbMin (_options s)) (_lastRebuiltDbMin s))) (Fin 1)
       || nge (Math_abs (nsub (dbMax (_options s)) (_lastRebuiltDbMax s))) (Fin 1)
    then
      let s := _rebuildScale s in
      let s := set_lastRebuiltDbMin (dbMin (_options s)) s in
      set_lastRebuiltDbMax (dbMax (_options s)) s
    else s
  else s.

(** Lines 748-760: main needle ballistics. *)
Definition ballistics_step (dt : num) (s : state) : state :=
  if ballistics (_options s) then
    let diff := nsub (_targetDb s) (_currentDb s) in
    if nlt (Math_abs diff) (Fin (5 # 1000)) then set_currentDb (_targetDb s) s
    else
      let tau := if ngt diff (Fin 0) then attackTime (_options s)
                 else releaseTime (_options s) in
      let factor := nsub (Fin 1) (Math_exp (ndiv (nneg dt) tau)) in
      set_currentDb (nadd (_currentDb s) (nmul diff factor)) s
  else set_currentDb (_targetDb s) s.

(** Lines 763-764: pin the needle to the scale limits. *)
Definition pin_to_scale (s : state) : state :=
  let o := _options s in
  set_currentDb
    (Math_max (dbMin o) (Math_min (nadd (dbMax o) (Fin (1 # 2))) (_currentDb s))) s.

(** Lines 770-804: the peak-hold needle. *)
Definition peak_step (dt : num) (now : Z) (s : state) : state :=
  if showPeak (_options s) && _peakNeedle s then
    let dbMin := dbMin (_options s) in
    let s :=
      if ngt (_targetDb s) (_peakDb s) then
        let s := set_peakDb (_targetDb s) s in
        let s := set_peakHoldUntil (nadd (of_Z now) (peakHoldTime (_options s))) s in
        set_peakDecaying false s
      else s in
    let s :=
      if negb (_peakDecaying s) && ngt (_peakHoldUntil s) (Fin 0)
         && nge (of_Z now) (_peakHoldUntil s)
      then set_peakDecaying true s
      else s in
    let s :=
      if _peakDecaying s then
        let factor := nsub (Fin 1) (Math_exp (ndiv (nneg dt) (peakDecayTime (_options s)))) in
        let s := set_peakVisualDb
                   (nadd (_peakVisualDb s) (nmul (nsub dbMin (_peakVisualDb s)) factor)) s in
        if nle (_peakVisualDb s) (nadd dbMin (Fin (5 # 100))) then
          let s := set_peakDb dbMin s in
          let s := set_peakVisualDb dbMin s in
          let s := set_peakDecaying false s in
          set_peakHoldUntil (Fin 0) s
        else s
      else
        let factor := nsub (Fin 1) (Math_exp (ndiv (nneg dt) (peakAttackTime (_options s)))) in
        set_peakVisualDb
          (nadd (_peakVisualDb s) (nmul (nsub (_peakDb s) (_peakVisualDb s)) factor)) s in
    _updatePeakNeedle (_peakVisualDb s) s
  else s.

Definition _animate (timestamp : Q) (now : Z) (s : state) : state :=
  let dt := frame_dt timestamp s in
  let s := set_lastTime (Some timestamp) s in
  let s := contract_range dt s in
  let s := ballistics_step dt s in
  let s := pin_to_scale s in
  let s := _updateNeedle (_currentDb s) s in
  let s := _updateClipState (_currentDb s) s in
  peak_step dt now s.

End Animation.

(** * Vocabulary of the specification *)

(** Strict equality [a === b] of two numbers: NaN differs from everything. *)
Definition num_eqb (a b : num) : bool :=
  match a, b with
  | Fin x, Fin y => Qeq_bool x y
  | PInf, PInf | NInf, NInf => true
  | _, _ => false
  end.

(** [a] is within [tol] of [b]. *)
Definition approxb (tol : Q) (a b : num) : bool :=
  match a, b with
  | Fin x, Fin y => Qle_bool (Qabs (x - y)) tol
  | _, _ => false
  end.

(** Section 4.1 in the spec's words: the linear interpolation, and the clamp
    to an interval written as the nesting of [Math.max] and [Math.min]. *)
Definition interpolate (rawDb displayMin displayMax noiseFloor : num) : num :=
  nadd displayMin
       (nmul (ndiv (nsub rawDb noiseFloor) (nsub displayMax noiseFloor))
             (nsub displayMax displayMin)).

Definition clamp (lo hi x : num) : num := Math_max lo (Math_min hi x).

(** Section 4.4 in the spec's words: the samples retained by a call of
    [setValue(db)] at time [now], and the bounds desired from them. *)
Definition sample_window (now : Z) (db : num) (s : state) : list Sample.sample :=
  let cutoff := nsub (of_Z now) (nmul (autoRangeWindow (_options s)) (Fin 1000)) in
  filter (fun x => nge (of_Z (Sample.t x)) cutoff)
         (_rangeSamples s ++ [{| Sample.db := db; Sample.t := now |}]).

Definition desired_min (now : Z) (db : num) (s : state) : num :=
  nsub (Math_min_list (map Sample.db (sample_window now db s)))
       (autoRangeMargin (_options s)).

Definition desired_max (now : Z) (db : num) (s : state) : num :=
  nadd (Math_max_list (map Sample.db (sample_window now db s)))
       (autoRangeMargin (_options s)).

(** Section 4.3 in the spec's words: whether the peak tracker is decaying in
    the frame at time [now], once a new peak ([target > held], which restarts
    the hold) and the hold deadline have been taken into account. *)
Definition decaying_in_frame (now : Z) (s : state) : bool :=
  if ngt (_targetDb s) (_peakDb s) then
    let deadline := nadd (of_Z now) (peakHoldTime (_options s)) in
    ngt deadline (Fin 0) && nge (of_Z now) deadline
  else
    _peakDecaying s
    || (ngt (_peakHoldUntil s) (Fin 0) && nge (of_Z now) (_peakHoldUntil s)).

(** The visual peak after one decay step of [dt] milliseconds toward [lo]. *)
Definition decayed_visual (exp : num -> num) (dt lo : num) (s : state) : num :=
  nadd (_peakVisualDb s)
       (nmul (nsub lo (_peakVisualDb s))
             (nsub (Fin 1) (exp (ndiv (nneg dt) (peakDecayTime (_options s)))))).

(** What the peak block of a frame reads, apart from the lower bound. *)
Definition peak_inputs (s : state)
  : num * num * num * num * bool * bool * bool * num * num * num :=
  (_targetDb s, _peakDb s, _peakVisualDb s, _peakHoldUntil s, _peakDecaying s,
   _peakNeedle s, showPeak (_options s), peakHoldTime (_options s),
   peakDecayTime (_options s), peakAttackTime (_options s)).

(** Section 4.5 in the spec's words: the edges of a sequence of values of
    the predicate [currentValue > clipThreshold], starting from the value
    [prev] it had before the first frame. *)
Inductive edge : Type := Rising | Falling.

Fixpoint edges (prev : bool) (ps : list bool) : list edge :=
  match ps with
  | [] => []
  | p :: rest =>
      (if Bool.eqb p prev then [] else [if p then Rising else Falling])
      ++ edges p rest
  end.

Definition is_rising (e : edge) : bool :=
  match e with Rising => true | Falling => false end.

Definition is_falling (e : edge) : bool :=
  match e with Rising => false | Falling => true end.

(** The notification of an edge, for the callbacks [f] and [g]. *)
Definition edge_event (f g : callback) (e : edge) : event :=
  match e with Rising => OnClip f | Falling => OnClipRelease g end.

Definition is_enter (e : event) : bool :=
  match e with OnClip _ => true | _ => false end.

Definition is_exit (e : event) : bool :=
  match e with OnClipRelease _ => true | _ => false end.

(** The callback invocations of a log, in order. *)
Definition callbacks (l : list event) : list event :=
  filter (fun e => is_enter e || is_exit e) l.

(** The clip state evaluated on the values of successive frames. *)
Definition evaluate_frames (dbs : list num) (s : state) : state :=
  fold_left (fun st db => _updateClipState db st) dbs s.

(** What the clip detector reads and what it has produced so far. *)
Definition clip_inputs (s : state)
  : bool * option callback * option callback * num * list event :=
  (_clipping s, onClip (_options s), onClipRelease (_options s),
   clipThreshold (_options s), callbacks (log s)).

(** A run of frames from the state [s], each frame given by its timestamp
    and the value of [Date.now()] in it, and the needle values the run
    displays. *)
Fixpoint run_frames (exp : num -> num) (s : state) (frames : list (Q * Z))
  {struct frames} : state :=
  match frames with
  | [] => s
  | fr :: rest => run_frames exp (_animate exp (fst fr) (snd fr) s) rest
  end.

Fixpoint frame_values (exp : num -> num) (s : state) (frames : list (Q * Z))
  {struct frames} : list num :=
  match frames with
  | [] => []
  | fr :: rest =>
      let s' := _animate exp (fst fr) (snd fr) s in
      _currentDb s' :: frame_values exp s' rest
  end.

(** ** Calls that return

    Two things the class can do are outside the state of the model: a
    redraw of the scale whose tick loop does not end, and an overflow of
    double-precision arithmetic.  The statements that depend on either carry
    the side conditions defined here. *)

(** [Number.MAX_SAFE_INTEGER], [2^53 - 1].  Up to this magnitude the
    increments [d++] and [d += 6] of the tick loops advance [d] in double
    precision, and the sum or difference of two such numbers does not
    overflow. *)
Definition MAX_SAFE_INTEGER : Q := 9007199254740991.

Definition safe (a : num) : bool :=
  match a with
  | Fin q => Qle_bool (Qabs q) MAX_SAFE_INTEGER
  | _ => false
  end.

(** A redraw with the bounds [lo] and [hi] returns: its tick loop runs
    from [Math.ceil(lo)] or from [lo] while [d <= hi], so it ends at once
    when [lo <= hi] is false, and it reaches [hi] when both bounds are
    numbers of safe magnitude. *)
Definition redraw_returns (lo hi : num) : bool :=
  (safe lo && safe hi) || negb (nle lo hi).



(** * Example inputs *)

(** A rational stand-in for [Math.exp] with which examples can be run.  It is
    exact at [0] and at the non-finite arguments; elsewhere it is only the
    elementary bound [1 + x] (for [x > 0]) or [1 / (1 - x)] (for [x < 0]). *)
Definition exp_model (x : num) : num :=
  match x with
  | Fin q =>
      if Qis_zero q then Fin 1
      else if Qlt_bool q 0 then Fin (1 / (1 - q)) else Fin (1 + q)
  | PInf => PInf
  | NInf => Fin 0
  | NaN => NaN
  end.

(** [new VUMeter(el)]: every option at its default. *)
Definition default_meter : state := constructor no_options.

(** [new VUMeter(el, { dbMax: -20 })]: the three bounds coincide. *)
Definition flat_options : Partial.t :=
  {| Partial.width := None; Partial.height := None; Partial.dbMin := None;
     Partial.dbMax := Some (Fin (-20)); Partial.noiseFloor := None;
     Partial.ballistics := None; Partial.attackTime := None;
     Partial.releaseTime := None; Partial.label := None; Partial.brand := None;
     Partial.showLight := None; Partial.onClip := None;
     Partial.onClipRelease := None; Partial.clipThreshold := None;
     Partial.autoRange := None; Partial.autoRangeWindow := None;
     Partial.autoRangeMargin := None; Partial.showPeak := None;
     Partial.peakColor := None; Partial.peakAttackTime := None;
     Partial.peakHoldTime := None; Partial.peakDecayTime := None;
     Partial.scalePreset := None |}.

Definition flat_meter : state := constructor flat_options.

(** [new VUMeter(el, { autoRange: true, showPeak: true, onClip: f1,
    onClipRelease: f2 })]. *)
Definition full_options : Partial.t :=
  {| Partial.width := None; Partial.height := None; Partial.dbMin := None;
     Partial.dbMax := None; Partial.noiseFloor := None;
     Partial.ballistics := None; Partial.attackTime := None;
     Partial.releaseTime := None; Partial.label := None; Partial.brand := None;
     Partial.showLight := None; Partial.onClip := Some (Some 1%nat);
     Partial.onClipRelease := Some (Some 2%nat); Partial.clipThreshold := None;
     Partial.autoRange := Some true; Partial.autoRangeWindow := None;
     Partial.autoRangeMargin := None; Partial.showPeak := Some true;
     Partial.peakColor := None; Partial.peakAttackTime := None;
     Partial.peakHoldTime := None; Partial.peakDecayTime := None;
     Partial.scalePreset := None |}.

Definition full_meter : state := constructor full_options.

(** The full meter after [setValue(0)] and its first frame. *)
Definition full_meter_running : state :=
  _animate exp_model 0 1016 (setValue 1000 (Fin 0) full_meter).

(** [new VUMeter(el, { showPeak: true })]. *)
Definition peak_options : Partial.t :=
  {| Partial.width := None; Partial.height := None; Partial.dbMin := None;
     Partial.dbMax := None; Partial.noiseFloor := None;
     Partial.ballistics := None; Partial.attackTime := None;
     Partial.releaseTime := None; Partial.label := None; Partial.brand := None;
     Partial.showLight := None; Partial.onClip := None;
     Partial.onClipRelease := None; Partial.clipThreshold := None;
     Partial.autoRange := None; Partial.autoRangeWindow := None;
     Partial.autoRangeMargin := None; Partial.showPeak := Some true;
     Partial.peakColor := None; Partial.peakAttackTime := None;
     Partial.peakHoldTime := None; Partial.peakDecayTime := None;
     Partial.scalePreset := None |}.

Definition peak_meter : state := constructor peak_options.

(** [setRange(-60, -30)] on the fresh peak meter: a range that lies below the
    held peak [-20]. *)
Definition lowered_meter : state := setRange (Fin (-60)) (Fin (-30)) peak_meter.

(** [setValue(0)] on the peak meter, then its first frame. *)
Definition peak_meter_after_frame : state :=
  _animate exp_model 0 1016 (setValue 1000 (Fin 0) peak_meter).

(** [new VUMeter(el, { showPeak: true, peakHoldTime: 100,
    peakDecayTime: 0 })]: a peak needle that drops at once when the hold
    is over. *)
Definition drop_options : Partial.t :=
  {| Partial.width := None; Partial.height := None; Partial.dbMin := None;
     Partial.dbMax := None; Partial.noiseFloor := None;
     Partial.ballistics := None; Partial.attackTime := None;
     Partial.releaseTime := None; Partial.label := None; Partial.brand := None;
     Partial.showLight := None; Partial.onClip := None;
     Partial.onClipRelease := None; Partial.clipThreshold := None;
     Partial.autoRange := None; Partial.autoRangeWindow := None;
     Partial.autoRangeMargin := None; Partial.showPeak := Some true;
     Partial.peakColor := None; Partial.peakAttackTime := None;
     Partial.peakHoldTime := Some (Fin 100); Partial.peakDecayTime := Some (Fin 0);
     Partial.scalePreset := None |}.

(** That meter after [setValue(0)], a first frame at time 1000 that captures
    the peak [0], and [setValue(-30)]: the hold ends at time 1100. *)
Definition holding_meter : state :=
  setValue 1050 (Fin (-30))
    (_animate exp_model 0 1000 (setValue 990 (Fin 0) (constructor drop_options))).

(** * Vocabulary of the further properties *)

(** The bounds and the bounds of the last redraw of the scale. *)
Definition scale_view (s : state) : options * num * num :=
  (_options s, _lastRebuiltDbMin s, _lastRebuiltDbMax s).

(** The two halves of the contraction block of a frame: lines 721-736 move
    the bounds, lines 739-744 redraw the scale when it has drifted. *)
Definition shrink_bounds (dt : num) (s : state) : state :=
  let maxChange := ndiv dt (Fin 1000) in
  let s :=
    if nlt (dbMin (_options s)) (_autoRangeTargetMin s) then
      set_options
        (set_dbMin (Math_min (nadd (dbMin (_options s)) maxChange)
                             (_autoRangeTargetMin s))
                   (_options s)) s
    else s in
  if ngt (dbMax (_options s)) (_autoRangeTargetMax s) then
    set_options
      (set_dbMax (Math_max (nsub (dbMax (_options s)) maxChange)
                           (_autoRangeTargetMax s))
                 (_options s)) s
  else s.

Definition redraw_if_drifted (s : state) : state :=
  if nge (Math_abs (nsub (dbMin (_options s)) (_lastRebuiltDbMin s))) (Fin 1)
     || nge (Math_abs (nsub (dbMax (_options s)) (_lastRebuiltDbMax s))) (Fin 1)
  then
    let s := _rebuildScale s in
    let s := set_lastRebuiltDbMin (dbMin (_options s)) s in
    set_lastRebuiltDbMax (dbMax (_options s)) s
  else s.

(** The calls a user of the class and its frame scheduler can make. *)
Inductive call : Type :=
| CallSetValue (now : Z) (db : num)
| CallSetAmplitude (now : Z) (amp : num)
| CallSetRange (lo hi : num)
| CallResetRange
| CallSetOptions (opts : Partial.t)
| CallPause
| CallResume
| CallFrame (timestamp : Q) (now : Z).

Definition perform (exp log10 : num -> num) (c : call) (s : state) : state :=
  match c with
  | CallSetValue now db => setValue now db s
  | CallSetAmplitude now amp => setAmplitude log10 now amp s
  | CallSetRange lo hi => setRange lo hi s
  | CallResetRange => resetRange s
  | CallSetOptions opts => setOptions opts s
  | CallPause => pause s
  | CallResume => resume s
  | CallFrame timestamp now => _animate exp timestamp now s
  end.

Fixpoint perform_all (exp log10 : num -> num) (s : state) (cs : list call)
  {struct cs} : state :=
  match cs with
  | [] => s
  | c :: rest => perform_all exp log10 (perform exp log10 c s) rest
  end.

(** The calls that feed and display samples: they leave the range to the
    meter. *)
Definition sample_or_frame (c : call) : bool :=
  match c with
  | CallSetValue _ _ | CallSetAmplitude _ _ | CallFrame _ _
  | CallPause | CallResume => true
  | CallSetRange _ _ | CallResetRange | CallSetOptions _ => false
  end.

(** A peak tracker at rest on the held value [p] (no hold is running and
    nothing decays) under a target that is not above [p]. *)
Definition idle_above (p : num) (s : state) : Prop :=
  _peakDb s = p /\ _peakHoldUntil s = Fin 0 /\ _peakDecaying s = false /\
  ngt (_targetDb s) p = false.


(** The callback invocation of an edge under the options [o]: none when the
    callback of the edge is not installed. *)
Definition edge_calls (o : options) (e : edge) : list event :=
  match e with
  | Rising => match onClip o with Some f => [OnClip f] | None => [] end
  | Falling => match onClipRelease o with Some g => [OnClipRelease g] | None => [] end
  end.

(** The options object [{ clipThreshold: -10 }]. *)
Definition threshold_options : Partial.t :=
  {| Partial.width := None; Partial.height := None; Partial.dbMin := None;
     Partial.dbMax := None; Partial.noiseFloor := None;
     Partial.ballistics := None; Partial.attackTime := None;
     Partial.releaseTime := None; Partial.label := None; Partial.brand := None;
     Partial.showLight := None; Partial.onClip := None;
     Partial.onClipRelease := None; Partial.clipThreshold := Some (Fin (-10));
     Partial.autoRange := None; Partial.autoRangeWindow := None;
     Partial.autoRangeMargin := None; Partial.showPeak := None;
     Partial.peakColor := None; Partial.peakAttackTime := None;
     Partial.peakHoldTime := None; Partial.peakDecayTime := None;
     Partial.scalePreset := None |}.

(** ** What a redraw of the scale draws

    [_rebuildScale()] empties the scale group and calls [_buildScale()] and
    [_buildBranding()].  The first and the last are straight-line code over
    a finite list of nodes; [_buildScale()] runs a [for] loop over the
    range.  Below, [_buildScale] is modelled with the nodes it appends and
    with a bound [fuel] on the number of loop iterations: the result is
    [None] when the loop has not ended within that bound. *)

From Stdlib Require Import Qround DecimalString Lia.

(** [Math.ceil]. *)
Definition Math_ceil (a : num) : num :=
  match a with
  | Fin q => of_Z (Qceiling q)
  | _ => a
  end.

(** Membership in a [Set] of numbers (SameValueZero: NaN is found). *)
Definition same_value_zero (a b : num) : bool :=
  match a, b with
  | Fin x, Fin y => Qeq_bool x y
  | PInf, PInf | NInf, NInf | NaN, NaN => true
  | _, _ => false
  end.

Definition Set_has (xs : list num) (d : num) : bool :=
  existsb (same_value_zero d) xs.

(** The nodes appended to the scale group, with the attributes that depend
    on the options.  An arc is known by the two ends of its path, a tick
    line and a label by the position they are drawn at. *)
Inductive node : Type :=
| ArcPath (dbStart dbEnd : num) (red : bool)
| TickLine (db : num) (major red : bool)
| TickText (db : num) (red : bool) (fontSize : string) (bold : bool)
           (text : string).

(** [for (let d = start; d <= hi; d += step) body(d)].  The increment is
    exact, as the arithmetic of the model is; in double precision it is
    exact for integers up to [MAX_SAFE_INTEGER] and advances [d] for every
    [d] of that magnitude, and it leaves an infinite [d] where it is.  Beyond
    that magnitude an increment can be absorbed, and what is proved about
    the end of the loop is restricted accordingly. *)
Fixpoint for_ticks (fuel : nat) (step hi : num) (body : num -> list node)
  (d : num) {struct fuel} : option (list node) :=
  match fuel with
  | O => None
  | S fuel' =>
    if nle d hi then
      match for_ticks fuel' step hi body (nadd d step) with
      | Some rest => Some (body d ++ rest)
      | None => None
      end
    else Some []
  end.

(** The template literal [`${d}`] of an integer. *)
Definition show_Z (d : Z) : string := NilZero.string_of_int (Z.to_int d).

(** [d >= dbMin && d <= dbMax]. *)
Definition in_range (o : options) (d : num) : bool :=
  nge d (dbMin o) && nle d (dbMax o).

Definition allMajorTicks : list Z := [-20; -10; -7; -5; -3; -2; -1; 0; 1; 2; 3]%Z.

(** The body of the loop of lines 444-459. *)
Definition default_tick (o : options) (majorSet : list num) (d : num)
  : list node :=
  [TickLine d (Set_has majorSet d) (ngt d (clipThreshold o))].

(** The body of the loop of lines 463-480. *)
Definition default_label (o : options) (d : Z) : node :=
  TickText (of_Z d) (ngt (of_Z d) (clipThreshold o))
    (if (d =? -20)%Z || (d =? -10)%Z then "7.5" else "8.5")%string
    (d =? 0)%Z
    (if (0 <? d)%Z then "+" ++ show_Z d else show_Z d)%string.

Definition _buildDefaultScale (fuel : nat) (o : options) : option (list node) :=
  let majorTicks := filter (fun d => in_range o (of_Z d)) allMajorTicks in
  let majorSet := map of_Z majorTicks in
  let startTick := Math_ceil (dbMin o) in
  match for_ticks fuel (Fin 1) (dbMax o) (default_tick o majorSet) startTick with
  | Some ticks => Some (ticks ++ map (default_label o) majorTicks)
  | None => None
  end.

Definition SMETER_TICKS : list (Z * string) :=
  [ ((-121)%Z, "S1"%string); ((-115)%Z, "S2"%string); ((-109)%Z, "S3"%string); ((-103)%Z, "S4"%string);
    ((-97)%Z, "S5"%string); ((-91)%Z, "S6"%string); ((-85)%Z, "S7"%string); ((-79)%Z, "S8"%string);
    ((-73)%Z, "S9"%string); ((-63)%Z, "+10"%string); ((-53)%Z, "+20"%string); ((-33)%Z, "+40"%string);
    ((-13)%Z, "+60"%string) ].

(** The body of the loop of lines 493-507. *)
Definition smeter_minor (o : options) (majorSet : list num) (d : num)
  : list node :=
  if Set_has majorSet d then []
  else [TickLine d false (ngt d (clipThreshold o))].

(** The body of the loop of lines 510-537. *)
Definition smeter_major (o : options) (t : Z * string) : list node :=
  let db := of_Z (fst t) in
  let label := snd t in
  let isRed := ngt db (clipThreshold o) in
  let isPlus := String.prefix "+"%string label in
  [ TickLine db true isRed;
    TickText db isRed (if isPlus then "7" else "8")%string (String.eqb label "S9"%string)
      label ].

Definition _buildSmeterScale (fuel : nat) (o : options) : option (list node) :=
  let inRange := filter (fun t => in_range o (of_Z (fst t))) SMETER_TICKS in
  let majorSet := map (fun t => of_Z (fst t)) inRange in
  match for_ticks fuel (Fin 6) (dbMax o) (smeter_minor o majorSet) (dbMin o) with
  | Some minor => Some (minor ++ flat_map (smeter_major o) inRange)
  | None => None
  end.

(** [arcClip] of line 402. *)
Definition arcClip (o : options) : num :=
  Math_max (dbMin o) (Math_min (dbMax o) (clipThreshold o)).

Definition _buildScale (fuel : nat) (o : options) : option (list node) :=
  let black :=
    if ngt (arcClip o) (dbMin o) then [ArcPath (dbMin o) (arcClip o) false]
    else [] in
  let red :=
    if nlt (arcClip o) (dbMax o) then [ArcPath (arcClip o) (dbMax o) true]
    else [] in
  let preset :=
    match scalePreset o with
    | Some p => if String.eqb p "smeter"%string then _buildSmeterScale fuel o
                else _buildDefaultScale fuel o
    | None => _buildDefaultScale fuel o
    end in
  match preset with
  | Some ticks => Some (black ++ red ++ ticks)
  | None => None
  end.

(** The positions of the tick lines and of the labels of a drawing. *)
Definition tick_lines (ns : list node) : list (num * bool * bool) :=
  flat_map (fun n => match n with
                     | TickLine d major red => [(d, major, red)]
                     | _ => []
                     end) ns.

Definition tick_texts (ns : list node) : list (num * bool * string) :=
  flat_map (fun n => match n with
                     | TickText d red _ _ text => [(d, red, text)]
                     | _ => []
                     end) ns.

(** [new VUMeter(el, { scalePreset: 'smeter', dbMin: -127, dbMax: -13,
    clipThreshold: -73 })]. *)
Definition smeter_options : Partial.t :=
  {| Partial.width := None; Partial.height := None;
     Partial.dbMin := Some (Fin (-127));
     Partial.dbMax := Some (Fin (-13)); Partial.noiseFloor := None;
     Partial.ballistics := None; Partial.attackTime := None;
     Partial.releaseTime := None; Partial.label := None; Partial.brand := None;
     Partial.showLight := None; Partial.onClip := None;
     Partial.onClipRelease := None; Partial.clipThreshold := Some (Fin (-73));
     Partial.autoRange := None; Partial.autoRangeWindow := None;
     Partial.autoRangeMargin := None; Partial.showPeak := None;
     Partial.peakColor := None; Partial.peakAttackTime := None;
     Partial.peakHoldTime := None; Partial.peakDecayTime := None;
     Partial.scalePreset := Some (Some "smeter"%string) |}.

(** The values of [d] at which the loop [for_ticks] runs its body. *)
Fixpoint visited (fuel : nat) (step hi d : num) {struct fuel} : list num :=
  match fuel with
  | O => []
  | S fuel' =>
    if nle d hi then d :: visited fuel' step hi (nadd d step) else []
  end.

(** The bounds on which the loops of [_buildScale] end: both finite, or
    [dbMin <= dbMax] false. *)
Definition drawable (lo hi : num) : bool :=
  (is_finite lo && is_finite hi) || negb (nle lo hi).

(** The two arcs of lines 404-424. *)
Definition arcs (o : options) : list node :=
  (if ngt (arcClip o) (dbMin o) then [ArcPath (dbMin o) (arcClip o) false]
   else [])
  ++ (if nlt (arcClip o) (dbMax o) then [ArcPath (arcClip o) (dbMax o) true]
      else []).

Definition smeter_preset (o : options) : bool :=
  match scalePreset o with
  | Some p => String.eqb p "smeter"%string
  | None => false
  end.


(** The drawing of the default meter. *)
Definition default_drawing : list node :=
  match _buildScale 30 (_options default_meter) with
  | Some ns => ns
  | None => []
  end.

(** The drawing of the S-meter of [smeter_options]. *)
Definition smeter_drawing : list node :=
  match _buildScale 30 (_options (constructor smeter_options)) with
  | Some ns => ns
  | None => []
  end.



(** * Properties *)

(** ** Comparisons on rationals and on numbers *)

Lemma Qle_bool_false (x y : Q) : Qle_bool x y = false <-> y < x.
Proof.
  split; intro H.
  - apply Qnot_le_lt. intro Hle. apply Qle_bool_iff in Hle. congruence.
  - destruct (Qle_bool x y) eqn:E; [|reflexivity].
    apply Qle_bool_iff in E. lra.
Qed.

Lemma Qlt_bool_true (x y : Q) : Qlt_bool x y = true <-> x < y.
Proof.
  unfold Qlt_bool. rewrite negb_true_iff. apply Qle_bool_false.
Qed.

Lemma Qlt_bool_false (x y : Q) : Qlt_bool x y = false <-> y <= x.
Proof.
  unfold Qlt_bool. rewrite negb_false_iff. apply Qle_bool_iff.
Qed.

Lemma Qis_zero_true (x : Q) : Qis_zero x = true <-> x == 0.
Proof. apply Qeq_bool_iff. Qed.

Lemma Qis_zero_false (x : Q) : Qis_zero x = false <-> ~ x == 0.
Proof.
  unfold Qis_zero. split; intro H.
  - intro E. apply Qeq_bool_iff in E. congruence.
  - destruct (Qeq_bool x 0) eqn:E; [|reflexivity].
    apply Qeq_bool_iff in E. contradiction.
Qed.

(** Turn every boolean comparison on rationals in the context and the goal
    into the proposition it decides. *)
Ltac q_reflect :=
  repeat match goal with
    | H : Qle_bool _ _ = true |- _ => apply Qle_bool_iff in H
    | H : Qle_bool _ _ = false |- _ => apply Qle_bool_false in H
    | H : Qlt_bool _ _ = true |- _ => apply Qlt_bool_true in H
    | H : Qlt_bool _ _ = false |- _ => apply Qlt_bool_false in H
    | H : Qis_zero _ = true |- _ => apply Qis_zero_true in H
    | H : Qis_zero _ = false |- _ => apply Qis_zero_false in H
    | |- Qle_bool _ _ = true => apply Qle_bool_iff
    | |- Qle_bool _ _ = false => apply Qle_bool_false
    | |- Qlt_bool _ _ = true => apply Qlt_bool_true
    | |- Qlt_bool _ _ = false => apply Qlt_bool_false
    end.

(** Split on every comparison that guards a branch of the goal. *)
Ltac q_branches :=
  repeat match goal with
    | |- context [Qlt_bool ?x ?y] => destruct (Qlt_bool x y) eqn:?
    | |- context [Qle_bool ?x ?y] => destruct (Qle_bool x y) eqn:?
    | |- context [Qis_zero ?x] => destruct (Qis_zero x) eqn:?
    end.

Ltac num_arith :=
  simpl in *; try discriminate; try reflexivity;
  q_branches; simpl in *; try discriminate; try reflexivity;
  q_reflect; try lra.

Lemma Math_max_min_self (lo hi : num) :
  is_nan hi = false -> Math_max lo (Math_min hi lo) = lo.
Proof.
  destruct lo as [l| | |], hi as [h| | |]; intros Hhi;
    unfold Math_max, Math_min; num_arith.
Qed.

(** A clamped value lies between the bounds when they are ordered and the
    value is a number. *)
Lemma clamp_between (lo hi x : num) :
  nle lo hi = true -> is_nan x = false ->
  nle lo (clamp lo hi x) = true /\ nle (clamp lo hi x) hi = true.
Proof.
  destruct lo as [l| | |], hi as [h| | |], x as [v| | |]; intros Hb Hx;
    unfold clamp, Math_max, Math_min; simpl in *; try discriminate;
    q_branches; simpl; split; q_reflect; try reflexivity; try lra.
Qed.

(** ** The range mapper *)


Lemma track_sample_autoRange (now : Z) (db : num) (s : state) :
  autoRange (_options (track_sample now db s)) = autoRange (_options s).
Proof.
  unfold track_sample.
  repeat match goal with |- context [if ?c then _ else _] => destruct c end;
    reflexivity.
Qed.


Lemma nlt_not_nan_l (a b : num) : nlt a b = true -> is_nan a = false.
Proof. destruct a, b; simpl; congruence. Qed.


Lemma nadd_not_nan_fin (a : num) (q : Q) :
  is_nan a = false -> is_nan (nadd a (Fin q)) = false.
Proof. destruct a; simpl; congruence. Qed.


(** On a finite configuration with [noiseFloor < dbMax] and
    [dbMin <= dbMax + 1], the target of a finite or [-Infinity] sample lies
    in [[dbMin, dbMax + 1]]. *)
Lemma mapped_target_between (rawDb : num) (o : options) :
  is_finite (dbMin o) = true ->
  is_finite (dbMax o) = true ->
  is_finite (noiseFloor o) = true ->
  ngt (dbMax o) (noiseFloor o) = true ->
  nle (dbMin o) (nadd (dbMax o) (Fin 1)) = true ->
  is_finite rawDb = true \/ rawDb = NInf ->
  nle (dbMin o) (mapped_target rawDb o) = true /\
  nle (mapped_target rawDb o) (nadd (dbMax o) (Fin 1)) = true.
Proof.
  intros Hmin Hmax Hfl Hnf Hord Hx. unfold mapped_target. cbv zeta.
  apply (clamp_between (dbMin o) (nadd (dbMax o) (Fin 1))); [exact Hord|].
  destruct (dbMin o) as [lo| | |], (dbMax o) as [hi| | |],
    (noiseFloor o) as [nf| | |]; try discriminate.
  destruct Hx as [Hfin | ->]; [|reflexivity].
  destruct rawDb as [x| | |]; try discriminate.
  simpl in *. destruct (Qle_bool x nf); [reflexivity|].
  assert (Hz : Qis_zero (hi + - nf) = false).
  { apply Qis_zero_false. q_reflect. lra. }
  rewrite Hz. reflexivity.
Qed.


(** C10.  With [autoRange] off, [setValue(db)] writes [_targetDb] and nothing
    else: the bounds and every other option, the current value, the clip
    state, the peak tracker, the sample history and the event log are the
    ones before the call. *)
Theorem setValue_only_target (now : Z) (db : num) (s : state) :
  autoRange (_options s) = false ->
  let s' := setValue now db s in
  s' = set_targetDb (_targetDb s') s /\
  _options s' = _options s /\
  _currentDb s' = _currentDb s /\
  _clipping s' = _clipping s /\
  _peakDb s' = _peakDb s /\
  _peakVisualDb s' = _peakVisualDb s /\
  _peakHoldUntil s' = _peakHoldUntil s /\
  _peakDecaying s' = _peakDecaying s /\
  _rangeSamples s' = _rangeSamples s /\
  log s' = log s.
Proof.
  intros Hoff s'. subst s'. unfold setValue. rewrite Hoff.
  repeat split.
Qed.

Lemma setValue_only_target_witness :
  autoRange (_options default_meter) = false /\
  _currentDb (setValue 0 (Fin (-6)) default_meter) = _currentDb default_meter.
Proof.
  split; [reflexivity|].
  exact (proj1 (proj2 (proj2
           (setValue_only_target 0 (Fin (-6)) default_meter eq_refl)))).
Defined.

(** ** The worked example *)

(** C9, as the code has it.  With [dbMin = -20], [dbMax = 3],
    [noiseFloor = -20] and auto-range off, [setValue(-60)] sets the target to
    [-20] and [setValue(-8.5)] sets it to [-8.5]: the noise floor is the scale
    minimum, so the mapping is the identity on the scale. *)
Theorem worked_example (now : Z) (s : state) :
  dbMin (_options s) = Fin (-20) ->
  dbMax (_options s) = Fin 3 ->
  noiseFloor (_options s) = Fin (-20) ->
  autoRange (_options s) = false ->
  _targetDb (setValue now (Fin (-60)) s) = Fin (-20) /\
  num_eq (_targetDb (setValue now (Fin (-17 # 2)) s)) (Fin (-17 # 2)).
Proof.
  intros Hmin Hmax Hnf Hoff. unfold setValue. rewrite Hoff. simpl.
  unfold mapped_target. rewrite Hmin, Hmax, Hnf.
  split; vm_compute; reflexivity.
Qed.

Lemma worked_example_witness :
  _targetDb (setValue 0 (Fin (-60)) default_meter) = Fin (-20) /\
  num_eq (_targetDb (setValue 0 (Fin (-17 # 2)) default_meter)) (Fin (-17 # 2)).
Proof.
  apply (worked_example 0 default_meter); reflexivity.
Defined.

(** C9 as stated fails: on the default configuration [setValue(-8.5)] sets
    the target to [-8.5], which is further than 1.5 from [-10.07]. *)
Lemma worked_example_not_minus_10_07 :
  num_eq (_targetDb (setValue 0 (Fin (-17 # 2)) default_meter)) (Fin (-17 # 2)) /\
  approxb (3 # 2) (_targetDb (setValue 0 (Fin (-17 # 2)) default_meter))
          (Fin (-1007 # 100)) = false.
Proof. split; vm_compute; reflexivity. Qed.

(** ** Configuration errors *)

Lemma rebuildScale_options (s : state) : _options (_rebuildScale s) = _options s.
Proof. reflexivity. Qed.

Lemma mapped_target_finite (rawDb : num) (o : options) :
  is_finite (dbMin o) = true ->
  is_finite (dbMax o) = true ->
  is_finite (noiseFloor o) = true ->
  num_eqb (dbMax o) (noiseFloor o) = false ->
  is_finite rawDb = true \/ rawDb = NInf ->
  is_finite (mapped_target rawDb o) = true.
Proof.
  unfold mapped_target.
  destruct (dbMin o) as [lo| | |], (dbMax o) as [hi| | |],
    (noiseFloor o) as [nf| | |]; simpl; try discriminate.
  intros _ _ _ Hne [Hfin | ->].
  - destruct rawDb as [x| | |]; try discriminate. simpl.
    destruct (Qle_bool x nf); unfold Math_max, Math_min; simpl.
    + q_branches; reflexivity.
    + assert (Hz : Qis_zero (hi + - nf) = false).
      { apply Qis_zero_false. intro E.
        assert (Heq : hi == nf) by lra.
        apply Qeq_bool_iff in Heq. congruence. }
      rewrite Hz. simpl. q_branches; reflexivity.
  - simpl. unfold Math_max, Math_min; simpl. q_branches; reflexivity.
Qed.

Lemma safe_finite (a : num) : safe a = true -> is_finite a = true.
Proof. destruct a; simpl; congruence. Qed.

(** C2, as the code has it.  Construction, [setOptions] and [setRange] check
    nothing and raise nothing: the options object is the given keys merged
    over the previous ones, and [setRange] stores its two arguments whatever
    they are.  With auto-range off the mapper's result is a finite number
    whenever [dbMin], [dbMax] and [noiseFloor] are numbers of magnitude at
    most [Number.MAX_SAFE_INTEGER], [dbMax !== dbMin],
    [dbMax !== noiseFloor], and the sample is finite or [-Infinity].  (The
    bound on the magnitudes keeps the differences of the formula from
    overflowing, and [dbMax !== dbMin] keeps an overflowing quotient from
    being multiplied by zero; past either, double precision gives NaN.) *)
Theorem configuration_is_applied_unchecked
    (p : Partial.t) (lo hi : num) (now : Z) (rawDb : num) (s : state) :
  _options (constructor p) = assign DEFAULTS p /\
  _options (setOptions p s) = assign (_options s) p /\
  dbMin (_options (setRange lo hi s)) = lo /\
  dbMax (_options (setRange lo hi s)) = hi /\
  (autoRange (_options s) = false ->
   safe (dbMin (_options s)) = true ->
   safe (dbMax (_options s)) = true ->
   safe (noiseFloor (_options s)) = true ->
   num_eqb (dbMax (_options s)) (dbMin (_options s)) = false ->
   num_eqb (dbMax (_options s)) (noiseFloor (_options s)) = false ->
   is_finite rawDb = true \/ rawDb = NInf ->
   is_finite (_targetDb (setValue now rawDb s)) = true).
Proof.
  repeat split.
  - unfold setOptions. cbv zeta.
    match goal with |- context [if ?c then _ else _] => destruct c end;
      reflexivity.
  - intros Hoff Hmin Hmax Hnf _ Hne Hx. unfold setValue. rewrite Hoff. simpl.
    apply mapped_target_finite; try assumption; now apply safe_finite.
Qed.

Lemma configuration_is_applied_unchecked_witness :
  autoRange (_options default_meter) = false /\
  safe (dbMin (_options default_meter)) = true /\
  safe (dbMax (_options default_meter)) = true /\
  safe (noiseFloor (_options default_meter)) = true /\
  is_finite (_targetDb (setValue 0 (Fin 1000) default_meter)) = true.
Proof.
  repeat (split; [reflexivity|]).
  apply (configuration_is_applied_unchecked no_options NaN NaN 0 (Fin 1000)
           default_meter);
    try reflexivity.
  left; reflexivity.
Defined.

(** C2 as stated fails.  [setRange(5, 1)] is applied to the default meter,
    [setOptions({ dbMax: -20 })] and [new VUMeter(el, { dbMax: -20 })] store
    an upper bound equal to the lower bound and to the noise floor, and on
    that meter [setValue(-10)] makes the target NaN. *)
Lemma invalid_configuration_is_accepted :
  dbMin (_options (setRange (Fin 5) (Fin 1) default_meter)) = Fin 5 /\
  dbMax (_options (setRange (Fin 5) (Fin 1) default_meter)) = Fin 1 /\
  dbMin (_options default_meter) = Fin (-20) /\
  dbMax (_options default_meter) = Fin 3 /\
  dbMax (_options (setOptions flat_options default_meter)) = Fin (-20) /\
  dbMin (_options flat_meter) = Fin (-20) /\
  dbMax (_options flat_meter) = Fin (-20) /\
  noiseFloor (_options flat_meter) = Fin (-20) /\
  _targetDb (setValue 0 (Fin (-10)) flat_meter) = NaN.
Proof. repeat split. Qed.

(** ** Ballistics *)

Section Ballistics.

Variable Math_exp : num -> num.

(** C3.  With ballistics on, the ballistics step (lines 748-757 of
    [_animate]) sets the current value to the target when
    [|target - current| < 0.005]; otherwise it adds
    [(target - current) * (1 - exp(-dt / tau))] to it, where [tau] is
    [attackTime] when the difference is positive and [releaseTime]
    otherwise.  The step writes no other field. *)
Theorem ballistics_step_spec (dt : num) (s : state) :
  ballistics (_options s) = true ->
  let diff := nsub (_targetDb s) (_currentDb s) in
  let tau := if ngt diff (Fin 0) then attackTime (_options s)
             else releaseTime (_options s) in
  let s' := ballistics_step Math_exp dt s in
  (nlt (Math_abs diff) (Fin (5 # 1000)) = true ->
   _currentDb s' = _targetDb s) /\
  (nlt (Math_abs diff) (Fin (5 # 1000)) = false ->
   _currentDb s' =
     nadd (_currentDb s)
          (nmul diff (nsub (Fin 1) (Math_exp (ndiv (nneg dt) tau))))) /\
  s' = set_currentDb (_currentDb s') s.
Proof.
  intros Hon diff tau s'. subst s'. unfold ballistics_step.
  rewrite Hon. cbv zeta. fold diff. fold tau.
  destruct (nlt (Math_abs diff) (Fin (5 # 1000))); repeat split;
    intros; try discriminate; reflexivity.
Qed.

End Ballistics.

Lemma ballistics_step_spec_witness :
  let s := setValue 0 (Fin (-19999 # 1000)) default_meter in
  ballistics (_options s) = true /\
  nlt (Math_abs (nsub (_targetDb s) (_currentDb s))) (Fin (5 # 1000)) = true /\
  _currentDb (ballistics_step exp_model (Fin 16) s) = _targetDb s.
Proof.
  split; [reflexivity|]. split; [reflexivity|].
  apply (ballistics_step_spec exp_model (Fin 16)
           (setValue 0 (Fin (-19999 # 1000)) default_meter));
    reflexivity.
Defined.

(** ** What each block of a frame leaves alone *)

Ltac split_ifs :=
  repeat match goal with
    | |- context [if ?c then _ else _] => destruct c
    | |- context [match ?c with Some _ => _ | None => _ end] => destruct c
    end.

Lemma updateNeedle_options (db : num) (s : state) :
  _options (_updateNeedle db s) = _options s.
Proof. reflexivity. Qed.

Lemma updateClipState_options (db : num) (s : state) :
  _options (_updateClipState db s) = _options s.
Proof. unfold _updateClipState. split_ifs; reflexivity. Qed.

Lemma updateClipState_currentDb (db : num) (s : state) :
  _currentDb (_updateClipState db s) = _currentDb s.
Proof. unfold _updateClipState. split_ifs; reflexivity. Qed.

Lemma updateClipState_peak_inputs (db : num) (s : state) :
  peak_inputs (_updateClipState db s) = peak_inputs s.
Proof. unfold _updateClipState. split_ifs; reflexivity. Qed.

Lemma contract_range_peak_inputs (dt : num) (s : state) :
  peak_inputs (contract_range dt s) = peak_inputs s.
Proof. unfold contract_range. cbv zeta. split_ifs; reflexivity. Qed.

Lemma contract_range_targets (dt : num) (s : state) :
  _autoRangeTargetMin (contract_range dt s) = _autoRangeTargetMin s /\
  _autoRangeTargetMax (contract_range dt s) = _autoRangeTargetMax s.
Proof. unfold contract_range. cbv zeta. split_ifs; split; reflexivity. Qed.

Ltac proj_simpl :=
  with_strategy opaque
    [nlt nle ngt nge nadd nsub nmul ndiv nneg Math_min Math_max Math_abs] simpl.

Ltac proj_simpl_in H :=
  with_strategy opaque
    [nlt nle ngt nge nadd nsub nmul ndiv nneg Math_min Math_max Math_abs] simpl in H.

Lemma contract_range_set_lastTime (dt : num) (last : option Q) (s : state) :
  contract_range dt (set_lastTime last s) = set_lastTime last (contract_range dt s).
Proof.
  unfold contract_range. cbv zeta. proj_simpl.
  destruct (autoRange (_options s)); [|reflexivity].
  destruct (nlt (dbMin (_options s)) (_autoRangeTargetMin s)); proj_simpl;
    destruct (ngt (dbMax (_options s)) (_autoRangeTargetMax s)); proj_simpl;
    split_ifs; reflexivity.
Qed.

Section FrameBlocks.

Variable Math_exp : num -> num.

Lemma ballistics_step_options (dt : num) (s : state) :
  _options (ballistics_step Math_exp dt s) = _options s.
Proof. unfold ballistics_step. cbv zeta. split_ifs; reflexivity. Qed.

Lemma ballistics_step_peak_inputs (dt : num) (s : state) :
  peak_inputs (ballistics_step Math_exp dt s) = peak_inputs s.
Proof. unfold ballistics_step. cbv zeta. split_ifs; reflexivity. Qed.

Lemma peak_step_options (dt : num) (now : Z) (s : state) :
  _options (peak_step Math_exp dt now s) = _options s.
Proof. unfold peak_step. cbv zeta. split_ifs; reflexivity. Qed.

Lemma peak_step_currentDb (dt : num) (now : Z) (s : state) :
  _currentDb (peak_step Math_exp dt now s) = _currentDb s.
Proof. unfold peak_step. cbv zeta. split_ifs; reflexivity. Qed.

(** The state in which a frame reaches its peak block. *)
Lemma animate_unfold (timestamp : Q) (now : Z) (s : state) :
  _animate Math_exp timestamp now s =
  let dt := frame_dt timestamp s in
  let s1 := contract_range dt (set_lastTime (Some timestamp) s) in
  let s2 := pin_to_scale (ballistics_step Math_exp dt s1) in
  let s3 := _updateClipState (_currentDb s2) (_updateNeedle (_currentDb s2) s2) in
  peak_step Math_exp dt now s3.
Proof. reflexivity. Qed.

(** Only the contraction block of a frame writes the options. *)
Lemma animate_options (timestamp : Q) (now : Z) (s : state) :
  _options (_animate Math_exp timestamp now s) =
  _options (contract_range (frame_dt timestamp s) s).
Proof.
  rewrite animate_unfold. cbv zeta.
  rewrite peak_step_options, updateClipState_options, updateNeedle_options.
  unfold pin_to_scale. simpl. rewrite ballistics_step_options.
  rewrite contract_range_set_lastTime. reflexivity.
Qed.

(** The current value after a frame is the ballistics result pinned to
    [[dbMin, dbMax + 0.5]]. *)
Lemma animate_currentDb (timestamp : Q) (now : Z) (s : state) :
  let dt := frame_dt timestamp s in
  let s1 := contract_range dt (set_lastTime (Some timestamp) s) in
  _currentDb (_animate Math_exp timestamp now s) =
  clamp (dbMin (_options s1)) (nadd (dbMax (_options s1)) (Fin (1 # 2)))
        (_currentDb (ballistics_step Math_exp dt s1)).
Proof.
  cbv zeta. rewrite animate_unfold. cbv zeta.
  rewrite peak_step_currentDb, updateClipState_currentDb.
  unfold _updateNeedle, pin_to_scale. simpl.
  rewrite ballistics_step_options. reflexivity.
Qed.

Lemma peak_step_decay_complete (dt : num) (now : Z) (s : state) :
  showPeak (_options s) && _peakNeedle s = true ->
  decaying_in_frame now s = true ->
  nle (decayed_visual Math_exp dt (dbMin (_options s)) s)
      (nadd (dbMin (_options s)) (Fin (5 # 100))) = true ->
  let s' := peak_step Math_exp dt now s in
  _peakDb s' = dbMin (_options s) /\
  _peakVisualDb s' = dbMin (_options s) /\
  _peakDecaying s' = false /\
  _peakHoldUntil s' = Fin 0.
Proof.
  unfold decaying_in_frame, decayed_visual, peak_step. intros Hshow Hdec Hlow.
  rewrite Hshow. cbv zeta in *.
  destruct (ngt (_targetDb s) (_peakDb s)); proj_simpl.
  - rewrite Hdec. proj_simpl. rewrite Hlow. repeat split.
  - destruct (_peakDecaying s) eqn:Hmode; proj_simpl.
    + rewrite Hmode. proj_simpl. rewrite Hlow. repeat split.
    + proj_simpl_in Hdec. rewrite ?Hmode. proj_simpl. rewrite Hdec.
      proj_simpl. rewrite Hlow. repeat split.
Qed.

End FrameBlocks.

(** ** The peak tracker *)

Lemma decaying_in_frame_inputs (now : Z) (a b : state) :
  peak_inputs a = peak_inputs b -> decaying_in_frame now a = decaying_in_frame now b.
Proof.
  unfold peak_inputs, decaying_in_frame. intro H. injection H as -> -> _ -> -> _ _ -> _ _.
  reflexivity.
Qed.

Lemma decayed_visual_inputs (exp : num -> num) (dt lo : num) (a b : state) :
  peak_inputs a = peak_inputs b -> decayed_visual exp dt lo a = decayed_visual exp dt lo b.
Proof.
  unfold peak_inputs, decayed_visual. intro H. injection H as _ _ -> _ _ _ _ _ -> _.
  reflexivity.
Qed.

Lemma resetRange_peak (s : state) :
  _peakDb (resetRange s) = _peakDb s /\
  _peakVisualDb (resetRange s) = _peakVisualDb s /\
  _peakDecaying (resetRange s) = _peakDecaying s /\
  _peakHoldUntil (resetRange s) = _peakHoldUntil s.
Proof. repeat split. Qed.

Section PeakTracker.

Variable Math_exp : num -> num.

(** A frame enters its peak block with the peak tracker, the target and
    the peak options it started with, and with the bounds left by the
    contraction block. *)
Lemma animate_reaches_peak_step (timestamp : Q) (now : Z) (s : state) :
  exists s3 : state,
    _animate Math_exp timestamp now s
    = peak_step Math_exp (frame_dt timestamp s) now s3 /\
    peak_inputs s3 = peak_inputs s /\
    _options s3 = _options (_animate Math_exp timestamp now s).
Proof.
  rewrite animate_unfold. cbv zeta.
  eexists. split; [reflexivity|]. split.
  - rewrite updateClipState_peak_inputs.
    unfold _updateNeedle, pin_to_scale, emit, peak_inputs at 1. simpl.
    fold (peak_inputs
            (ballistics_step Math_exp (frame_dt timestamp s)
               (contract_range (frame_dt timestamp s)
                  (set_lastTime (Some timestamp) s)))).
    rewrite ballistics_step_peak_inputs, contract_range_peak_inputs.
    reflexivity.
  - now rewrite peak_step_options.
Qed.

(** C8, as the code has it.  The held and the visual peak equal [dbMin],
    with [decaying] false and the hold deadline [0], after construction
    and after the frame in which a decay completes (the tracker is
    decaying in that frame and the decayed visual value is at most
    [dbMin + 0.05]).  [resetRange()] leaves the peak tracker as it was. *)
Theorem peak_tracker_lifecycle
    (p : Partial.t) (timestamp : Q) (now : Z) (s : state) :
  (let s0 := constructor p in
   _peakDb s0 = dbMin (_options s0) /\
   _peakVisualDb s0 = dbMin (_options s0) /\
   _peakDecaying s0 = false /\
   _peakHoldUntil s0 = Fin 0) /\
  (_peakDb (resetRange s) = _peakDb s /\
   _peakVisualDb (resetRange s) = _peakVisualDb s /\
   _peakDecaying (resetRange s) = _peakDecaying s /\
   _peakHoldUntil (resetRange s) = _peakHoldUntil s) /\
  (let s' := _animate Math_exp timestamp now s in
   let lo := dbMin (_options s') in
   showPeak (_options s) && _peakNeedle s = true ->
   decaying_in_frame now s = true ->
   nle (decayed_visual Math_exp (frame_dt timestamp s) lo s)
       (nadd lo (Fin (5 # 100))) = true ->
   _peakDb s' = lo /\
   _peakVisualDb s' = lo /\
   _peakDecaying s' = false /\
   _peakHoldUntil s' = Fin 0).
Proof.
  split; [repeat split|]. split; [apply resetRange_peak|].
  intros s' lo Hshow Hdec Hlow. subst lo s'.
  destruct (animate_reaches_peak_step timestamp now s) as (s3 & Heq & Hin & _).
  rewrite Heq in Hlow |- *. rewrite peak_step_options in Hlow |- *.
  apply peak_step_decay_complete.
  - assert (E : showPeak (_options s3) = showPeak (_options s)
                /\ _peakNeedle s3 = _peakNeedle s).
    { unfold peak_inputs in Hin. injection Hin as _ _ _ _ _ -> -> _ _ _.
      split; reflexivity. }
    destruct E as [-> ->]. exact Hshow.
  - now rewrite (decaying_in_frame_inputs now Hin).
  - now rewrite (decayed_visual_inputs Math_exp _ _ Hin).
Qed.

(** Most recent peak wins: a target above the held peak becomes the held
    peak in the next frame, with a fresh hold deadline. *)
Lemma peak_step_captures (dt : num) (now : Z) (s : state) :
  showPeak (_options s) && _peakNeedle s = true ->
  ngt (_targetDb s) (_peakDb s) = true ->
  decaying_in_frame now s = false ->
  let s' := peak_step Math_exp dt now s in
  _peakDb s' = _targetDb s /\
  _peakHoldUntil s' = nadd (of_Z now) (peakHoldTime (_options s)) /\
  _peakDecaying s' = false.
Proof.
  unfold decaying_in_frame, peak_step. intros Hshow Hnew Hdec.
  rewrite Hshow. rewrite Hnew in *. cbv zeta in *. proj_simpl.
  rewrite Hdec. proj_simpl. repeat split.
Qed.

Lemma animate_captures_peak (timestamp : Q) (now : Z) (s : state) :
  showPeak (_options s) && _peakNeedle s = true ->
  ngt (_targetDb s) (_peakDb s) = true ->
  decaying_in_frame now s = false ->
  _peakDb (_animate Math_exp timestamp now s) = _targetDb s.
Proof.
  intros Hshow Hnew Hdec.
  destruct (animate_reaches_peak_step timestamp now s) as (s3 & Heq & Hin & _).
  rewrite Heq.
  pose proof (decaying_in_frame_inputs now Hin) as Hd.
  unfold peak_inputs in Hin.
  assert (E : _targetDb s3 = _targetDb s /\ _peakDb s3 = _peakDb s /\
              showPeak (_options s3) = showPeak (_options s) /\
              _peakNeedle s3 = _peakNeedle s) by (injection Hin; auto).
  destruct E as (Et & Ep & Es & En).
  rewrite <- Et.
  apply peak_step_captures; rewrite ?Et, ?Ep, ?Es, ?En, ?Hd; assumption.
Qed.

(** Whatever [Math.exp] is, the peak captured by the first frame after
    [setValue(0)] is still held after [resetRange()]. *)
Lemma held_peak_survives_resetRange :
  _peakDb (resetRange (_animate Math_exp 0 1016 (setValue 1000 (Fin 0) peak_meter)))
  = _targetDb (setValue 1000 (Fin 0) peak_meter).
Proof.
  destruct (resetRange_peak
              (_animate Math_exp 0 1016 (setValue 1000 (Fin 0) peak_meter)))
    as (-> & _).
  apply animate_captures_peak; reflexivity.
Qed.

End PeakTracker.

Lemma peak_tracker_lifecycle_witness :
  let s' := _animate exp_model 16 1200 holding_meter in
  showPeak (_options holding_meter) && _peakNeedle holding_meter = true /\
  decaying_in_frame 1200 holding_meter = true /\
  num_eq (_peakDb holding_meter) (Fin 0) /\
  _peakDb s' = dbMin (_options s') /\
  _peakVisualDb s' = dbMin (_options s') /\
  _peakDecaying s' = false /\
  _peakHoldUntil s' = Fin 0.
Proof.
  split; [vm_compute; reflexivity|]. split; [vm_compute; reflexivity|].
  split; [vm_compute; reflexivity|].
  apply (proj2 (proj2
           (peak_tracker_lifecycle exp_model no_options 16 1200 holding_meter)));
    vm_compute; reflexivity.
Defined.

(** C8 as stated fails for [resetRange()]: after [setValue(0)] and one frame
    the peak meter holds the peak [0]; [resetRange()] then leaves the held
    peak at [0] while [dbMin] is [-20]. *)
Lemma resetRange_keeps_held_peak :
  let s := resetRange peak_meter_after_frame in
  showPeak (_options s) && _peakNeedle s = true /\
  num_eq (_peakDb s) (Fin 0) /\
  dbMin (_options s) = Fin (-20) /\
  num_eqb (_peakDb s) (dbMin (_options s)) = false.
Proof. vm_compute. repeat split. Qed.

(** ** Rate-limited contraction *)

Lemma per_second_nonneg (d : Q) : 0 <= d -> 0 <= d / 1000.
Proof. intro H. apply Qle_shift_div_l; [reflexivity | lra]. Qed.

Lemma raise_toward (a t : num) (c : Q) :
  0 <= c -> nlt a t = true ->
  let a' := Math_min (nadd a (Fin c)) t in
  nle a a' = true /\ nle a' (nadd a (Fin c)) = true /\ nle a' t = true.
Proof.
  intros Hc Hlt.
  destruct a as [x| | |], t as [y| | |]; simpl in *; try discriminate;
    unfold Math_min; simpl; q_branches; simpl; repeat split; q_reflect; try lra.
Qed.

Lemma lower_toward (a t : num) (c : Q) :
  0 <= c -> ngt a t = true ->
  let a' := Math_max (nsub a (Fin c)) t in
  nle a' a = true /\ nle (nsub a (Fin c)) a' = true /\ nle t a' = true.
Proof.
  intros Hc Hlt.
  destruct a as [x| | |], t as [y| | |]; simpl in *; try discriminate;
    unfold Math_max; simpl; q_branches; simpl; repeat split; q_reflect; try lra.
Qed.

Lemma stays_within (a : num) (c : Q) :
  0 <= c -> is_nan a = false ->
  nle a a = true /\ nle a (nadd a (Fin c)) = true /\ nle (nsub a (Fin c)) a = true.
Proof.
  intros Hc Ha.
  destruct a as [x| | |]; simpl in *; try discriminate;
    repeat split; q_reflect; try lra.
Qed.

Lemma contract_range_bounds (dt : num) (s : state) :
  autoRange (_options s) = true ->
  dbMin (_options (contract_range dt s))
  = (if nlt (dbMin (_options s)) (_autoRangeTargetMin s)
     then Math_min (nadd (dbMin (_options s)) (ndiv dt (Fin 1000)))
                   (_autoRangeTargetMin s)
     else dbMin (_options s)) /\
  dbMax (_options (contract_range dt s))
  = (if ngt (dbMax (_options s)) (_autoRangeTargetMax s)
     then Math_max (nsub (dbMax (_options s)) (ndiv dt (Fin 1000)))
                   (_autoRangeTargetMax s)
     else dbMax (_options s)).
Proof.
  intro Hon. unfold contract_range. rewrite Hon. cbv zeta.
  destruct (nlt (dbMin (_options s)) (_autoRangeTargetMin s)); proj_simpl;
    destruct (ngt (dbMax (_options s)) (_autoRangeTargetMax s)); proj_simpl;
    split_ifs; split; reflexivity.
Qed.

(** The elapsed time of a frame is a rational, at most 100. *)
Lemma frame_dt_finite (timestamp : Q) (s : state) :
  exists d : Q, frame_dt timestamp s = Fin d /\ d <= 100.
Proof.
  unfold frame_dt, Math_min. simpl.
  match goal with |- context [Qlt_bool ?x ?y] => destruct (Qlt_bool x y) eqn:E end;
    eexists; (split; [reflexivity|]); q_reflect; lra.
Qed.

(** Frame timestamps that do not go backwards give an elapsed time that is
    not negative; so does the first frame after construction or [resume()]. *)
Lemma frame_dt_nonneg (timestamp : Q) (s : state) :
  match _lastTime s with Some l => l <= timestamp | None => True end ->
  nle (Fin 0) (frame_dt timestamp s) = true.
Proof.
  unfold frame_dt, Math_min. simpl. intro H.
  match goal with |- context [Qlt_bool ?x ?y] => destruct (Qlt_bool x y) eqn:E end;
    simpl; q_reflect; [lra|].
  destruct (_lastTime s); lra.
Qed.

Section Contraction.

Variable Math_exp : num -> num.

(** C5.  With auto-range on, a frame whose elapsed time [dt] is not
    negative moves [dbMin], when it is below its contraction target, up to
    [Math.min(dbMin + dt / 1000, target)]: by the whole of [dt / 1000], or
    onto the target when that is nearer.  It moves [dbMax], when it is above
    its target, down to [Math.max(dbMax - dt / 1000, target)].  So a bound
    moves toward its target by at most [dt / 1000] and not past the target;
    a bound that is already at or beyond its target stays where it is. *)
Theorem contraction_rate_limited (timestamp : Q) (now : Z) (s : state) :
  autoRange (_options s) = true ->
  nle (Fin 0) (frame_dt timestamp s) = true ->
  is_nan (dbMin (_options s)) = false ->
  is_nan (dbMax (_options s)) = false ->
  let step := ndiv (frame_dt timestamp s) (Fin 1000) in
  let s' := _animate Math_exp timestamp now s in
  (nle (dbMin (_options s)) (dbMin (_options s')) = true /\
   nle (dbMin (_options s')) (nadd (dbMin (_options s)) step) = true /\
   (nlt (dbMin (_options s)) (_autoRangeTargetMin s) = true ->
    dbMin (_options s')
    = Math_min (nadd (dbMin (_options s)) step) (_autoRangeTargetMin s) /\
    nle (dbMin (_options s')) (_autoRangeTargetMin s) = true) /\
   (nlt (dbMin (_options s)) (_autoRangeTargetMin s) = false ->
    dbMin (_options s') = dbMin (_options s))) /\
  (nle (dbMax (_options s')) (dbMax (_options s)) = true /\
   nle (nsub (dbMax (_options s)) step) (dbMax (_options s')) = true /\
   (ngt (dbMax (_options s)) (_autoRangeTargetMax s) = true ->
    dbMax (_options s')
    = Math_max (nsub (dbMax (_options s)) step) (_autoRangeTargetMax s) /\
    nle (_autoRangeTargetMax s) (dbMax (_options s')) = true) /\
   (ngt (dbMax (_options s)) (_autoRangeTargetMax s) = false ->
    dbMax (_options s') = dbMax (_options s))).
Proof.
  intros Hon Hdt Hmin Hmax step s'. subst s'.
  rewrite animate_options.
  destruct (contract_range_bounds (frame_dt timestamp s) s Hon) as [-> ->].
  fold step.
  assert (Hstep : exists c, step = Fin c /\ 0 <= c).
  { subst step. destruct (frame_dt_finite timestamp s) as (d & Hd & _).
    rewrite Hd in *. simpl in Hdt.
    exists (d / 1000). split; [reflexivity|].
    apply per_second_nonneg. now apply Qle_bool_iff. }
  destruct Hstep as (c & -> & Hc).
  destruct (stays_within (dbMin (_options s)) Hc Hmin) as (Hrefl & Hup & _).
  destruct (stays_within (dbMax (_options s)) Hc Hmax) as (Hrefl' & _ & Hdown).
  split.
  - destruct (nlt (dbMin (_options s)) (_autoRangeTargetMin s)) eqn:Hlt.
    + destruct (raise_toward (dbMin (_options s)) (_autoRangeTargetMin s) Hc Hlt)
        as (H1 & H2 & H3).
      repeat split; auto; discriminate.
    + repeat split; auto; discriminate.
  - destruct (ngt (dbMax (_options s)) (_autoRangeTargetMax s)) eqn:Hgt.
    + destruct (lower_toward (dbMax (_options s)) (_autoRangeTargetMax s) Hc Hgt)
        as (H1 & H2 & H3).
      repeat split; auto; discriminate.
    + repeat split; auto; discriminate.
Qed.

End Contraction.

Lemma contraction_rate_limited_witness :
  autoRange (_options full_meter_running) = true /\
  nle (Fin 0) (frame_dt 50 full_meter_running) = true /\
  nlt (dbMin (_options full_meter_running))
      (_autoRangeTargetMin full_meter_running) = true /\
  num_eq (Math_min (nadd (dbMin (_options full_meter_running))
                         (ndiv (frame_dt 50 full_meter_running) (Fin 1000)))
                   (_autoRangeTargetMin full_meter_running))
         (Fin (-1995 # 100)) /\
  dbMin (_options (_animate exp_model 50 1066 full_meter_running))
  = Math_min (nadd (dbMin (_options full_meter_running))
                   (ndiv (frame_dt 50 full_meter_running) (Fin 1000)))
             (_autoRangeTargetMin full_meter_running).
Proof.
  split; [reflexivity|]. split; [vm_compute; reflexivity|].
  split; [reflexivity|]. split; [vm_compute; reflexivity|].
  apply (proj1 (proj1 (proj2 (proj2 (proj1
           (contraction_rate_limited exp_model 50 1066 full_meter_running
              eq_refl eq_refl eq_refl eq_refl))))
           eq_refl)).
Defined.

(** ** Immediate expansion *)

(** The sample of the current call is retained when the window length is
    not negative. *)
Lemma current_sample_in_window (now : Z) (db : num) (s : state) :
  nle (Fin 0) (autoRangeWindow (_options s)) = true ->
  In {| Sample.db := db; Sample.t := now |} (sample_window now db s).
Proof.
  intro Hw. unfold sample_window. cbv zeta.
  apply filter_In. split.
  - apply in_or_app. right. left. reflexivity.
  - simpl. destruct (autoRangeWindow (_options s)) as [w| | |];
      simpl in *; try discriminate; try reflexivity.
    q_reflect. unfold inject_Z in *. simpl. nra.
Qed.

Lemma track_sample_window (now : Z) (db : num) (s : state) :
  sample_window now db s <> [] ->
  track_sample now db s
  = let s1 := set_autoRangeTargetMax (desired_max now db s)
                (set_autoRangeTargetMin (desired_min now db s)
                   (set_rangeSamples (sample_window now db s) s)) in
    let lower := nlt (desired_min now db s) (dbMin (_options s)) in
    let upper := ngt (desired_max now db s) (dbMax (_options s)) in
    if lower || upper then
      setRange (if lower then desired_min now db s else dbMin (_options s))
               (if upper then desired_max now db s else dbMax (_options s)) s1
    else s1.
Proof.
  intro Hne. unfold track_sample. cbv zeta. proj_simpl.
  fold (sample_window now db s).
  destruct (sample_window now db s) as [|x w] eqn:Hw; [congruence|].
  rewrite <- Hw. replace (0 <? List.length (x :: w))%nat with true by reflexivity.
  unfold desired_min, desired_max. rewrite Hw. reflexivity.
Qed.

(** C4.  With auto-range on, a call [setValue(db)] that retains at least one
    sample computes the desired bounds from the retained samples (observed
    minimum minus the margin, observed maximum plus the margin), stores them
    as contraction targets, and in the same call sets [dbMin] to the desired
    lower bound when that is below [dbMin] and [dbMax] to the desired upper
    bound when that is above [dbMax]; a bound that is not exceeded is left
    as it is. *)
Theorem autoRange_expands_at_once (now : Z) (db : num) (s : state) :
  autoRange (_options s) = true ->
  sample_window now db s <> [] ->
  let s' := setValue now db s in
  _rangeSamples s' = sample_window now db s /\
  _autoRangeTargetMin s' = desired_min now db s /\
  _autoRangeTargetMax s' = desired_max now db s /\
  (nlt (desired_min now db s) (dbMin (_options s)) = true ->
   dbMin (_options s') = desired_min now db s) /\
  (nlt (desired_min now db s) (dbMin (_options s)) = false ->
   dbMin (_options s') = dbMin (_options s)) /\
  (ngt (desired_max now db s) (dbMax (_options s)) = true ->
   dbMax (_options s') = desired_max now db s) /\
  (ngt (desired_max now db s) (dbMax (_options s)) = false ->
   dbMax (_options s') = dbMax (_options s)).
Proof.
  intros Hon Hne s'. subst s'. unfold setValue. rewrite Hon.
  rewrite (track_sample_window now db s Hne). cbv zeta.
  destruct (nlt (desired_min now db s) (dbMin (_options s)));
    destruct (ngt (desired_max now db s) (dbMax (_options s)));
    simpl; repeat split; intros; try discriminate; reflexivity.
Qed.

Lemma autoRange_expands_at_once_witness :
  autoRange (_options full_meter) = true /\
  sample_window 1000 (Fin (-60)) full_meter <> [] /\
  dbMin (_options (setValue 1000 (Fin (-60)) full_meter))
  = desired_min 1000 (Fin (-60)) full_meter.
Proof.
  split; [reflexivity|].
  assert (Hne : sample_window 1000 (Fin (-60)) full_meter <> [])
    by (vm_compute; discriminate).
  split; [exact Hne|].
  apply (proj1 (proj2 (proj2 (proj2
           (autoRange_expands_at_once 1000 (Fin (-60)) full_meter eq_refl Hne)))));
    reflexivity.
Defined.

(** *** A sample below the scale *)

Lemma nle_trans (a b c : num) : nle a b = true -> nle b c = true -> nle a c = true.
Proof.
  destruct a as [x| | |], b as [y| | |], c as [z| | |]; simpl;
    intros H1 H2; try discriminate; try reflexivity.
  q_reflect. lra.
Qed.

Lemma Math_min_le (a b : num) :
  is_nan a = false -> is_nan b = false ->
  is_nan (Math_min a b) = false /\
  nle (Math_min a b) a = true /\ nle (Math_min a b) b = true.
Proof.
  destruct a as [x| | |], b as [y| | |]; intros Ha Hb; try discriminate;
    unfold Math_min; simpl; q_branches; simpl; repeat split; q_reflect; lra.
Qed.

Lemma fold_Math_min_le (xs : list num) :
  forall acc : num,
    is_nan acc = false ->
    (forall y, In y xs -> is_nan y = false) ->
    is_nan (fold_left Math_min xs acc) = false /\
    nle (fold_left Math_min xs acc) acc = true /\
    (forall x, In x xs -> nle (fold_left Math_min xs acc) x = true).
Proof.
  induction xs as [|x xs IH]; intros acc Hacc Hall; simpl.
  - split; [exact Hacc|]. split; [|intros ? []].
    destruct acc; try discriminate; simpl; try reflexivity.
    q_reflect. lra.
  - assert (Hx : is_nan x = false) by (apply Hall; now left).
    destruct (Math_min_le acc x Hacc Hx) as (Hn & Hl & Hr).
    destruct (IH (Math_min acc x) Hn (fun y Hy => Hall y (or_intror Hy)))
      as (Hn' & Hacc' & Hin').
    split; [exact Hn'|]. split.
    + now apply nle_trans with (Math_min acc x).
    + intros y [<- | Hy]; [|now apply Hin'].
      now apply nle_trans with (Math_min acc x).
Qed.

(** The observed minimum is below every retained sample. *)
Lemma Math_min_list_le (xs : list num) (x : num) :
  (forall y, In y xs -> is_nan y = false) ->
  In x xs -> nle (Math_min_list xs) x = true.
Proof.
  intros Hall Hin. unfold Math_min_list.
  now apply (fold_Math_min_le xs PInf eq_refl Hall).
Qed.

(** With a margin that is not negative and no NaN among the retained
    samples, a sample below [dbMin - margin] makes the same call lower
    [dbMin] to the desired bound, which is at most the sample minus the
    margin. *)
Lemma sample_below_scale_expands (now : Z) (x lo m : Q) (s : state) :
  autoRange (_options s) = true ->
  nle (Fin 0) (autoRangeWindow (_options s)) = true ->
  dbMin (_options s) = Fin lo ->
  autoRangeMargin (_options s) = Fin m ->
  0 <= m ->
  x < lo - m ->
  (forall y, In y (map Sample.db (sample_window now (Fin x) s)) -> is_nan y = false) ->
  let s' := setValue now (Fin x) s in
  dbMin (_options s') = desired_min now (Fin x) s /\
  nle (dbMin (_options s')) (Fin (x - m)) = true.
Proof.
  intros Hon Hw Hmin Hmargin Hm Hx Hall s'.
  pose proof (current_sample_in_window now (Fin x) s Hw) as Hin.
  assert (Hne : sample_window now (Fin x) s <> [])
    by (intro E; rewrite E in Hin; exact Hin).
  assert (Hobs : nle (Math_min_list (map Sample.db (sample_window now (Fin x) s)))
                     (Fin x) = true).
  { apply Math_min_list_le; [exact Hall|].
    change (Fin x) with (Sample.db {| Sample.db := Fin x; Sample.t := now |}).
    now apply in_map. }
  assert (Hdes : nle (desired_min now (Fin x) s) (Fin (x - m)) = true).
  { unfold desired_min. rewrite Hmargin.
    destruct (Math_min_list _) as [o| | |]; simpl in *; try discriminate;
      try reflexivity.
    q_reflect. lra. }
  assert (Hlow : nlt (desired_min now (Fin x) s) (dbMin (_options s)) = true).
  { rewrite Hmin. destruct (desired_min now (Fin x) s) as [d| | |];
      simpl in *; try discriminate; try reflexivity.
    q_reflect. lra. }
  assert (Hexp : dbMin (_options s') = desired_min now (Fin x) s).
  { subst s'. unfold setValue. rewrite Hon.
    rewrite (track_sample_window now (Fin x) s Hne). cbv zeta.
    rewrite Hlow. reflexivity. }
  rewrite Hexp. split; [reflexivity | exact Hdes].
Qed.

(** ** Clip edges *)

Lemma callbacks_app (l1 l2 : list event) :
  callbacks (l1 ++ l2) = callbacks l1 ++ callbacks l2.
Proof. apply filter_app. Qed.

(** One evaluation: nothing happens while the predicate keeps its value, and
    a change flips [_clipping] and calls the installed callback once. *)
Lemma updateClipState_step (f g : callback) (db : num) (s : state) :
  onClip (_options s) = Some f ->
  onClipRelease (_options s) = Some g ->
  let p := ngt db (clipThreshold (_options s)) in
  let s' := _updateClipState db s in
  callbacks (log s')
  = callbacks (log s)
    ++ map (edge_event f g) (edges (_clipping s) [p]) /\
  _clipping s' = p /\
  _options s' = _options s.
Proof.
  intros Hf Hg p s'. subst s'. unfold _updateClipState. fold p. cbv zeta.
  simpl edges.
  destruct (Bool.eqb p (_clipping s)) eqn:Hsame.
  - apply eqb_prop in Hsame. simpl. rewrite app_nil_r. auto.
  - destruct p; proj_simpl; destruct (_light s); proj_simpl;
      rewrite ?Hf, ?Hg; proj_simpl;
      unfold emit; proj_simpl; rewrite ?callbacks_app; simpl;
      rewrite ?app_nil_r; auto.
Qed.

Lemma updateClipState_unchanged (db : num) (s : state) :
  ngt db (clipThreshold (_options s)) = _clipping s ->
  _updateClipState db s = s.
Proof.
  intro H. unfold _updateClipState. rewrite H, eqb_reflx. reflexivity.
Qed.

Lemma evaluate_frames_callbacks (f g : callback) (dbs : list num) :
  forall s : state,
    onClip (_options s) = Some f ->
    onClipRelease (_options s) = Some g ->
    let ps := map (fun db => ngt db (clipThreshold (_options s))) dbs in
    callbacks (log (evaluate_frames dbs s))
    = callbacks (log s) ++ map (edge_event f g) (edges (_clipping s) ps).
Proof.
  induction dbs as [|db dbs IH]; intros s Hf Hg.
  - simpl. now rewrite app_nil_r.
  - destruct (updateClipState_step db s Hf Hg) as (Hlog & Hclip & Hopt).
    cbv zeta. simpl evaluate_frames.
    change (fold_left (fun st d => _updateClipState d st) dbs
              (_updateClipState db s))
      with (evaluate_frames dbs (_updateClipState db s)).
    rewrite IH by (rewrite Hopt; assumption).
    rewrite Hlog, Hclip, Hopt. simpl map. simpl edges.
    rewrite app_nil_r, map_app, app_assoc. reflexivity.
Qed.

Lemma enter_count_callbacks (l : list event) :
  List.length (filter is_enter (callbacks l)) = List.length (filter is_enter l).
Proof.
  unfold callbacks. induction l as [|e l IH]; [reflexivity|].
  destruct e; simpl; auto.
Qed.

Lemma exit_count_callbacks (l : list event) :
  List.length (filter is_exit (callbacks l)) = List.length (filter is_exit l).
Proof.
  unfold callbacks. induction l as [|e l IH]; [reflexivity|].
  destruct e; simpl; auto.
Qed.

Lemma enter_count_edges (f g : callback) (es : list edge) :
  List.length (filter is_enter (map (edge_event f g) es))
  = List.length (filter is_rising es).
Proof.
  induction es as [|e es IH]; [reflexivity|]. destruct e; simpl; auto.
Qed.

Lemma exit_count_edges (f g : callback) (es : list edge) :
  List.length (filter is_exit (map (edge_event f g) es))
  = List.length (filter is_falling es).
Proof.
  induction es as [|e es IH]; [reflexivity|]. destruct e; simpl; auto.
Qed.

(** C6.  Over any sequence of evaluations of the current value against the
    clip threshold, on a meter with both callbacks installed, the callback
    invocations are exactly the edges of the predicate
    [currentValue > clipThreshold], in order: [onClip] once per rising edge,
    [onClipRelease] once per falling edge, and an evaluation at which the
    predicate has the value of the previous one changes nothing at all. *)
Theorem clip_callbacks_follow_edges (f g : callback) (dbs : list num) (s : state) :
  onClip (_options s) = Some f ->
  onClipRelease (_options s) = Some g ->
  let ps := map (fun db => ngt db (clipThreshold (_options s))) dbs in
  let s' := evaluate_frames dbs s in
  callbacks (log s')
  = callbacks (log s) ++ map (edge_event f g) (edges (_clipping s) ps) /\
  List.length (filter is_enter (log s'))
  = (List.length (filter is_enter (log s))
     + List.length (filter is_rising (edges (_clipping s) ps)))%nat /\
  List.length (filter is_exit (log s'))
  = (List.length (filter is_exit (log s))
     + List.length (filter is_falling (edges (_clipping s) ps)))%nat /\
  (forall db : num,
      ngt db (clipThreshold (_options s)) = _clipping s ->
      _updateClipState db s = s).
Proof.
  intros Hf Hg ps s'.
  pose proof (evaluate_frames_callbacks dbs s Hf Hg) as Hlog.
  cbv zeta in Hlog. fold ps in Hlog. fold s' in Hlog.
  split; [exact Hlog|]. split; [|split].
  - rewrite <- (enter_count_callbacks (log s')), Hlog.
    rewrite filter_app, length_app, enter_count_callbacks, enter_count_edges.
    reflexivity.
  - rewrite <- (exit_count_callbacks (log s')), Hlog.
    rewrite filter_app, length_app, exit_count_callbacks, exit_count_edges.
    reflexivity.
  - intros db. apply updateClipState_unchanged.
Qed.

Lemma clip_callbacks_follow_edges_witness :
  onClip (_options full_meter) = Some 1%nat /\
  onClipRelease (_options full_meter) = Some 2%nat /\
  callbacks
    (log (evaluate_frames [Fin (-3); Fin 1; Fin 2; Fin (1 # 2); Fin (-1); Fin (-2)]
            full_meter))
  = [OnClip 1%nat; OnClipRelease 2%nat].
Proof.
  split; [reflexivity|]. split; [reflexivity|].
  apply (proj1 (clip_callbacks_follow_edges
                  [Fin (-3); Fin 1; Fin 2; Fin (1 # 2); Fin (-1); Fin (-2)]
                  full_meter eq_refl eq_refl)).
Defined.

(** *** Clip edges in whole frames *)

Lemma contract_range_clip_inputs (dt : num) (s : state) :
  clip_inputs (contract_range dt s) = clip_inputs s.
Proof.
  unfold contract_range. cbv zeta.
  destruct (autoRange (_options s)); [|reflexivity].
  destruct (nlt (dbMin (_options s)) (_autoRangeTargetMin s)); proj_simpl;
    destruct (ngt (dbMax (_options s)) (_autoRangeTargetMax s)); proj_simpl;
    split_ifs; unfold clip_inputs, _rebuildScale, emit; proj_simpl;
    rewrite ?callbacks_app, ?app_nil_r; reflexivity.
Qed.

Lemma clip_inputs_eq (a b : state) :
  clip_inputs a = clip_inputs b ->
  _clipping a = _clipping b /\
  onClip (_options a) = onClip (_options b) /\
  onClipRelease (_options a) = onClipRelease (_options b) /\
  clipThreshold (_options a) = clipThreshold (_options b) /\
  callbacks (log a) = callbacks (log b).
Proof. unfold clip_inputs. intro H. injection H. auto. Qed.

Lemma clip_inputs_parts (s : state)
    (c : bool) (f g : option callback) (thr : num) (l : list event) :
  clip_inputs s = (c, f, g, thr, l) ->
  _clipping s = c /\
  onClip (_options s) = f /\
  onClipRelease (_options s) = g /\
  clipThreshold (_options s) = thr /\
  callbacks (log s) = l.
Proof. unfold clip_inputs. intro H. injection H. auto. Qed.

Section ClipInFrames.

Variable Math_exp : num -> num.

Lemma ballistics_step_clip_inputs (dt : num) (s : state) :
  clip_inputs (ballistics_step Math_exp dt s) = clip_inputs s.
Proof. unfold ballistics_step. cbv zeta. split_ifs; reflexivity. Qed.

Lemma peak_step_clip_inputs (dt : num) (now : Z) (s : state) :
  clip_inputs (peak_step Math_exp dt now s) = clip_inputs s.
Proof.
  unfold peak_step. cbv zeta.
  split_ifs; unfold clip_inputs, _updatePeakNeedle, emit; proj_simpl;
    rewrite ?callbacks_app, ?app_nil_r; reflexivity.
Qed.

(** A frame notifies exactly the edge, if any, between the stored clip flag
    and the predicate on the value it displays. *)
Lemma animate_clip_edge (f g : callback) (timestamp : Q) (now : Z) (s : state) :
  onClip (_options s) = Some f ->
  onClipRelease (_options s) = Some g ->
  let s' := _animate Math_exp timestamp now s in
  let p := ngt (_currentDb s') (clipThreshold (_options s)) in
  clip_inputs s'
  = (p, Some f, Some g, clipThreshold (_options s),
     callbacks (log s) ++ map (edge_event f g) (edges (_clipping s) [p])).
Proof.
  intros Hf Hg s' p. subst p s'.
  rewrite animate_unfold. cbv zeta.
  remember (frame_dt timestamp s) as dt eqn:Edt.
  remember (pin_to_scale
              (ballistics_step Math_exp dt
                 (contract_range dt (set_lastTime (Some timestamp) s))))
    as s2 eqn:Es2.
  remember (_updateNeedle (_currentDb s2) s2) as s2' eqn:Es2'.
  assert (Hcur : _currentDb s2' = _currentDb s2) by (subst s2'; reflexivity).
  assert (Hin : clip_inputs s2' = clip_inputs s).
  { transitivity (clip_inputs s2).
    - subst s2'. unfold clip_inputs, _updateNeedle, emit. proj_simpl.
      rewrite callbacks_app. simpl. now rewrite app_nil_r.
    - subst s2. unfold pin_to_scale.
      transitivity (clip_inputs
                      (ballistics_step Math_exp dt
                         (contract_range dt (set_lastTime (Some timestamp) s))));
        [reflexivity|].
      rewrite ballistics_step_clip_inputs, contract_range_clip_inputs.
      reflexivity. }
  clear Es2 Es2' Edt.
  rewrite peak_step_clip_inputs, peak_step_currentDb, updateClipState_currentDb.
  rewrite Hcur.
  destruct (clip_inputs_eq Hin) as (Hc & Hon & Hoff & Hthr & Hlog).
  rewrite <- Hon in Hf. rewrite <- Hoff in Hg.
  destruct (updateClipState_step (_currentDb s2) s2' Hf Hg) as (Hlog' & Hclip & Hopt).
  unfold clip_inputs. rewrite Hlog', Hclip, Hopt, Hf, Hg, Hthr, Hc, Hlog.
  reflexivity.
Qed.

Lemma run_frames_cons (fr : Q * Z) (frames : list (Q * Z)) (s : state) :
  run_frames Math_exp s (fr :: frames)
  = run_frames Math_exp (_animate Math_exp (fst fr) (snd fr) s) frames.
Proof. reflexivity. Qed.

Lemma frame_values_cons (fr : Q * Z) (frames : list (Q * Z)) (s : state) :
  frame_values Math_exp s (fr :: frames)
  = _currentDb (_animate Math_exp (fst fr) (snd fr) s)
    :: frame_values Math_exp (_animate Math_exp (fst fr) (snd fr) s) frames.
Proof. reflexivity. Qed.

(** Over a run of frames the callback invocations are the edges of the
    predicate on the displayed values. *)
Lemma run_frames_callbacks (f g : callback) (frames : list (Q * Z)) :
  forall s : state,
    onClip (_options s) = Some f ->
    onClipRelease (_options s) = Some g ->
    callbacks (log (run_frames Math_exp s frames))
    = callbacks (log s)
      ++ map (edge_event f g)
           (edges (_clipping s)
                  (map (fun v => ngt v (clipThreshold (_options s)))
                       (frame_values Math_exp s frames))).
Proof.
  induction frames as [|fr frames IH]; intros s Hf Hg.
  - simpl. now rewrite app_nil_r.
  - rewrite run_frames_cons, frame_values_cons.
    pose proof (animate_clip_edge (fst fr) (snd fr) s Hf Hg) as Hstep.
    cbv zeta in Hstep.
    generalize dependent (_animate Math_exp (fst fr) (snd fr) s).
    intros s1 Hstep.
    destruct (clip_inputs_parts Hstep) as (Hc & Hon & Hoff & Hthr & Hlog).
    rewrite (IH s1 Hon Hoff), Hlog, Hc, Hthr.
    rewrite map_cons. cbn [edges map].
    rewrite app_nil_r, map_app, <- app_assoc. reflexivity.
Qed.

End ClipInFrames.

(** * The manual range and the peak tracker *)

Unset Implicit Arguments.

Lemma contract_range_off (dt : num) (s : state) :
  autoRange (_options s) = false -> contract_range dt s = s.
Proof. intro H. unfold contract_range. now rewrite H. Qed.

(** A value clamped below [t] is not above [t], whatever it was. *)
Lemma clamp_not_above (lo c t : Q) (x : num) :
  lo <= t -> c <= t ->
  ngt (Math_max (Fin lo) (Math_min (Fin c) x)) (Fin t) = false.
Proof.
  intros Hlo Hc. unfold ngt, Math_max, Math_min.
  destruct x as [v| | |]; simpl; q_branches; simpl; q_reflect; try reflexivity;
    lra.
Qed.

(** The peak block of a frame leaves a tracker at rest as it is, apart from
    the visual value. *)
Lemma peak_step_idle (exp : num -> num) (dt : num) (now : Z) (s : state)
    (p : num) :
  idle_above p s -> idle_above p (peak_step exp dt now s).
Proof.
  intros (Hp & Hhold & Hdec & Hlow). unfold peak_step, idle_above.
  destruct (showPeak (_options s) && _peakNeedle s); [|now repeat split].
  cbv zeta. rewrite Hp, Hlow. cbv iota. rewrite Hdec, Hhold.
  change (ngt (Fin 0) (Fin 0)) with false. cbn [negb andb]. cbv iota.
  rewrite Hdec. proj_simpl. now repeat split.
Qed.

Lemma animate_idle (exp : num -> num) (timestamp : Q) (now : Z) (s : state)
    (p : num) :
  idle_above p s -> idle_above p (_animate exp timestamp now s).
Proof.
  intros H.
  destruct (animate_reaches_peak_step exp timestamp now s) as (s3 & -> & Hin & _).
  apply peak_step_idle. unfold idle_above in *. unfold peak_inputs in Hin.
  injection Hin as -> -> _ -> -> _ _ _ _ _. exact H.
Qed.

Lemma animate_options_off (exp : num -> num) (timestamp : Q) (now : Z)
    (s : state) :
  autoRange (_options s) = false ->
  _options (_animate exp timestamp now s) = _options s.
Proof.
  intros Hoff. rewrite animate_options, contract_range_off; [reflexivity|].
  exact Hoff.
Qed.

(** On the lowered meter, no sample and no frame moves the held peak. *)
Lemma lowered_meter_stays (exp log10 : num -> num) (c : call) (s : state) :
  sample_or_frame c = true ->
  _options s = _options lowered_meter /\ idle_above (Fin (-20)) s ->
  _options (perform exp log10 c s) = _options lowered_meter /\
  idle_above (Fin (-20)) (perform exp log10 c s).
Proof.
  intros Hc (Hopt & Hidle).
  assert (Hoff : autoRange (_options s) = false) by now rewrite Hopt.
  assert (Hset : forall now db,
             _options (setValue now db s) = _options lowered_meter /\
             idle_above (Fin (-20)) (setValue now db s)).
  { intros now db. unfold setValue. rewrite Hoff.
    split; [exact Hopt|].
    destruct Hidle as (Hp & Hhold & Hdec & _).
    unfold idle_above. cbn [_peakDb _peakHoldUntil _peakDecaying _targetDb
                            set_targetDb].
    repeat (split; [assumption|]).
    unfold mapped_target. cbv zeta. rewrite Hopt.
    change (dbMin (_options lowered_meter)) with (Fin (-60)).
    change (nadd (dbMax (_options lowered_meter)) (Fin 1)) with (Fin (-30 + 1)).
    apply clamp_not_above; vm_compute; intro H; discriminate H. }
  destruct c; try discriminate Hc; cbn [perform].
  - apply Hset.
  - unfold setAmplitude. destruct (nle amp (Fin 0)); apply Hset.
  - split; [exact Hopt | exact Hidle].
  - unfold resume. destruct (_paused s); split; assumption.
  - split.
    + rewrite animate_options_off; assumption.
    + now apply animate_idle.
Qed.

Lemma lowered_meter_run (exp log10 : num -> num) (cs : list call) :
  forall s0 : state,
    forallb sample_or_frame cs = true ->
    _options s0 = _options lowered_meter /\ idle_above (Fin (-20)) s0 ->
    _options (perform_all exp log10 s0 cs) = _options lowered_meter /\
    idle_above (Fin (-20)) (perform_all exp log10 s0 cs).
Proof.
  induction cs as [|c cs IH]; intros s0 Hcs H0; [exact H0|].
  cbn [forallb] in Hcs. apply andb_true_iff in Hcs. destruct Hcs as (Hc & Hcs).
  cbn [perform_all]. apply IH; [exact Hcs|].
  now apply lowered_meter_stays.
Qed.

(** C7.  The failing input: [setRange(-60, -30)] on a fresh meter that
    shows the peak needle.  The call stores the bounds and clamps the target
    and the current value into them (both become [-30]), but it leaves the
    held and the visual peak at [-20], above the new maximum.  That does not
    mend itself: whatever samples and frames follow, no target exceeds the
    held peak (a target is at most [dbMax + 1 = -29]) and no hold is
    running, so the held peak stays at [-20], which [_dbToAngleDeg] places
    beyond the 320 degrees at which the dial ends. *)
Theorem setRange_strands_peak (exp log10 : num -> num) (cs : list call) :
  forallb sample_or_frame cs = true ->
  let s := perform_all exp log10 lowered_meter cs in
  (dbMin (_options lowered_meter) = Fin (-60) /\
   dbMax (_options lowered_meter) = Fin (-30) /\
   _targetDb lowered_meter = Fin (-30) /\
   _currentDb lowered_meter = Fin (-30) /\
   _peakDb lowered_meter = Fin (-20) /\
   _peakVisualDb lowered_meter = Fin (-20) /\
   _rangeSamples lowered_meter = _rangeSamples peak_meter /\
   log lowered_meter = [ScaleRebuilt (Fin (-60)) (Fin (-30))]) /\
  (dbMin (_options s) = Fin (-60) /\
   dbMax (_options s) = Fin (-30) /\
   _peakDb s = Fin (-20) /\
   ngt (_peakDb s) (dbMax (_options s)) = true /\
   ngt (_dbToAngleDeg (_peakDb s) s) (Fin 320) = true).
Proof.
  intros Hcs s. split; [repeat split|].
  assert (H : _options s = _options lowered_meter /\ idle_above (Fin (-20)) s).
  { subst s. apply lowered_meter_run; [exact Hcs | repeat split]. }
  destruct H as (Hopt & Hp & _).
  unfold _dbToAngleDeg. cbv zeta. rewrite Hopt, Hp. repeat split.
Qed.

Lemma setRange_strands_peak_witness :
  _peakDb (perform_all exp_model exp_model lowered_meter
             [CallSetValue 1000 (Fin 0); CallFrame 16 1016;
              CallSetAmplitude 1100 (Fin 1); CallFrame 32 3032])
  = Fin (-20) /\
  dbMax (_options (perform_all exp_model exp_model lowered_meter
                     [CallSetValue 1000 (Fin 0); CallFrame 16 1016;
                      CallSetAmplitude 1100 (Fin 1); CallFrame 32 3032]))
  = Fin (-30).
Proof.
  destruct (setRange_strands_peak exp_model exp_model
              [CallSetValue 1000 (Fin 0); CallFrame 16 1016;
               CallSetAmplitude 1100 (Fin 1); CallFrame 32 3032] eq_refl)
    as (_ & _ & Hmax & Hpeak & _).
  split; [exact Hpeak | exact Hmax].
Defined.

(** * Further properties of the code *)

Unset Implicit Arguments.

(** ** The range mapper is monotone *)

Lemma nle_refl (a : num) : is_nan a = false -> nle a a = true.
Proof. destruct a; simpl; try discriminate; intros _; try reflexivity. q_reflect. lra. Qed.

Lemma clamp_mono (lo hi x y : num) :
  is_nan lo = false -> is_nan hi = false ->
  nle x y = true ->
  nle (clamp lo hi x) (clamp lo hi y) = true.
Proof.
  destruct lo as [l| | |], hi as [h| | |], x as [a| | |], y as [b| | |];
    intros Hl Hh Hxy; try discriminate;
    unfold clamp, Math_max, Math_min; simpl in *;
    q_branches; simpl; q_reflect; try reflexivity; try lra.
Qed.

(** The slope of the interpolation is not negative. *)
Lemma interpolation_mono (x y nf lo hi : Q) :
  nf < hi -> lo <= hi -> x <= y ->
  lo + (x - nf) / (hi - nf) * (hi - lo) <= lo + (y - nf) / (hi - nf) * (hi - lo).
Proof.
  intros Hnf Hlo Hxy.
  assert (Hinv : 0 < / (hi - nf)) by (apply Qinv_lt_0_compat; lra).
  unfold Qdiv. generalize dependent (/ (hi - nf)). intros i Hi.
  assert (H : 0 <= (y - x) * i * (hi - lo))
    by (repeat apply Qmult_le_0_compat; lra).
  lra.
Qed.

Lemma interpolation_above_floor (y nf lo hi : Q) :
  nf < hi -> lo <= hi -> nf <= y ->
  lo <= lo + (y - nf) / (hi - nf) * (hi - lo).
Proof.
  intros Hnf Hlo Hy.
  assert (Hinv : 0 < / (hi - nf)) by (apply Qinv_lt_0_compat; lra).
  unfold Qdiv. generalize dependent (/ (hi - nf)). intros i Hi.
  assert (H : 0 <= (y - nf) * i * (hi - lo))
    by (repeat apply Qmult_le_0_compat; lra).
  lra.
Qed.

Lemma Qsign_pos (q : Q) : 0 < q -> Qsign q = Pos.
Proof.
  intro H. unfold Qsign.
  replace (Qis_zero q) with false by (symmetry; apply Qis_zero_false; lra).
  replace (Qlt_bool q 0) with false by (symmetry; apply Qlt_bool_false; lra).
  reflexivity.
Qed.

Lemma mapped_target_clamp (db : num) (o : options) :
  mapped_target db o
  = clamp (dbMin o) (nadd (dbMax o) (Fin 1))
          (if nle db (noiseFloor o) then dbMin o
           else interpolate db (dbMin o) (dbMax o) (noiseFloor o)).
Proof. reflexivity. Qed.

Lemma mapped_target_mono (a b : num) (o : options) (lo hi nf : Q) :
  dbMin o = Fin lo -> dbMax o = Fin hi -> noiseFloor o = Fin nf ->
  nf < hi -> lo < hi ->
  nle a b = true ->
  nle (mapped_target a o) (mapped_target b o) = true.
Proof.
  intros Hlo Hhi Hnf Hfloor Hscale Hab.
  rewrite !mapped_target_clamp, Hlo, Hhi, Hnf.
  apply clamp_mono; [reflexivity | reflexivity |].
  assert (Hz : Qis_zero (hi + - nf) = false)
    by (apply Qis_zero_false; lra).
  assert (Hpos : Qsign (hi + - lo) = Pos) by (apply Qsign_pos; lra).
  assert (Hpos' : Qsign (hi + - nf) = Pos) by (apply Qsign_pos; lra).
  pose proof (fun y => interpolation_above_floor y nf lo hi) as Hfl.
  pose proof (fun x y => interpolation_mono x y nf lo hi) as Hmo.
  unfold Qminus in Hfl, Hmo.
  destruct a as [x| | |], b as [y| | |]; simpl in Hab; try discriminate;
    unfold interpolate; simpl; rewrite ?Hz, ?Hpos'; simpl; rewrite ?Hpos; simpl;
    repeat match goal with
      | |- context [Qle_bool ?u nf] => destruct (Qle_bool u nf) eqn:?
      end; simpl; try reflexivity; q_reflect;
    try specialize (Hmo x y); try specialize (Hfl y); lra.
Qed.

(** X1.  Mapping monotonicity.  On a configuration of numbers of
    magnitude at most [Number.MAX_SAFE_INTEGER] with [noiseFloor < dbMax]
    and [dbMin < dbMax], and with auto-range off, a larger sample never
    gives a smaller target: the two infinities included, [a <= b] implies
    that the target set by [setValue(a)] is at most the one set by
    [setValue(b)].  (The bound on the magnitudes keeps [dbMax - noiseFloor]
    and [dbMax - dbMin] from overflowing.) *)
Theorem setValue_monotone (now now' : Z) (a b : num) (s : state) (lo hi nf : Q) :
  autoRange (_options s) = false ->
  dbMin (_options s) = Fin lo ->
  dbMax (_options s) = Fin hi ->
  noiseFloor (_options s) = Fin nf ->
  Qabs lo <= MAX_SAFE_INTEGER ->
  Qabs hi <= MAX_SAFE_INTEGER ->
  Qabs nf <= MAX_SAFE_INTEGER ->
  nf < hi -> lo < hi ->
  nle a b = true ->
  nle (_targetDb (setValue now a s)) (_targetDb (setValue now' b s)) = true.
Proof.
  intros Hoff Hlo Hhi Hnf _ _ _ Hfloor Hscale Hab.
  unfold setValue. rewrite Hoff. simpl.
  now apply mapped_target_mono with lo hi nf.
Qed.

Lemma setValue_monotone_witness :
  nle (_targetDb (setValue 0 (Fin (-12)) default_meter))
      (_targetDb (setValue 5 PInf default_meter)) = true.
Proof.
  apply (setValue_monotone 0 5 (Fin (-12)) PInf default_meter (-20) 3 (-20));
    try reflexivity; vm_compute; intro H; discriminate H.
Defined.

(** ** The target stays on the scale *)

(** X2.  On a configuration of numbers of magnitude at most
    [Number.MAX_SAFE_INTEGER] with [noiseFloor < dbMax] and
    [dbMin < dbMax], and with auto-range off, [setValue] of any sample that
    is not NaN (the infinities included) leaves a finite target in
    [[dbMin, dbMax + 1]].  (The bound on the magnitudes keeps
    [dbMax - noiseFloor] and [dbMax - dbMin] from overflowing.) *)
Theorem setValue_target_on_scale (now : Z) (rawDb : num) (s : state) (lo hi nf : Q) :
  autoRange (_options s) = false ->
  dbMin (_options s) = Fin lo ->
  dbMax (_options s) = Fin hi ->
  noiseFloor (_options s) = Fin nf ->
  Qabs lo <= MAX_SAFE_INTEGER ->
  Qabs hi <= MAX_SAFE_INTEGER ->
  Qabs nf <= MAX_SAFE_INTEGER ->
  nf < hi -> lo < hi ->
  is_nan rawDb = false ->
  exists t : Q,
    _targetDb (setValue now rawDb s) = Fin t /\ lo <= t /\ t <= hi + 1.
Proof.
  intros Hoff Hlo Hhi Hnf _ _ _ Hfloor Hscale Hx.
  unfold setValue. rewrite Hoff. simpl.
  rewrite mapped_target_clamp, Hlo, Hhi, Hnf.
  assert (Hz : Qis_zero (hi + - nf) = false)
    by (apply Qis_zero_false; lra).
  assert (Hpos : Qsign (hi + - lo) = Pos) by (apply Qsign_pos; lra).
  assert (Hpos' : Qsign (hi + - nf) = Pos) by (apply Qsign_pos; lra).
  destruct rawDb as [x| | |]; try discriminate;
    unfold interpolate, clamp, Math_max, Math_min; simpl;
    rewrite ?Hz, ?Hpos'; simpl; rewrite ?Hpos; simpl;
    repeat (progress (q_branches; simpl));
    eexists; (split; [reflexivity|]); q_reflect; lra.
Qed.

Lemma setValue_target_on_scale_witness :
  exists t : Q,
    _targetDb (setValue 0 PInf default_meter) = Fin t /\ -20 <= t /\ t <= 3 + 1.
Proof.
  apply (setValue_target_on_scale 0 PInf default_meter (-20) 3 (-20));
    try reflexivity; vm_compute; intro H; discriminate H.
Defined.

(** ** The needle stays on the scale *)

Lemma clamp_nan (lo hi x : num) : is_nan x = true -> clamp lo hi x = NaN.
Proof.
  destruct x; try discriminate. intros _. unfold clamp, Math_max, Math_min.
  now rewrite !orb_true_r.
Qed.

Lemma set_lastTime_options (last : option Q) (s : state) :
  _options (set_lastTime last s) = _options s.
Proof. reflexivity. Qed.

(** The shape of a frame: the ballistics result [s2] is pinned, drawn,
    checked for clipping, and handed to the peak block. *)
Lemma animate_shape (exp : num -> num) (timestamp : Q) (now : Z) (s : state) :
  exists (dt : num) (s2 : state),
    _animate exp timestamp now s
    = peak_step exp dt now
        (_updateClipState (_currentDb (pin_to_scale s2))
           (_updateNeedle (_currentDb (pin_to_scale s2)) (pin_to_scale s2))).
Proof. do 2 eexists. exact (animate_unfold exp timestamp now s). Qed.

(** The value displayed after a frame is some value clamped to the bounds
    the frame ends with. *)
Lemma animate_current_clamped (exp : num -> num) (timestamp : Q) (now : Z) (s : state) :
  exists x : num,
    _currentDb (_animate exp timestamp now s)
    = clamp (dbMin (_options (_animate exp timestamp now s)))
            (nadd (dbMax (_options (_animate exp timestamp now s))) (Fin (1 # 2)))
            x.
Proof.
  destruct (animate_shape exp timestamp now s) as (dt & s2 & Heq).
  rewrite Heq. clear Heq.
  rewrite peak_step_currentDb, peak_step_options.
  rewrite updateClipState_currentDb, updateClipState_options.
  exists (_currentDb s2). reflexivity.
Qed.

(** X3.  After every frame whose bounds satisfy [dbMin <= dbMax + 0.5], the
    displayed value is NaN or lies in [[dbMin, dbMax + 0.5]], whatever the
    target, the elapsed time and [Math.exp] were. *)
Theorem animate_pins_current (exp : num -> num) (timestamp : Q) (now : Z) (s s' : state) :
  s' = _animate exp timestamp now s ->
  nle (dbMin (_options s')) (nadd (dbMax (_options s')) (Fin (1 # 2))) = true ->
  is_nan (getValue s') = true \/
  (nle (dbMin (_options s')) (getValue s') = true /\
   nle (getValue s') (nadd (dbMax (_options s')) (Fin (1 # 2))) = true).
Proof.
  intros Hs' Hord. unfold getValue.
  destruct (animate_current_clamped exp timestamp now s) as (x & Hc).
  rewrite <- Hs' in Hc. rewrite Hc.
  destruct (is_nan x) eqn:Hx.
  - left. now rewrite clamp_nan.
  - right. now apply clamp_between.
Qed.

Lemma animate_pins_current_witness :
  let s' := _animate exp_model 16 1016 (setValue 1000 PInf default_meter) in
  is_nan (getValue s') = true \/
  (nle (dbMin (_options s')) (getValue s') = true /\
   nle (getValue s') (nadd (dbMax (_options s')) (Fin (1 # 2))) = true).
Proof.
  apply (animate_pins_current exp_model 16 1016
           (setValue 1000 PInf default_meter) _ eq_refl).
  vm_compute. reflexivity.
Defined.

(** ** The ballistics filter never overshoots *)



(** ** Reaching the target *)

(** X5.  With auto-range off and a finite target on the pinned scale
    [[dbMin, dbMax + 0.5]], a frame displays the target itself when
    ballistics is off or when the current value is within the 0.005
    deadband of the target, whatever the elapsed time and [Math.exp] are.
    In particular a needle that has reached its target stays there. *)
Theorem animate_reaches_target
    (exp : num -> num) (timestamp : Q) (now : Z) (s : state) (t c lo hi : Q) :
  autoRange (_options s) = false ->
  dbMin (_options s) = Fin lo ->
  dbMax (_options s) = Fin hi ->
  _targetDb s = Fin t ->
  _currentDb s = Fin c ->
  lo <= t -> t <= hi + (1 # 2) ->
  ballistics (_options s) = false \/ Qabs (t - c) < 5 # 1000 ->
  num_eq (getValue (_animate exp timestamp now s)) (Fin t).
Proof.
  intros Hoff Hlo Hhi Ht Hc Hlo_t Ht_hi Hcase. unfold getValue.
  rewrite animate_currentDb. cbv zeta.
  rewrite contract_range_off by exact Hoff.
  rewrite set_lastTime_options, Hlo, Hhi.
  assert (Hstep : _currentDb (ballistics_step exp (frame_dt timestamp s)
                                (set_lastTime (Some timestamp) s)) = Fin t).
  { unfold ballistics_step. rewrite set_lastTime_options.
    cbn [_targetDb _currentDb set_lastTime set_currentDb]. rewrite Ht, Hc.
    destruct (ballistics (_options s)) eqn:Hb; [|reflexivity].
    destruct Hcase as [Hcase | Hnear]; [discriminate|].
    cbn [nsub nneg nadd Math_abs nlt].
    replace (Qlt_bool (Qabs (t + - c)) (5 # 1000)) with true; [reflexivity|].
    symmetry. apply Qlt_bool_true. exact Hnear. }
  rewrite Hstep. unfold clamp, Math_max, Math_min. simpl.
  repeat (progress (q_branches; simpl)); q_reflect; lra.
Qed.

Lemma animate_reaches_target_witness :
  num_eq (getValue (_animate exp_model 16 1016
                      (setValue 1000 (Fin (-19999 # 1000)) default_meter)))
         (Fin (-459977 # 23000)).
Proof.
  apply (animate_reaches_target exp_model 16 1016
           (setValue 1000 (Fin (-19999 # 1000)) default_meter)
           (-459977 # 23000) (-20) (-20) 3);
    try reflexivity; try (vm_compute; intro H; discriminate H).
  right. vm_compute. reflexivity.
Defined.

(** ** Elapsed time of a frame *)

Lemma updateClipState_lastTime (db : num) (s : state) :
  _lastTime (_updateClipState db s) = _lastTime s.
Proof. unfold _updateClipState. split_ifs; reflexivity. Qed.

Lemma contract_range_lastTime (dt : num) (s : state) :
  _lastTime (contract_range dt s) = _lastTime s.
Proof. unfold contract_range. cbv zeta. split_ifs; reflexivity. Qed.

Lemma ballistics_step_lastTime (exp : num -> num) (dt : num) (s : state) :
  _lastTime (ballistics_step exp dt s) = _lastTime s.
Proof. unfold ballistics_step. cbv zeta. split_ifs; reflexivity. Qed.

Lemma peak_step_lastTime (exp : num -> num) (dt : num) (now : Z) (s : state) :
  _lastTime (peak_step exp dt now s) = _lastTime s.
Proof. unfold peak_step. cbv zeta. split_ifs; reflexivity. Qed.

(** A frame records its timestamp. *)
Lemma animate_lastTime (exp : num -> num) (timestamp : Q) (now : Z) (s : state) :
  _lastTime (_animate exp timestamp now s) = Some timestamp.
Proof.
  rewrite animate_unfold. cbv zeta.
  rewrite peak_step_lastTime, updateClipState_lastTime.
  unfold _updateNeedle, pin_to_scale, emit. cbn [_lastTime set_log set_currentDb].
  rewrite ballistics_step_lastTime, contract_range_lastTime. reflexivity.
Qed.

(** X6.  The elapsed time a frame works with is a rational number that is
    at most 100 (milliseconds), however far apart two frames are; it is the
    difference of the timestamps of two successive frames when that is at
    most 100; and it is 0 in the first frame after construction and in the
    first frame after [pause()] followed by [resume()], whatever the
    timestamp is. *)
Theorem frame_dt_capped_and_reset
    (exp : num -> num) (p : Partial.t) (t1 t2 : Q) (now : Z) (s : state) :
  (exists d : Q, frame_dt t2 s = Fin d /\ d <= 100) /\
  (t2 - t1 <= 100 ->
   num_eq (frame_dt t2 (_animate exp t1 now s)) (Fin (t2 - t1))) /\
  num_eq (frame_dt t2 (constructor p)) (Fin 0) /\
  num_eq (frame_dt t2 (resume (pause s))) (Fin 0).
Proof.
  split; [apply frame_dt_finite|]. split; [|split].
  - intro Hgap. unfold frame_dt. rewrite animate_lastTime.
    unfold Math_min. simpl.
    destruct (Qlt_bool 100 (t2 + - t1)) eqn:E; simpl; q_reflect; lra.
  - unfold frame_dt, Math_min. simpl.
    destruct (Qlt_bool 100 (t2 + - t2)) eqn:E; simpl; q_reflect; lra.
  - unfold frame_dt, Math_min, resume, pause. simpl.
    destruct (Qlt_bool 100 (t2 + - t2)) eqn:E; simpl; q_reflect; lra.
Qed.

Lemma frame_dt_capped_and_reset_witness :
  num_eq (frame_dt 40 (_animate exp_model 24 1000 default_meter)) (Fin (40 - 24)).
Proof.
  apply (frame_dt_capped_and_reset exp_model no_options 24 40 1000 default_meter).
  vm_compute. intro H. discriminate H.
Defined.

(** ** Needle angle *)

Lemma fraction_of_scale (x y lo hi : Q) :
  lo < hi -> lo <= x -> x <= y -> y <= hi ->
  0 <= (x - lo) / (hi - lo) /\
  (x - lo) / (hi - lo) <= (y - lo) / (hi - lo) /\
  (y - lo) / (hi - lo) <= 1.
Proof.
  intros Hscale Hx Hxy Hy.
  assert (Hpos : 0 < hi - lo) by lra.
  repeat split.
  - apply Qle_shift_div_l; [exact Hpos | lra].
  - apply Qle_shift_div_l; [exact Hpos|].
    setoid_replace ((x - lo) / (hi - lo) * (hi - lo)) with (x - lo)
      by (field; lra).
    lra.
  - apply Qle_shift_div_r; [exact Hpos | lra].
Qed.

(** X7.  On a scale with [dbMin < dbMax], both of magnitude at most
    [Number.MAX_SAFE_INTEGER] (so that [dbMax - dbMin] does not overflow),
    [_dbToAngleDeg] sends [dbMin] to 220 degrees and [dbMax] to 320 degrees,
    is monotone, and so keeps every value of the scale within the 100 degree
    sweep. *)
Theorem dbToAngleDeg_sweep (x y lo hi : Q) (s : state) :
  dbMin (_options s) = Fin lo ->
  dbMax (_options s) = Fin hi ->
  Qabs lo <= MAX_SAFE_INTEGER ->
  Qabs hi <= MAX_SAFE_INTEGER ->
  lo < hi -> lo <= x -> x <= y -> y <= hi ->
  exists a b : Q,
    _dbToAngleDeg (Fin x) s = Fin a /\
    _dbToAngleDeg (Fin y) s = Fin b /\
    220 <= a /\ a <= b /\ b <= 320 /\
    num_eq (_dbToAngleDeg (Fin lo) s) (Fin 220) /\
    num_eq (_dbToAngleDeg (Fin hi) s) (Fin 320).
Proof.
  intros Hlo Hhi _ _ Hscale Hx Hxy Hy.
  assert (Hz : Qis_zero (hi + - lo) = false) by (apply Qis_zero_false; lra).
  unfold _dbToAngleDeg, ANGLE_MIN, SWEEP. cbv zeta. rewrite Hlo, Hhi.
  cbn [nsub nneg nadd ndiv nmul]. rewrite Hz. cbn [nadd nmul num_eq].
  destruct (fraction_of_scale x y lo hi Hscale Hx Hxy Hy) as (H0 & Hm & H1).
  unfold Qminus in *.
  exists (220 + (x + - lo) / (hi + - lo) * 100),
         (220 + (y + - lo) / (hi + - lo) * 100).
  repeat split; try lra.
  - field. lra.
  - field. lra.
Qed.

Lemma dbToAngleDeg_sweep_witness :
  exists a b : Q,
    _dbToAngleDeg (Fin (-7)) default_meter = Fin a /\
    _dbToAngleDeg (Fin 0) default_meter = Fin b /\
    220 <= a /\ a <= b /\ b <= 320 /\
    num_eq (_dbToAngleDeg (Fin (-20)) default_meter) (Fin 220) /\
    num_eq (_dbToAngleDeg (Fin 3) default_meter) (Fin 320).
Proof.
  apply (dbToAngleDeg_sweep (-7) 0 (-20) 3 default_meter);
    try reflexivity; vm_compute; intro H; discriminate H.
Defined.

(** ** Amplitude input *)

(** X8.  Silence.  With auto-range off and neither [dbMax] nor
    [noiseFloor] NaN, [setAmplitude(amp)] with [amp <= 0] sets the target
    to [dbMin], whatever [Math.log10] is and whatever the target was; for
    [amp > 0] the call is [setValue(20 * Math.log10(amp))]. *)
Theorem setAmplitude_silence
    (log10 : num -> num) (now : Z) (amp : num) (s : state) :
  autoRange (_options s) = false ->
  is_nan (dbMax (_options s)) = false ->
  is_nan (noiseFloor (_options s)) = false ->
  (nle amp (Fin 0) = true ->
   _targetDb (setAmplitude log10 now amp s) = dbMin (_options s)) /\
  (nle amp (Fin 0) = false ->
   setAmplitude log10 now amp s = setValue now (nmul (Fin 20) (log10 amp)) s).
Proof.
  intros Hoff Hmax Hnf. unfold setAmplitude. split; intros Hamp; rewrite Hamp.
  - unfold setValue. rewrite Hoff. cbn [_targetDb set_targetDb].
    unfold mapped_target.
    replace (nle NInf (noiseFloor (_options s))) with true
      by (destruct (noiseFloor (_options s)); try discriminate; reflexivity).
    apply Math_max_min_self. now apply nadd_not_nan_fin.
  - reflexivity.
Qed.

Lemma setAmplitude_silence_witness :
  _targetDb (setAmplitude exp_model 0 (Fin 0)
               (setValue 0 (Fin (-3)) default_meter))
  = Fin (-20).
Proof.
  apply (setAmplitude_silence exp_model 0 (Fin 0)
           (setValue 0 (Fin (-3)) default_meter));
    reflexivity.
Defined.

(** ** Auto-range covers what it has seen *)

Lemma Math_max_ge (a b : num) :
  is_nan a = false -> is_nan b = false ->
  is_nan (Math_max a b) = false /\
  nle a (Math_max a b) = true /\ nle b (Math_max a b) = true.
Proof.
  destruct a as [x| | |], b as [y| | |]; intros Ha Hb; try discriminate;
    unfold Math_max; simpl; q_branches; simpl; repeat split; q_reflect; lra.
Qed.

Lemma fold_Math_max_ge (xs : list num) :
  forall acc : num,
    is_nan acc = false ->
    (forall y, In y xs -> is_nan y = false) ->
    is_nan (fold_left Math_max xs acc) = false /\
    nle acc (fold_left Math_max xs acc) = true /\
    (forall x, In x xs -> nle x (fold_left Math_max xs acc) = true).
Proof.
  induction xs as [|x xs IH]; intros acc Hacc Hall; simpl.
  - split; [exact Hacc|]. split; [now apply nle_refl | intros ? []].
  - assert (Hx : is_nan x = false) by (apply Hall; now left).
    destruct (Math_max_ge acc x Hacc Hx) as (Hn & Hl & Hr).
    destruct (IH (Math_max acc x) Hn (fun y Hy => Hall y (or_intror Hy)))
      as (Hn' & Hacc' & Hin').
    split; [exact Hn'|]. split.
    + now apply nle_trans with (Math_max acc x).
    + intros y [<- | Hy]; [|now apply Hin'].
      now apply nle_trans with (Math_max acc x).
Qed.









(** ** The drawn scale follows the bounds *)

Lemma updateClipState_scale_view (db : num) (s : state) :
  scale_view (_updateClipState db s) = scale_view s.
Proof. unfold _updateClipState. split_ifs; reflexivity. Qed.

Lemma ballistics_step_scale_view (exp : num -> num) (dt : num) (s : state) :
  scale_view (ballistics_step exp dt s) = scale_view s.
Proof. unfold ballistics_step. cbv zeta. split_ifs; reflexivity. Qed.

Lemma peak_step_scale_view (exp : num -> num) (dt : num) (now : Z) (s : state) :
  scale_view (peak_step exp dt now s) = scale_view s.
Proof. unfold peak_step. cbv zeta. split_ifs; reflexivity. Qed.

Lemma animate_scale_view (exp : num -> num) (timestamp : Q) (now : Z) (s : state) :
  scale_view (_animate exp timestamp now s)
  = scale_view (contract_range (frame_dt timestamp s) s).
Proof.
  rewrite animate_unfold. cbv zeta.
  rewrite peak_step_scale_view, updateClipState_scale_view.
  transitivity (scale_view
                  (ballistics_step exp (frame_dt timestamp s)
                     (contract_range (frame_dt timestamp s)
                        (set_lastTime (Some timestamp) s)))); [reflexivity|].
  rewrite ballistics_step_scale_view, contract_range_set_lastTime. reflexivity.
Qed.

Lemma contract_range_halves (dt : num) (s : state) :
  contract_range dt s
  = if autoRange (_options s) then redraw_if_drifted (shrink_bounds dt s) else s.
Proof. reflexivity. Qed.

Lemma shrink_bounds_finite (d lo hi tlo thi : Q) (s : state) :
  dbMin (_options s) = Fin lo ->
  dbMax (_options s) = Fin hi ->
  _autoRangeTargetMin s = Fin tlo ->
  _autoRangeTargetMax s = Fin thi ->
  exists lo' hi' : Q,
    dbMin (_options (shrink_bounds (Fin d) s)) = Fin lo' /\
    dbMax (_options (shrink_bounds (Fin d) s)) = Fin hi' /\
    _lastRebuiltDbMin (shrink_bounds (Fin d) s) = _lastRebuiltDbMin s /\
    _lastRebuiltDbMax (shrink_bounds (Fin d) s) = _lastRebuiltDbMax s.
Proof.
  intros Hlo Hhi Htlo Hthi. unfold shrink_bounds. cbv zeta.
  rewrite Hlo, Htlo.
  destruct (nlt (Fin lo) (Fin tlo)); proj_simpl; rewrite ?Hhi, ?Hthi;
    destruct (ngt (Fin hi) (Fin thi)); proj_simpl; rewrite ?Hlo, ?Hhi;
    unfold Math_min, Math_max; simpl;
    repeat (progress (q_branches; simpl));
    do 2 eexists; repeat split; reflexivity.
Qed.

Lemma redraw_if_drifted_fresh (lo hi rlo rhi : Q) (s : state) :
  dbMin (_options s) = Fin lo ->
  dbMax (_options s) = Fin hi ->
  _lastRebuiltDbMin s = Fin rlo ->
  _lastRebuiltDbMax s = Fin rhi ->
  exists rlo' rhi' : Q,
    _options (redraw_if_drifted s) = _options s /\
    _lastRebuiltDbMin (redraw_if_drifted s) = Fin rlo' /\
    _lastRebuiltDbMax (redraw_if_drifted s) = Fin rhi' /\
    Qabs (lo - rlo') < 1 /\ Qabs (hi - rhi') < 1.
Proof.
  intros Hlo Hhi Hrlo Hrhi. unfold redraw_if_drifted.
  rewrite Hlo, Hhi, Hrlo, Hrhi. cbn [nsub nneg nadd Math_abs nge nle].
  assert (Hself : forall q : Q, Qabs (q - q) < 1).
  { intro q. setoid_replace (q - q) with 0 by ring. reflexivity. }
  destruct (Qle_bool 1 (Qabs (lo + - rlo))) eqn:E1;
    destruct (Qle_bool 1 (Qabs (hi + - rhi))) eqn:E2; cbn [orb]; cbv zeta;
    proj_simpl; rewrite ?Hlo, ?Hhi, ?Hrlo, ?Hrhi;
    do 2 eexists; repeat (split; [reflexivity|]);
    unfold Qminus; q_reflect; split; try apply Hself; assumption.
Qed.

Lemma contract_range_fresh (d lo hi tlo thi rlo rhi : Q) (s : state) :
  autoRange (_options s) = true ->
  dbMin (_options s) = Fin lo ->
  dbMax (_options s) = Fin hi ->
  _autoRangeTargetMin s = Fin tlo ->
  _autoRangeTargetMax s = Fin thi ->
  _lastRebuiltDbMin s = Fin rlo ->
  _lastRebuiltDbMax s = Fin rhi ->
  exists lo' hi' rlo' rhi' : Q,
    dbMin (_options (contract_range (Fin d) s)) = Fin lo' /\
    dbMax (_options (contract_range (Fin d) s)) = Fin hi' /\
    _lastRebuiltDbMin (contract_range (Fin d) s) = Fin rlo' /\
    _lastRebuiltDbMax (contract_range (Fin d) s) = Fin rhi' /\
    Qabs (lo' - rlo') < 1 /\ Qabs (hi' - rhi') < 1.
Proof.
  intros Hon Hlo Hhi Htlo Hthi Hrlo Hrhi.
  rewrite contract_range_halves, Hon.
  destruct (shrink_bounds_finite d lo hi tlo thi s Hlo Hhi Htlo Hthi)
    as (lo' & hi' & Hlo' & Hhi' & Hr1 & Hr2).
  rewrite Hrlo in Hr1. rewrite Hrhi in Hr2.
  destruct (redraw_if_drifted_fresh lo' hi' rlo rhi _ Hlo' Hhi' Hr1 Hr2)
    as (rlo' & rhi' & Ho & Hr1' & Hr2' & Hd1 & Hd2).
  exists lo', hi', rlo', rhi'. rewrite Ho. auto 10.
Qed.

(** X10.  With auto-range on and finite bounds, contraction targets and
    bounds of the last redraw, every frame ends with the drawn scale less
    than 1 dB away from the bounds in force, at either end. *)
Theorem animate_keeps_scale_fresh
    (exp : num -> num) (timestamp : Q) (now : Z) (s : state)
    (lo hi tlo thi rlo rhi : Q) :
  autoRange (_options s) = true ->
  dbMin (_options s) = Fin lo ->
  dbMax (_options s) = Fin hi ->
  _autoRangeTargetMin s = Fin tlo ->
  _autoRangeTargetMax s = Fin thi ->
  _lastRebuiltDbMin s = Fin rlo ->
  _lastRebuiltDbMax s = Fin rhi ->
  exists lo' hi' rlo' rhi' : Q,
    dbMin (_options (_animate exp timestamp now s)) = Fin lo' /\
    dbMax (_options (_animate exp timestamp now s)) = Fin hi' /\
    _lastRebuiltDbMin (_animate exp timestamp now s) = Fin rlo' /\
    _lastRebuiltDbMax (_animate exp timestamp now s) = Fin rhi' /\
    Qabs (lo' - rlo') < 1 /\ Qabs (hi' - rhi') < 1.
Proof.
  intros Hon Hlo Hhi Htlo Hthi Hrlo Hrhi.
  pose proof (animate_scale_view exp timestamp now s) as Hview.
  destruct (frame_dt_finite timestamp s) as (d & Hd & _). rewrite Hd in Hview.
  destruct (contract_range_fresh d lo hi tlo thi rlo rhi s
              Hon Hlo Hhi Htlo Hthi Hrlo Hrhi)
    as (lo' & hi' & rlo' & rhi' & H1 & H2 & H3 & H4 & H5 & H6).
  unfold scale_view in Hview. injection Hview as Ho Hr1 Hr2.
  exists lo', hi', rlo', rhi'. rewrite Ho, Hr1, Hr2. auto 10.
Qed.

Lemma animate_keeps_scale_fresh_witness :
  exists lo' hi' rlo' rhi' : Q,
    dbMin (_options (_animate exp_model 0 1016 (setValue 1000 (Fin 0) full_meter)))
    = Fin lo' /\
    dbMax (_options (_animate exp_model 0 1016 (setValue 1000 (Fin 0) full_meter)))
    = Fin hi' /\
    _lastRebuiltDbMin (_animate exp_model 0 1016 (setValue 1000 (Fin 0) full_meter))
    = Fin rlo' /\
    _lastRebuiltDbMax (_animate exp_model 0 1016 (setValue 1000 (Fin 0) full_meter))
    = Fin rhi' /\
    Qabs (lo' - rlo') < 1 /\ Qabs (hi' - rhi') < 1.
Proof.
  apply (animate_keeps_scale_fresh exp_model 0 1016
           (setValue 1000 (Fin 0) full_meter) (-20) 3 (-2) 2 (-20) 3);
    reflexivity.
Defined.

(** ** Resetting the range *)











(** ** Most recent peak wins *)

(** X11.  On a meter that shows the peak needle, with a positive finite
    hold time, a frame that finds the target above the held peak makes the
    target the held peak, restarts the hold (deadline [now + peakHoldTime])
    and leaves the tracker not decaying, also when it was decaying
    before. *)
Theorem animate_captures_new_peak
    (exp : num -> num) (timestamp : Q) (now : Z) (s : state) (h : Q) :
  showPeak (_options s) && _peakNeedle s = true ->
  peakHoldTime (_options s) = Fin h ->
  0 < h ->
  ngt (_targetDb s) (_peakDb s) = true ->
  _peakDb (_animate exp timestamp now s) = _targetDb s /\
  _peakHoldUntil (_animate exp timestamp now s) = Fin (inject_Z now + h) /\
  _peakDecaying (_animate exp timestamp now s) = false.
Proof.
  intros Hshow Hhold Hh Hnew.
  assert (Hdec : decaying_in_frame now s = false).
  { unfold decaying_in_frame. rewrite Hnew, Hhold. cbv zeta.
    cbn [of_Z nadd ngt nge nlt nle].
    replace (Qle_bool (inject_Z now + h) (inject_Z now)) with false;
      [apply andb_false_r|].
    symmetry. apply Qle_bool_false. lra. }
  destruct (animate_reaches_peak_step exp timestamp now s) as (s3 & Heq & Hin & _).
  rewrite Heq.
  pose proof (@decaying_in_frame_inputs now _ _ Hin) as Hd.
  unfold peak_inputs in Hin.
  assert (E : _targetDb s3 = _targetDb s /\ _peakDb s3 = _peakDb s /\
              showPeak (_options s3) = showPeak (_options s) /\
              _peakNeedle s3 = _peakNeedle s /\
              peakHoldTime (_options s3) = peakHoldTime (_options s))
    by (injection Hin; auto 10).
  destruct E as (Et & Ep & Es & En & Eh).
  destruct (@peak_step_captures exp (frame_dt timestamp s) now s3) as (H1 & H2 & H3);
    rewrite ?Et, ?Ep, ?Es, ?En, ?Hd; try assumption.
  rewrite H1, H2, H3, Et, Eh, Hhold. repeat split.
Qed.

Lemma animate_captures_new_peak_witness :
  _peakDb (_animate exp_model 0 1016 (setValue 1000 (Fin 0) peak_meter))
  = _targetDb (setValue 1000 (Fin 0) peak_meter) /\
  _peakHoldUntil (_animate exp_model 0 1016 (setValue 1000 (Fin 0) peak_meter))
  = Fin (inject_Z 1016 + 2000) /\
  _peakDecaying (_animate exp_model 0 1016 (setValue 1000 (Fin 0) peak_meter))
  = false.
Proof.
  apply (animate_captures_new_peak exp_model 0 1016
           (setValue 1000 (Fin 0) peak_meter) 2000);
    reflexivity.
Defined.

(** ** Clip detection with or without callbacks *)

Lemma updateClipState_any (db : num) (s : state) :
  callbacks (log (_updateClipState db s))
  = callbacks (log s)
    ++ flat_map (edge_calls (_options s))
         (edges (_clipping s) [ngt db (clipThreshold (_options s))]) /\
  _clipping (_updateClipState db s) = ngt db (clipThreshold (_options s)) /\
  _options (_updateClipState db s) = _options s.
Proof.
  unfold _updateClipState. cbv zeta. cbn [edges].
  destruct (Bool.eqb (ngt db (clipThreshold (_options s))) (_clipping s)) eqn:Hsame.
  - apply eqb_prop in Hsame. cbn [app flat_map]. rewrite app_nil_r. auto.
  - destruct (ngt db (clipThreshold (_options s))); proj_simpl;
      destruct (_light s); proj_simpl;
      destruct (onClip (_options s)), (onClipRelease (_options s));
      unfold emit; proj_simpl; rewrite ?callbacks_app; simpl;
      rewrite ?app_nil_r; auto.
Qed.

Lemma last_cons_shift (A : Type) (l : list A) (a d : A) :
  last (a :: l) d = last l a.
Proof.
  revert a d. induction l as [|b l IH]; intros a d; [reflexivity|].
  change (last (a :: b :: l) d) with (last (b :: l) d).
  now rewrite !IH.
Qed.

Lemma evaluate_frames_cons (db : num) (dbs : list num) (s : state) :
  evaluate_frames (db :: dbs) s = evaluate_frames dbs (_updateClipState db s).
Proof. reflexivity. Qed.

(** X12.  Over any sequence of evaluations of the clip state, on any meter,
    the clip flag ends as the last value of the predicate
    [db > clipThreshold], and the callback invocations are, in order, those
    of the edges of the predicate whose callback is installed: an edge whose
    callback is [null] flips the flag silently and does not disturb the
    notification of the other edges.  Evaluating the same value twice is the
    same as evaluating it once. *)
Theorem clip_edges_with_optional_callbacks (dbs : list num) (s : state) :
  callbacks (log (evaluate_frames dbs s))
  = callbacks (log s)
    ++ flat_map (edge_calls (_options s))
         (edges (_clipping s)
                (map (fun db => ngt db (clipThreshold (_options s))) dbs)) /\
  _clipping (evaluate_frames dbs s)
  = last (map (fun db => ngt db (clipThreshold (_options s))) dbs) (_clipping s) /\
  (forall db : num,
      _updateClipState db (_updateClipState db s) = _updateClipState db s).
Proof.
  split; [|split].
  - revert s. induction dbs as [|db dbs IH]; intro s.
    + cbn. now rewrite app_nil_r.
    + rewrite evaluate_frames_cons, IH.
      destruct (updateClipState_any db s) as (Hlog & Hclip & Hopt).
      rewrite Hlog, Hclip, Hopt. cbn [map edges].
      rewrite app_nil_r, flat_map_app, app_assoc. reflexivity.
  - revert s. induction dbs as [|db dbs IH]; intro s; [reflexivity|].
    rewrite evaluate_frames_cons, IH.
    destruct (updateClipState_any db s) as (_ & Hclip & Hopt).
    rewrite Hclip, Hopt. cbn [map]. now rewrite last_cons_shift.
  - intro db.
    destruct (updateClipState_any db s) as (_ & Hclip & Hopt).
    apply updateClipState_unchanged. now rewrite Hopt, Hclip.
Qed.

(** X13.  The clip detector uses the latest threshold.  After
    [setOptions(opts)] with a [clipThreshold] key, which redraws the scale,
    the next evaluation compares the value with the new threshold against
    the clip flag left by the previous evaluation: a value that has not
    changed fires the edge that the change of threshold made. *)
Theorem threshold_change_fires_edge
    (opts : Partial.t) (thr db : num) (s : state) :
  Partial.clipThreshold opts = Some thr ->
  log (setOptions opts s)
  = log s ++ [ScaleRebuilt (dbMin (assign (_options s) opts))
                           (dbMax (assign (_options s) opts))] /\
  _clipping (_updateClipState db (setOptions opts s)) = ngt db thr /\
  callbacks (log (_updateClipState db (setOptions opts s)))
  = callbacks (log s)
    ++ flat_map (edge_calls (assign (_options s) opts))
         (edges (_clipping s) [ngt db thr]).
Proof.
  intro Hkey.
  assert (Hs1 : setOptions opts s
                = _rebuildScale (set_options (assign (_options s) opts) s)).
  { unfold setOptions. rewrite Hkey. reflexivity. }
  assert (Hthr : clipThreshold (assign (_options s) opts) = thr).
  { unfold assign. cbn [clipThreshold]. now rewrite Hkey. }
  destruct (updateClipState_any db (setOptions opts s)) as (Hlog & Hclip & _).
  rewrite Hlog, Hclip, Hs1. clear Hlog Hclip Hs1.
  generalize dependent (assign (_options s) opts). intros o' Hthr.
  unfold _rebuildScale, emit. proj_simpl.
  rewrite Hthr, callbacks_app. cbn [callbacks filter is_enter is_exit orb].
  rewrite app_nil_r. repeat split.
Qed.

Lemma threshold_change_fires_edge_witness :
  Partial.clipThreshold threshold_options = Some (Fin (-10)) /\
  callbacks (log (_updateClipState (Fin (-5)) full_meter)) = [] /\
  callbacks
    (log (_updateClipState (Fin (-5))
            (setOptions threshold_options
               (_updateClipState (Fin (-5)) full_meter))))
  = [OnClip 1%nat].
Proof.
  split; [reflexivity|]. split; [reflexivity|].
  exact (proj2 (proj2
           (threshold_change_fires_edge threshold_options (Fin (-10)) (Fin (-5))
              (_updateClipState (Fin (-5)) full_meter) eq_refl))).
Defined.

(** ** The loops of the scale drawing *)

Lemma for_ticks_more_fuel (step hi : num) (body : num -> list node) :
  forall (fuel : nat) (d : num) (r : list node),
    for_ticks fuel step hi body d = Some r ->
    for_ticks (S fuel) step hi body d = Some r.
Proof.
  induction fuel as [|fuel IH]; intros d r H; [discriminate H|].
  cbn [for_ticks] in H.
  change (for_ticks (S (S fuel)) step hi body d)
    with (if nle d hi
          then match for_ticks (S fuel) step hi body (nadd d step) with
               | Some rest => Some (body d ++ rest)
               | None => None
               end
          else Some []).
  destruct (nle d hi); [|exact H].
  destruct (for_ticks fuel step hi body (nadd d step)) as [rest|] eqn:E;
    [|discriminate H].
  rewrite (IH _ _ E). exact H.
Qed.

Lemma for_ticks_fuel_mono (step hi : num) (body : num -> list node)
    (fuel fuel' : nat) (d : num) (r : list node) :
  (fuel <= fuel')%nat ->
  for_ticks fuel step hi body d = Some r ->
  for_ticks fuel' step hi body d = Some r.
Proof.
  intros Hle H. induction Hle as [|m _ IH]; [exact H|].
  now apply for_ticks_more_fuel.
Qed.

Lemma inject_nat_succ (n : nat) :
  inject_Z (Z.of_nat (S n)) == inject_Z (Z.of_nat n) + 1.
Proof. rewrite Nat2Z.inj_succ. unfold Z.succ. rewrite inject_Z_plus. reflexivity. Qed.

(** A loop over finite numbers with a positive step ends. *)
Lemma for_ticks_finite (k h : Q) (body : num -> list node) :
  0 < k ->
  forall (fuel : nat) (x : Q),
    h - x < k * inject_Z (Z.of_nat fuel) ->
    exists r, for_ticks (S fuel) (Fin k) (Fin h) body (Fin x) = Some r.
Proof.
  intros Hk. induction fuel as [|fuel IH]; intros x Hx.
  - cbn [for_ticks nle]. destruct (Qle_bool x h) eqn:E.
    + apply Qle_bool_iff in E. change (inject_Z (Z.of_nat 0)) with 0 in Hx. lra.
    + now exists [].
  - change (for_ticks (S (S fuel)) (Fin k) (Fin h) body (Fin x))
      with (if nle (Fin x) (Fin h)
            then match for_ticks (S fuel) (Fin k) (Fin h) body (Fin (x + k)) with
                 | Some rest => Some (body (Fin x) ++ rest)
                 | None => None
                 end
            else Some []).
    destruct (nle (Fin x) (Fin h)); [|now exists []].
    destruct (IH (x + k)) as [r Hr].
    + rewrite inject_nat_succ in Hx. lra.
    + rewrite Hr. now eexists.
Qed.

Lemma enough_fuel (k q : Q) :
  1 <= k -> exists n : nat, q < k * inject_Z (Z.of_nat n).
Proof.
  intros Hk. exists (Z.to_nat (Qfloor q + 1)).
  pose proof (Qlt_floor q) as Hq.
  destruct (Qfloor q + 1)%Z as [|p|p].
  - change (inject_Z (Z.of_nat (Z.to_nat 0))) with 0.
    change (inject_Z 0) with 0 in Hq. lra.
  - rewrite Z2Nat.id by discriminate.
    assert (0 < inject_Z (Z.pos p)) by reflexivity. nra.
  - change (inject_Z (Z.of_nat (Z.to_nat (Z.neg p)))) with 0.
    assert (inject_Z (Z.neg p) < 0) by reflexivity. lra.
Qed.

(** A loop that starts at an infinity, or runs up to [Infinity], never
    ends: [d += step] leaves an infinity where it is and keeps a finite
    [d] finite. *)
Lemma for_ticks_stuck (k : Q) (hi : num) (body : num -> list node) :
  forall (fuel : nat) (d : num),
    nle d hi = true ->
    is_finite d = false \/ hi = PInf ->
    for_ticks fuel (Fin k) hi body d = None.
Proof.
  induction fuel as [|fuel IH]; intros d Hle Hinf; [reflexivity|].
  cbn [for_ticks]. rewrite Hle.
  rewrite IH; [reflexivity| |].
  - destruct Hinf as [Hd | Hhi].
    + destruct d; try discriminate; exact Hle.
    + subst hi. destruct d; try discriminate; reflexivity.
  - destruct Hinf as [Hd | Hhi]; [left | now right].
    destruct d; try discriminate; reflexivity.
Qed.

Lemma for_ticks_skipped (step hi : num) (body : num -> list node)
    (fuel : nat) (d : num) :
  nle d hi = false -> for_ticks (S fuel) step hi body d = Some [].
Proof. intros H. cbn [for_ticks]. now rewrite H. Qed.

Lemma for_ticks_visited (step hi : num) (body : num -> list node) :
  forall (fuel : nat) (d : num) (r : list node),
    for_ticks fuel step hi body d = Some r ->
    r = flat_map body (visited fuel step hi d).
Proof.
  induction fuel as [|fuel IH]; intros d r H; [discriminate H|].
  cbn [for_ticks visited] in *.
  destruct (nle d hi).
  - destruct (for_ticks fuel step hi body (nadd d step)) as [rest|] eqn:E;
      [|discriminate H].
    injection H as <-. cbn [flat_map]. now rewrite (IH _ _ E).
  - now injection H as <-.
Qed.

(** The loop of either preset, from [start]: it ends exactly on drawable
    bounds. *)
Lemma for_ticks_returns (k : Q) (lo hi start : num) (body : num -> list node) :
  1 <= k ->
  (start = lo \/ start = Math_ceil lo) ->
  (exists fuel r, for_ticks fuel (Fin k) hi body start = Some r)
  <-> drawable lo hi = true.
Proof.
  intros Hk Hstart.
  assert (Hsame : is_finite lo = false -> start = lo).
  { intros Hlo. destruct Hstart as [-> | ->]; [reflexivity|].
    destruct lo; try reflexivity; discriminate Hlo. }
  assert (Hfin : is_finite lo = true -> exists x, start = Fin x).
  { intros Hlo. destruct lo as [q| | |]; try discriminate Hlo.
    destruct Hstart as [-> | ->]; eexists; reflexivity. }
  unfold drawable. split.
  - intros (fuel & r & H).
    destruct (is_finite lo) eqn:Hlo; destruct (is_finite hi) eqn:Hhi;
      cbn [andb orb]; try reflexivity.
    + destruct (Hfin eq_refl) as [x ->].
      destruct lo as [q| | |]; try discriminate Hlo.
      destruct hi as [h| | |]; try discriminate Hhi; try reflexivity.
      rewrite (for_ticks_stuck k PInf body fuel (Fin x)) in H;
        [discriminate H | reflexivity | now right].
    + rewrite (Hsame eq_refl) in H.
      destruct (nle lo hi) eqn:Hle; [|reflexivity].
      rewrite (for_ticks_stuck k hi body fuel lo Hle) in H;
        [discriminate H | now left].
    + rewrite (Hsame eq_refl) in H.
      destruct (nle lo hi) eqn:Hle; [|reflexivity].
      rewrite (for_ticks_stuck k hi body fuel lo Hle) in H;
        [discriminate H | now left].
  - intros H.
    destruct (is_finite lo) eqn:Hlo; destruct (is_finite hi) eqn:Hhi;
      cbn [andb orb] in H.
    + destruct (Hfin eq_refl) as [x ->].
      destruct hi as [h| | |]; try discriminate Hhi.
      destruct (enough_fuel k (h - x) Hk) as [n Hn].
      destruct (for_ticks_finite k h body ltac:(lra) n x Hn) as [r Hr].
      now exists (S n), r.
    + exists 1%nat, []. apply for_ticks_skipped.
      destruct (Hfin eq_refl) as [x ->].
      destruct lo as [q| | |]; try discriminate Hlo.
      destruct hi as [h| | |]; try discriminate Hhi; try reflexivity;
        discriminate H.
    + exists 1%nat, []. apply for_ticks_skipped.
      rewrite (Hsame eq_refl). now apply negb_true_iff.
    + exists 1%nat, []. apply for_ticks_skipped.
      rewrite (Hsame eq_refl). now apply negb_true_iff.
Qed.

Lemma buildDefaultScale_Some (fuel : nat) (o : options) (ns : list node) :
  _buildDefaultScale fuel o = Some ns <->
  exists ticks,
    for_ticks fuel (Fin 1) (dbMax o)
      (default_tick o
         (map of_Z (filter (fun d => in_range o (of_Z d)) allMajorTicks)))
      (Math_ceil (dbMin o)) = Some ticks /\
    ns = ticks
         ++ map (default_label o)
              (filter (fun d => in_range o (of_Z d)) allMajorTicks).
Proof.
  unfold _buildDefaultScale. cbv zeta.
  destruct (for_ticks fuel (Fin 1) (dbMax o) _ (Math_ceil (dbMin o)))
    as [ticks|]; split.
  - intros H. injection H as <-. exists ticks. split; reflexivity.
  - intros (t & Ht & ->). now injection Ht as ->.
  - discriminate.
  - intros (t & Ht & _). discriminate Ht.
Qed.

Lemma buildSmeterScale_Some (fuel : nat) (o : options) (ns : list node) :
  _buildSmeterScale fuel o = Some ns <->
  exists minor,
    for_ticks fuel (Fin 6) (dbMax o)
      (smeter_minor o
         (map (fun t => of_Z (fst t))
            (filter (fun t => in_range o (of_Z (fst t))) SMETER_TICKS)))
      (dbMin o) = Some minor /\
    ns = minor
         ++ flat_map (smeter_major o)
              (filter (fun t => in_range o (of_Z (fst t))) SMETER_TICKS).
Proof.
  unfold _buildSmeterScale. cbv zeta.
  destruct (for_ticks fuel (Fin 6) (dbMax o) _ (dbMin o)) as [minor|]; split.
  - intros H. injection H as <-. exists minor. split; reflexivity.
  - intros (t & Ht & ->). now injection Ht as ->.
  - discriminate.
  - intros (t & Ht & _). discriminate Ht.
Qed.

Lemma buildScale_Some (fuel : nat) (o : options) (ns : list node) :
  _buildScale fuel o = Some ns <->
  exists ticks,
    (if smeter_preset o then _buildSmeterScale fuel o
     else _buildDefaultScale fuel o) = Some ticks /\
    ns = arcs o ++ ticks.
Proof.
  unfold _buildScale, smeter_preset, arcs. cbv zeta.
  destruct (scalePreset o) as [p|]; [destruct (String.eqb p "smeter")|].
  all: match goal with
       | |- context [match ?b with Some _ => _ | None => None end] =>
         destruct b as [ticks|]
       end.
  all: split;
    [ intros H;
      first [ discriminate H
            | injection H as <-; exists ticks;
              split; [reflexivity | apply app_assoc] ]
    | intros (t & Ht & ->);
      first [ discriminate Ht
            | injection Ht as ->; now rewrite app_assoc ] ].
Qed.

Lemma buildScale_drawable (o : options) :
  (exists fuel ns, _buildScale fuel o = Some ns)
  <-> drawable (dbMin o) (dbMax o) = true.
Proof.
  split.
  - intros (fuel & ns & H).
    apply buildScale_Some in H. destruct H as (ticks & H & _).
    destruct (smeter_preset o).
    + apply buildSmeterScale_Some in H. destruct H as (minor & H & _).
      eapply (for_ticks_returns 6 (dbMin o) (dbMax o) (dbMin o));
        [discriminate | now left | exists fuel, minor; exact H].
    + apply buildDefaultScale_Some in H. destruct H as (t & H & _).
      eapply (for_ticks_returns 1 (dbMin o) (dbMax o) (Math_ceil (dbMin o)));
        [discriminate | now right | exists fuel, t; exact H].
  - intros H. destruct (smeter_preset o) eqn:Hp.
    + destruct (proj2 (for_ticks_returns 6 (dbMin o) (dbMax o) (dbMin o)
                         (smeter_minor o
                            (map (fun t => of_Z (fst t))
                               (filter (fun t => in_range o (of_Z (fst t)))
                                  SMETER_TICKS)))
                         ltac:(discriminate) (or_introl eq_refl)) H)
        as (fuel & minor & Hm).
      exists fuel. eexists. apply buildScale_Some. rewrite Hp.
      eexists. split; [|reflexivity].
      apply buildSmeterScale_Some. eexists. split; [exact Hm | reflexivity].
    + destruct (proj2 (for_ticks_returns 1 (dbMin o) (dbMax o)
                         (Math_ceil (dbMin o))
                         (default_tick o
                            (map of_Z
                               (filter (fun d => in_range o (of_Z d))
                                  allMajorTicks)))
                         ltac:(discriminate) (or_intror eq_refl)) H)
        as (fuel & t & Ht).
      exists fuel. eexists. apply buildScale_Some. rewrite Hp.
      eexists. split; [|reflexivity].
      apply buildDefaultScale_Some. eexists. split; [exact Ht | reflexivity].
Qed.

Lemma buildScale_fuel_mono (fuel fuel' : nat) (o : options) (ns : list node) :
  (fuel <= fuel')%nat ->
  _buildScale fuel o = Some ns -> _buildScale fuel' o = Some ns.
Proof.
  intros Hle H. apply buildScale_Some in H. destruct H as (ticks & H & ->).
  apply buildScale_Some. exists ticks. split; [|reflexivity].
  destruct (smeter_preset o).
  - apply buildSmeterScale_Some in H. destruct H as (minor & H & ->).
    apply buildSmeterScale_Some. exists minor. split; [|reflexivity].
    now apply (for_ticks_fuel_mono _ _ _ fuel fuel').
  - apply buildDefaultScale_Some in H. destruct H as (t & H & ->).
    apply buildDefaultScale_Some. exists t. split; [|reflexivity].
    now apply (for_ticks_fuel_mono _ _ _ fuel fuel').
Qed.

Lemma buildScale_hangs (o : options) :
  drawable (dbMin o) (dbMax o) = false ->
  forall fuel, _buildScale fuel o = None.
Proof.
  intros H fuel. destruct (_buildScale fuel o) as [ns|] eqn:E; [|reflexivity].
  assert (Hd : drawable (dbMin o) (dbMax o) = true)
    by (apply buildScale_drawable; now exists fuel, ns).
  rewrite H in Hd. discriminate Hd.
Qed.

Lemma redraw_returns_drawable (lo hi : num) :
  redraw_returns lo hi = true -> drawable lo hi = true.
Proof.
  unfold redraw_returns, drawable. intros H.
  apply orb_true_iff in H. apply orb_true_iff. destruct H as [H | H].
  - left. apply andb_true_iff in H. destruct H as (H1 & H2).
    destruct lo, hi; try discriminate; reflexivity.
  - now right.
Qed.

(** X14.  A redraw of the scale returns when both bounds are numbers of
    magnitude at most [Number.MAX_SAFE_INTEGER], and when [dbMin <= dbMax]
    is false (a NaN bound, or bounds in the wrong order).  It never returns
    when a bound is infinite and [dbMin <= dbMax]: with [dbMin = -Infinity]
    or [dbMax = Infinity], and the other bound not NaN, the tick loop of
    either preset never ends.  (Finite bounds of greater magnitude, at which
    double precision can absorb the increments of the loop, are not covered.)
    When the redraw returns, its drawing does not depend on the iteration
    bound of the model. *)
Theorem buildScale_returns (o : options) :
  (redraw_returns (dbMin o) (dbMax o) = true ->
   exists fuel ns, _buildScale fuel o = Some ns) /\
  (is_finite (dbMin o) && is_finite (dbMax o) = false ->
   nle (dbMin o) (dbMax o) = true ->
   forall fuel, _buildScale fuel o = None) /\
  (forall fuel fuel' ns,
      (fuel <= fuel')%nat ->
      _buildScale fuel o = Some ns -> _buildScale fuel' o = Some ns).
Proof.
  split; [|split].
  - intros H. apply buildScale_drawable. now apply redraw_returns_drawable.
  - intros Hinf Hle. apply buildScale_hangs. unfold drawable.
    now rewrite Hinf, Hle.
  - intros fuel fuel' ns. apply buildScale_fuel_mono.
Qed.

Lemma buildScale_returns_witness :
  redraw_returns (dbMin (_options default_meter))
                 (dbMax (_options default_meter)) = true /\
  exists fuel ns, _buildScale fuel (_options default_meter) = Some ns.
Proof.
  split; [reflexivity|].
  apply (proj1 (buildScale_returns (_options default_meter))).
  reflexivity.
Defined.

(** ** Silence under auto-range *)

Lemma nle_NInf_r (a : num) : nle a NInf = true -> a = NInf.
Proof. destruct a; simpl; congruence. Qed.

(** X15.  Silence with auto-range on.  On a meter with auto-range on (a
    window that is not negative, a finite margin, no NaN among the retained
    samples, [dbMin] a number above [-Infinity] and [dbMax] not NaN),
    [setAmplitude(amp)] with [amp <= 0] records the sample [-Infinity],
    lowers [dbMin] to [-Infinity] and asks for a redraw of the scale with
    that bound; the tick loop of that redraw never ends. *)
Theorem silence_with_autoRange_never_redrawn
    (log10 : num -> num) (now : Z) (amp : num) (s : state) :
  autoRange (_options s) = true ->
  nle (Fin 0) (autoRangeWindow (_options s)) = true ->
  is_finite (autoRangeMargin (_options s)) = true ->
  nlt NInf (dbMin (_options s)) = true ->
  is_nan (dbMax (_options s)) = false ->
  (forall y, In y (map Sample.db (sample_window now NInf s)) ->
             is_nan y = false) ->
  nle amp (Fin 0) = true ->
  exists hi : num,
    log (setAmplitude log10 now amp s) = log s ++ [ScaleRebuilt NInf hi] /\
    dbMin (_options (setAmplitude log10 now amp s)) = NInf /\
    dbMax (_options (setAmplitude log10 now amp s)) = hi /\
    forall fuel,
      _buildScale fuel (_options (setAmplitude log10 now amp s)) = None.
Proof.
  intros Hon Hw Hmargin Hlo Hhi Hall Hamp.
  unfold setAmplitude. rewrite Hamp.
  pose proof (current_sample_in_window now NInf s Hw) as Hin.
  assert (Hne : sample_window now NInf s <> [])
    by (intro E; rewrite E in Hin; exact Hin).
  assert (Hin' : In NInf (map Sample.db (sample_window now NInf s))).
  { change NInf with (Sample.db {| Sample.db := NInf; Sample.t := now |}) at 1.
    now apply in_map. }
  pose proof (nle_NInf_r _ (Math_min_list_le _ NInf Hall Hin')) as Hmin.
  assert (Hdmin : desired_min now NInf s = NInf).
  { unfold desired_min. rewrite Hmin.
    destruct (autoRangeMargin (_options s)); try discriminate Hmargin.
    reflexivity. }
  assert (Hdmax : is_nan (desired_max now NInf s) = false).
  { unfold desired_max.
    destruct (fold_Math_max_ge _ NInf eq_refl Hall) as (Hn & _).
    fold (Math_max_list (map Sample.db (sample_window now NInf s))) in Hn.
    destruct (autoRangeMargin (_options s)); try discriminate Hmargin.
    now apply nadd_not_nan_fin. }
  unfold setValue. rewrite Hon.
  rewrite (track_sample_window now NInf s Hne). cbv zeta.
  rewrite Hdmin, Hlo. cbn [orb].
  set (hi := if ngt (desired_max now NInf s) (dbMax (_options s))
             then desired_max now NInf s else dbMax (_options s)).
  assert (Hnan : is_nan hi = false) by (subst hi; now destruct (ngt _ _)).
  exists hi. repeat split.
  apply buildScale_hangs.
  unfold setRange, _rebuildScale, emit. cbv zeta. proj_simpl.
  unfold drawable. destruct hi; try discriminate Hnan; reflexivity.
Qed.

Lemma silence_with_autoRange_never_redrawn_witness :
  log (setAmplitude exp_model 1000 (Fin 0) full_meter)
  = [ScaleRebuilt NInf (Fin 3)] /\
  forall fuel,
    _buildScale fuel (_options (setAmplitude exp_model 1000 (Fin 0) full_meter))
    = None.
Proof.
  destruct (silence_with_autoRange_never_redrawn exp_model 1000 (Fin 0)
              full_meter) as (hi & Hlog & _ & Hhi & Hnone);
    try reflexivity.
  - intros y [<- | []]. reflexivity.
  - split; [|exact Hnone].
    rewrite Hlog. rewrite <- Hhi. reflexivity.
Defined.

(** ** Ticks and labels of a drawing *)

(** The loop over finite numbers visits [x], [x + k], [x + 2k], ... up to
    [h], and nothing else. *)
Lemma visited_steps (k h : Q) :
  forall (fuel : nat) (x : Q) (d : num),
    In d (visited fuel (Fin k) (Fin h) (Fin x)) ->
    exists (y : Q) (n : nat),
      d = Fin y /\ y == x + inject_Z (Z.of_nat n) * k /\ y <= h.
Proof.
  induction fuel as [|fuel IH]; intros x d Hin; [destruct Hin|].
  cbn [visited nle] in Hin.
  destruct (Qle_bool x h) eqn:Hle; [|destruct Hin].
  apply Qle_bool_iff in Hle.
  destruct Hin as [<- | Hin].
  - exists x, 0%nat. split; [reflexivity|].
    change (inject_Z (Z.of_nat 0)) with 0. split; [ring | exact Hle].
  - destruct (IH (x + k) d Hin) as (y & n & -> & Hy & Hyh).
    exists y, (S n). split; [reflexivity|]. split; [|exact Hyh].
    rewrite inject_nat_succ, Hy. ring.
Qed.

Lemma visited_covers (k h : Q) (body : num -> list node) :
  0 <= k ->
  forall (fuel : nat) (x : Q) (r : list node),
    for_ticks fuel (Fin k) (Fin h) body (Fin x) = Some r ->
    forall n : nat,
      x + inject_Z (Z.of_nat n) * k <= h ->
      exists y, In (Fin y) (visited fuel (Fin k) (Fin h) (Fin x)) /\
                y == x + inject_Z (Z.of_nat n) * k.
Proof.
  intros Hk. induction fuel as [|fuel IH]; intros x r H n Hn;
    [discriminate H|].
  assert (Hpos : 0 <= inject_Z (Z.of_nat n))
    by (change 0 with (inject_Z 0); rewrite <- Zle_Qle; apply Nat2Z.is_nonneg).
  cbn [for_ticks visited nle nadd] in *.
  destruct (Qle_bool x h) eqn:Hle.
  - destruct (for_ticks fuel (Fin k) (Fin h) body (Fin (x + k)))
      as [rest|] eqn:E; [|discriminate H].
    destruct n as [|n].
    + exists x. split; [now left|].
      change (inject_Z (Z.of_nat 0)) with 0. ring.
    + rewrite inject_nat_succ in Hn.
      destruct (IH (x + k) rest E n) as (y & Hy & Hyn); [lra|].
      exists y. split; [now right|]. rewrite inject_nat_succ, Hyn. ring.
  - apply Qle_bool_false in Hle. nra.
Qed.

Lemma tick_lines_app (a b : list node) :
  tick_lines (a ++ b) = tick_lines a ++ tick_lines b.
Proof. apply flat_map_app. Qed.

Lemma tick_texts_app (a b : list node) :
  tick_texts (a ++ b) = tick_texts a ++ tick_texts b.
Proof. apply flat_map_app. Qed.

Lemma tick_lines_arcs (o : options) : tick_lines (arcs o) = [].
Proof. unfold arcs. split_ifs; reflexivity. Qed.

Lemma tick_texts_arcs (o : options) : tick_texts (arcs o) = [].
Proof. unfold arcs. split_ifs; reflexivity. Qed.

Lemma tick_lines_default_ticks (o : options) (ms ds : list num) :
  tick_lines (flat_map (default_tick o ms) ds)
  = map (fun d => (d, Set_has ms d, ngt d (clipThreshold o))) ds.
Proof.
  induction ds as [|d ds IH]; [reflexivity|].
  cbn [flat_map map]. rewrite tick_lines_app, IH. reflexivity.
Qed.

Lemma tick_texts_default_ticks (o : options) (ms ds : list num) :
  tick_texts (flat_map (default_tick o ms) ds) = [].
Proof.
  induction ds as [|d ds IH]; [reflexivity|].
  cbn [flat_map]. rewrite tick_texts_app, IH. reflexivity.
Qed.

Lemma tick_lines_default_labels (o : options) (zs : list Z) :
  tick_lines (map (default_label o) zs) = [].
Proof. induction zs as [|z zs IH]; [reflexivity | exact IH]. Qed.

Lemma tick_texts_default_labels (o : options) (zs : list Z) :
  tick_texts (map (default_label o) zs)
  = map (fun z => (of_Z z, ngt (of_Z z) (clipThreshold o),
                   if (0 <? z)%Z then ("+" ++ show_Z z)%string else show_Z z))
        zs.
Proof.
  induction zs as [|z zs IH]; [reflexivity|].
  cbn [map]. rewrite <- IH. reflexivity.
Qed.

Lemma tick_lines_smeter_minor (o : options) (ms ds : list num) :
  tick_lines (flat_map (smeter_minor o ms) ds)
  = map (fun d => (d, false, ngt d (clipThreshold o)))
        (filter (fun d => negb (Set_has ms d)) ds).
Proof.
  induction ds as [|d ds IH]; [reflexivity|].
  cbn [flat_map filter]. rewrite tick_lines_app, IH.
  unfold smeter_minor. destruct (Set_has ms d); reflexivity.
Qed.

Lemma tick_texts_smeter_minor (o : options) (ms ds : list num) :
  tick_texts (flat_map (smeter_minor o ms) ds) = [].
Proof.
  induction ds as [|d ds IH]; [reflexivity|].
  cbn [flat_map]. rewrite tick_texts_app, IH.
  unfold smeter_minor. destruct (Set_has ms d); reflexivity.
Qed.

Lemma tick_lines_smeter_major (o : options) (ts : list (Z * string)) :
  tick_lines (flat_map (smeter_major o) ts)
  = map (fun t => (of_Z (fst t), true, ngt (of_Z (fst t)) (clipThreshold o)))
        ts.
Proof.
  induction ts as [|t ts IH]; [reflexivity|].
  cbn [flat_map map]. rewrite tick_lines_app, IH. reflexivity.
Qed.

Lemma tick_texts_smeter_major (o : options) (ts : list (Z * string)) :
  tick_texts (flat_map (smeter_major o) ts)
  = map (fun t => (of_Z (fst t), ngt (of_Z (fst t)) (clipThreshold o), snd t))
        ts.
Proof.
  induction ts as [|t ts IH]; [reflexivity|].
  cbn [flat_map map]. rewrite tick_texts_app, IH. reflexivity.
Qed.

(** The tick lines and the labels of a drawing of the default scale and of
    the S-meter scale. *)
Lemma buildScale_default_parts (fuel : nat) (o : options) (ns : list node) :
  smeter_preset o = false ->
  _buildScale fuel o = Some ns ->
  let majorTicks := filter (fun d => in_range o (of_Z d)) allMajorTicks in
  let ds := visited fuel (Fin 1) (dbMax o) (Math_ceil (dbMin o)) in
  (exists r, for_ticks fuel (Fin 1) (dbMax o)
               (default_tick o (map of_Z majorTicks)) (Math_ceil (dbMin o))
             = Some r) /\
  tick_lines ns
  = map (fun d => (d, Set_has (map of_Z majorTicks) d,
                   ngt d (clipThreshold o))) ds /\
  tick_texts ns
  = map (fun z => (of_Z z, ngt (of_Z z) (clipThreshold o),
                   if (0 <? z)%Z then ("+" ++ show_Z z)%string else show_Z z))
        majorTicks.
Proof.
  intros Hp H. cbv zeta.
  apply buildScale_Some in H. rewrite Hp in H. destruct H as (ticks & H & ->).
  apply buildDefaultScale_Some in H. destruct H as (r & Hr & ->).
  split; [now exists r|].
  rewrite (for_ticks_visited _ _ _ _ _ _ Hr).
  rewrite !tick_lines_app, !tick_texts_app.
  rewrite tick_lines_arcs, tick_texts_arcs, tick_lines_default_ticks,
    tick_texts_default_ticks, tick_lines_default_labels,
    tick_texts_default_labels.
  cbn [app]. now rewrite app_nil_r.
Qed.

Lemma buildScale_smeter_parts (fuel : nat) (o : options) (ns : list node) :
  smeter_preset o = true ->
  _buildScale fuel o = Some ns ->
  let inRange := filter (fun t => in_range o (of_Z (fst t))) SMETER_TICKS in
  let majorSet := map (fun t => of_Z (fst t)) inRange in
  let ds := visited fuel (Fin 6) (dbMax o) (dbMin o) in
  tick_lines ns
  = map (fun d => (d, false, ngt d (clipThreshold o)))
        (filter (fun d => negb (Set_has majorSet d)) ds)
    ++ map (fun t => (of_Z (fst t), true,
                      ngt (of_Z (fst t)) (clipThreshold o))) inRange /\
  tick_texts ns
  = map (fun t => (of_Z (fst t), ngt (of_Z (fst t)) (clipThreshold o), snd t))
        inRange.
Proof.
  intros Hp H. cbv zeta.
  apply buildScale_Some in H. rewrite Hp in H. destruct H as (ticks & H & ->).
  apply buildSmeterScale_Some in H. destruct H as (r & Hr & ->).
  rewrite (for_ticks_visited _ _ _ _ _ _ Hr).
  rewrite !tick_lines_app, !tick_texts_app.
  rewrite tick_lines_arcs, tick_texts_arcs, tick_lines_smeter_minor,
    tick_texts_smeter_minor, tick_lines_smeter_major, tick_texts_smeter_major.
  split; reflexivity.
Qed.

Lemma num_eq_refl (a : num) : num_eq a a.
Proof. destruct a; simpl; [reflexivity | exact I ..]. Qed.

Lemma same_value_zero_num_eq (a b : num) :
  same_value_zero a b = true <-> num_eq a b.
Proof.
  destruct a, b; simpl; split; intro H; try discriminate; try contradiction;
    try exact I; try reflexivity.
  - now apply Qeq_bool_iff.
  - now apply Qeq_bool_iff.
Qed.

Lemma ngt_num_eq (a b t : num) : num_eq a b -> ngt a t = ngt b t.
Proof.
  destruct a as [x| | |], b as [y| | |]; simpl; intro H; try contradiction;
    try reflexivity.
  unfold ngt. destruct t as [z| | |]; simpl; try reflexivity.
  unfold Qlt_bool. f_equal.
  destruct (Qle_bool x z) eqn:E1, (Qle_bool y z) eqn:E2; try reflexivity;
    q_reflect; lra.
Qed.

(** Within bounds on which the drawing returns, a number in range has
    finite bounds around it. *)
Lemma in_range_finite (o : options) (z : Z) :
  drawable (dbMin o) (dbMax o) = true ->
  in_range o (of_Z z) = true ->
  exists lo hi, dbMin o = Fin lo /\ dbMax o = Fin hi /\
                lo <= inject_Z z /\ inject_Z z <= hi.
Proof.
  unfold drawable, in_range, nge, of_Z. intros Hd Hr.
  apply andb_true_iff in Hr. destruct Hr as (Hlo & Hhi).
  destruct (dbMin o) as [lo| | |], (dbMax o) as [hi| | |];
    try discriminate Hlo; try discriminate Hhi; try discriminate Hd.
  cbn [nle] in Hlo, Hhi. q_reflect. now exists lo, hi.
Qed.

(** X16.  In every drawing of the scale, of either preset, each label sits
    on a major tick line of its colour, and each major tick line carries a
    label of its colour. *)
Theorem labels_sit_on_major_ticks (fuel : nat) (o : options) (ns : list node) :
  _buildScale fuel o = Some ns ->
  (forall d red text,
      In (d, red, text) (tick_texts ns) ->
      exists d', num_eq d' d /\ In (d', true, red) (tick_lines ns)) /\
  (forall d red,
      In (d, true, red) (tick_lines ns) ->
      exists d' text, num_eq d d' /\ In (d', red, text) (tick_texts ns)).
Proof.
  intros H.
  assert (Hd : drawable (dbMin o) (dbMax o) = true)
    by (apply buildScale_drawable; now exists fuel, ns).
  destruct (smeter_preset o) eqn:Hp.
  - destruct (buildScale_smeter_parts fuel o ns Hp H) as (Hl & Ht).
    rewrite Hl, Ht. split.
    + intros d red text Hin. apply in_map_iff in Hin.
      destruct Hin as (t & E & Hin). injection E as <- <- <-.
      exists (of_Z (fst t)). split; [apply num_eq_refl|].
      apply in_or_app. right. apply in_map_iff. exists t.
      split; [reflexivity | exact Hin].
    + intros d red Hin. apply in_app_or in Hin. destruct Hin as [Hin | Hin].
      * apply in_map_iff in Hin. destruct Hin as (x & E & _). discriminate E.
      * apply in_map_iff in Hin. destruct Hin as (t & E & Hin).
        injection E as <- <-.
        exists (of_Z (fst t)), (snd t). split; [apply num_eq_refl|].
        apply in_map_iff. exists t. split; [reflexivity | exact Hin].
  - destruct (buildScale_default_parts fuel o ns Hp H) as ((r & Hr) & Hl & Ht).
    rewrite Hl, Ht. split.
    + intros d red text Hin. apply in_map_iff in Hin.
      destruct Hin as (z & E & Hin). injection E as <- <- <-.
      pose proof Hin as Hin'. apply filter_In in Hin'.
      destruct Hin' as (_ & Hrange).
      destruct (in_range_finite o z Hd Hrange) as (lo & hi & Hlo & Hhi & Hz1 & Hz2).
      rewrite Hlo, Hhi in *. cbn [Math_ceil] in *. unfold of_Z in Hr at 2.
      assert (Hc : (Qceiling lo <= z)%Z).
      { rewrite <- (Qceiling_Z z). now apply Qceiling_resp_le. }
      destruct (visited_covers 1 hi _ ltac:(lra) fuel (inject_Z (Qceiling lo))
                  r Hr (Z.to_nat (z - Qceiling lo))) as (y & Hy & Hyz).
      * rewrite Z2Nat.id by lia. unfold Zminus.
        rewrite inject_Z_plus, inject_Z_opp. lra.
      * rewrite Z2Nat.id in Hyz by lia. unfold Zminus in Hyz.
        rewrite inject_Z_plus, inject_Z_opp in Hyz.
        assert (Hyz' : y == inject_Z z) by lra.
        exists (Fin y). split; [exact Hyz'|].
        apply in_map_iff. exists (Fin y). split; [|exact Hy].
        f_equal; [f_equal|].
        -- apply existsb_exists. exists (of_Z z). split.
           ++ now apply in_map.
           ++ apply same_value_zero_num_eq. exact Hyz'.
        -- apply (ngt_num_eq (Fin y) (of_Z z)). exact Hyz'.
    + intros d red Hin. apply in_map_iff in Hin.
      destruct Hin as (d0 & E & Hin). injection E as -> Hset <-.
      apply existsb_exists in Hset. destruct Hset as (m & Hm & Hsame).
      apply in_map_iff in Hm. destruct Hm as (z & <- & Hz).
      apply same_value_zero_num_eq in Hsame.
      exists (of_Z z). eexists. split; [exact Hsame|].
      apply in_map_iff. exists z. split; [|exact Hz].
      rewrite (ngt_num_eq _ _ _ Hsame). reflexivity.
Qed.

Lemma labels_sit_on_major_ticks_witness :
  exists d', num_eq d' (Fin 0) /\
             In (d', true, false) (tick_lines default_drawing).
Proof.
  apply (proj1 (labels_sit_on_major_ticks 30 (_options default_meter)
                   default_drawing eq_refl)
           (Fin 0) false "0"%string).
  vm_compute. do 7 right. left. reflexivity.
Defined.

(** ** Tick colours and arcs *)

Lemma Math_ceil_ge (lo : Q) : lo <= inject_Z (Qceiling lo).
Proof. apply Qle_ceiling. Qed.

(** Every tick line of a drawing with finite bounds lies within them, and
    is red exactly above the clip threshold. *)
Lemma tick_lines_in_range (fuel : nat) (o : options) (ns : list node)
    (lo hi : Q) (d : num) (major red : bool) :
  dbMin o = Fin lo -> dbMax o = Fin hi ->
  _buildScale fuel o = Some ns ->
  In (d, major, red) (tick_lines ns) ->
  exists y, d = Fin y /\ lo <= y /\ y <= hi /\
            red = ngt (Fin y) (clipThreshold o).
Proof.
  intros Hlo Hhi H Hin.
  assert (Hd : drawable (dbMin o) (dbMax o) = true)
    by (apply buildScale_drawable; now exists fuel, ns).
  assert (Hsteps : forall k x d0,
             0 <= k -> lo <= x ->
             In d0 (visited fuel (Fin k) (Fin hi) (Fin x)) ->
             exists y, d0 = Fin y /\ lo <= y /\ y <= hi).
  { intros k x d0 Hk Hx Hd0.
    destruct (visited_steps k hi fuel x d0 Hd0) as (y & n & -> & Hy & Hyh).
    exists y. split; [reflexivity|]. split; [|exact Hyh].
    assert (0 <= inject_Z (Z.of_nat n))
      by (change 0 with (inject_Z 0); rewrite <- Zle_Qle; apply Nat2Z.is_nonneg).
    nra. }
  assert (Hmajor : forall z, in_range o (of_Z z) = true ->
             lo <= inject_Z z /\ inject_Z z <= hi).
  { intros z Hz.
    destruct (in_range_finite o z Hd Hz) as (lo' & hi' & E1 & E2 & H1 & H2).
    rewrite Hlo in E1. rewrite Hhi in E2.
    injection E1 as <-. injection E2 as <-. now split. }
  destruct (smeter_preset o) eqn:Hp.
  - destruct (buildScale_smeter_parts fuel o ns Hp H) as (Hl & _).
    rewrite Hl in Hin. apply in_app_or in Hin. destruct Hin as [Hin | Hin].
    + apply in_map_iff in Hin. destruct Hin as (d0 & E & Hin).
      injection E as -> _ <-. apply filter_In in Hin. destruct Hin as (Hin & _).
      rewrite Hlo, Hhi in Hin.
      destruct (Hsteps 6 lo d ltac:(discriminate) ltac:(lra) Hin)
        as (y & -> & H1 & H2).
      exists y. repeat split; assumption.
    + apply in_map_iff in Hin. destruct Hin as (t & E & Hin).
      injection E as <- _ <-. apply filter_In in Hin. destruct Hin as (_ & Hr).
      destruct (Hmajor _ Hr) as (H1 & H2).
      exists (inject_Z (fst t)). repeat split; assumption.
  - destruct (buildScale_default_parts fuel o ns Hp H) as (_ & Hl & _).
    rewrite Hl in Hin. apply in_map_iff in Hin. destruct Hin as (d0 & E & Hin).
    injection E as -> _ <-. rewrite Hlo, Hhi in Hin. cbn [Math_ceil] in Hin.
    destruct (Hsteps 1 (inject_Z (Qceiling lo)) d ltac:(discriminate)
                (Math_ceil_ge lo) Hin) as (y & -> & H1 & H2).
    exists y. repeat split; assumption.
Qed.

Lemma red_arc_drawn (fuel : nat) (o : options) (ns : list node) :
  _buildScale fuel o = Some ns ->
  nlt (arcClip o) (dbMax o) = true ->
  In (ArcPath (arcClip o) (dbMax o) true) ns.
Proof.
  intros H Hlt. apply buildScale_Some in H. destruct H as (ticks & _ & ->).
  apply in_or_app. left. unfold arcs. apply in_or_app. right.
  rewrite Hlt. now left.
Qed.

Lemma black_arc_drawn (fuel : nat) (o : options) (ns : list node) :
  _buildScale fuel o = Some ns ->
  ngt (arcClip o) (dbMin o) = true ->
  In (ArcPath (dbMin o) (arcClip o) false) ns.
Proof.
  intros H Hgt. apply buildScale_Some in H. destruct H as (ticks & _ & ->).
  apply in_or_app. left. unfold arcs. apply in_or_app. left.
  rewrite Hgt. now left.
Qed.

(** X17.  Tick colours follow the arcs.  In a drawing with [dbMin < dbMax]
    and a clip threshold that is not NaN, a red tick line lies on the red
    arc, which is then drawn from [arcClip] to [dbMax]; a black tick line
    lies between [dbMin] and [arcClip], on the black arc or, when there is
    no black arc, at [dbMin] itself. *)
Theorem tick_colours_follow_arcs
    (fuel : nat) (o : options) (ns : list node) (d : num) (major red : bool) :
  is_nan (clipThreshold o) = false ->
  nlt (dbMin o) (dbMax o) = true ->
  _buildScale fuel o = Some ns ->
  In (d, major, red) (tick_lines ns) ->
  if red then
    In (ArcPath (arcClip o) (dbMax o) true) ns /\
    nle (arcClip o) d = true /\ nle d (dbMax o) = true
  else
    nle (dbMin o) d = true /\ nle d (arcClip o) = true /\
    (In (ArcPath (dbMin o) (arcClip o) false) ns \/ num_eq d (dbMin o)).
Proof.
  intros Hthr Hlt H Hin.
  assert (Hd : drawable (dbMin o) (dbMax o) = true)
    by (apply buildScale_drawable; now exists fuel, ns).
  pose proof (red_arc_drawn fuel o ns H) as Hred.
  pose proof (black_arc_drawn fuel o ns H) as Hblack.
  destruct (dbMin o) as [lo| | |] eqn:Hlo, (dbMax o) as [hi| | |] eqn:Hhi;
    try discriminate Hd; try discriminate Hlt.
  destruct (tick_lines_in_range fuel o ns lo hi d major red Hlo Hhi H Hin)
    as (y & -> & H1 & H2 & ->).
  revert Hred Hblack. unfold arcClip. rewrite Hlo, Hhi.
  generalize (ArcPath (Math_max (Fin lo) (Math_min (Fin hi) (clipThreshold o)))
                (Fin hi) true).
  generalize (ArcPath (Fin lo)
                (Math_max (Fin lo) (Math_min (Fin hi) (clipThreshold o))) false).
  intros black redarc.
  cbn [nlt] in Hlt. apply Qlt_bool_true in Hlt.
  destruct (clipThreshold o) as [t| | |]; try discriminate Hthr;
    unfold Math_max, Math_min, ngt; cbn [is_nan orb nlt nle num_eq];
    intros Hred Hblack.
  - destruct (Qlt_bool t hi) eqn:E1; cbn [is_nan orb nlt] in *.
    + destruct (Qlt_bool lo t) eqn:E2; cbn [nlt nle] in *;
        destruct (Qlt_bool t y) eqn:E3; q_reflect.
      * split; [apply Hred; q_reflect; lra|]. split; q_reflect; lra.
      * split; [q_reflect; lra|]. split; [q_reflect; lra|].
        left. apply Hblack. q_reflect. lra.
      * split; [apply Hred; q_reflect; lra|]. split; q_reflect; lra.
      * split; [q_reflect; lra|]. split; [q_reflect; lra|]. right. lra.
    + destruct (Qlt_bool lo hi) eqn:E2; cbn [nlt nle] in *;
        destruct (Qlt_bool t y) eqn:E3; q_reflect; try lra.
      split; [q_reflect; lra|]. split; [q_reflect; lra|].
      left. apply Hblack. q_reflect. lra.
  - cbn [nlt] in *. destruct (Qlt_bool lo hi) eqn:E2; cbn [nlt nle] in *;
      q_reflect; try lra.
    split; [q_reflect; lra|]. split; [q_reflect; lra|].
    left. apply Hblack. q_reflect. lra.
  - cbn [nlt nle] in *. split; [apply Hred; q_reflect; lra|].
    split; q_reflect; lra.
Qed.

Lemma tick_colours_follow_arcs_witness :
  In (ArcPath (Fin 0) (Fin 3) true) default_drawing /\
  nle (arcClip (_options default_meter)) (Fin 2) = true /\
  nle (Fin 2) (Fin 3) = true.
Proof.
  apply (tick_colours_follow_arcs 30 (_options default_meter) default_drawing
           (Fin 2) true true); try reflexivity.
  vm_compute. do 22 right. left. reflexivity.
Defined.

(** ** Where the tick lines are *)

Lemma inject_nat_nonneg (n : nat) : 0 <= inject_Z (Z.of_nat n).
Proof. change 0 with (inject_Z 0). rewrite <- Zle_Qle. apply Nat2Z.is_nonneg. Qed.

(** X18.  The default scale with finite bounds has a tick line at every
    integer of [[dbMin, dbMax]] and nowhere else, also when the bounds are
    not integers (as they are while the auto-range contracts them). *)
Theorem default_scale_ticks_at_integers
    (fuel : nat) (o : options) (ns : list node) (lo hi : Q) :
  smeter_preset o = false ->
  dbMin o = Fin lo -> dbMax o = Fin hi ->
  _buildScale fuel o = Some ns ->
  (forall d major red,
      In (d, major, red) (tick_lines ns) ->
      exists z : Z, num_eq d (of_Z z) /\ lo <= inject_Z z /\ inject_Z z <= hi) /\
  (forall z : Z,
      lo <= inject_Z z -> inject_Z z <= hi ->
      exists d major red,
        num_eq d (of_Z z) /\ In (d, major, red) (tick_lines ns)).
Proof.
  intros Hp Hlo Hhi H.
  destruct (buildScale_default_parts fuel o ns Hp H) as ((r & Hr) & Hl & _).
  rewrite Hl. rewrite Hlo, Hhi in *. cbn [Math_ceil] in *. unfold of_Z in Hr at 2.
  split.
  - intros d major red Hin. apply in_map_iff in Hin.
    destruct Hin as (d0 & E & Hin). injection E as -> _ _.
    destruct (visited_steps 1 hi fuel _ d Hin) as (y & n & -> & Hy & Hyh).
    exists (Qceiling lo + Z.of_nat n)%Z.
    unfold of_Z. cbn [num_eq]. rewrite inject_Z_plus.
    pose proof (Math_ceil_ge lo). pose proof (inject_nat_nonneg n).
    split; [lra|]. split; lra.
  - intros z Hz1 Hz2.
    assert (Hc : (Qceiling lo <= z)%Z).
    { rewrite <- (Qceiling_Z z). now apply Qceiling_resp_le. }
    destruct (visited_covers 1 hi _ ltac:(lra) fuel (inject_Z (Qceiling lo))
                r Hr (Z.to_nat (z - Qceiling lo))) as (y & Hy & Hyz).
    + rewrite Z2Nat.id by lia. unfold Zminus.
      rewrite inject_Z_plus, inject_Z_opp. lra.
    + rewrite Z2Nat.id in Hyz by lia. unfold Zminus in Hyz.
      rewrite inject_Z_plus, inject_Z_opp in Hyz.
      exists (Fin y). do 2 eexists. split.
      * unfold of_Z. cbn [num_eq]. lra.
      * apply in_map_iff. exists (Fin y). split; [reflexivity | exact Hy].
Qed.

Lemma default_scale_ticks_at_integers_witness :
  exists d major red,
    num_eq d (of_Z (-4)) /\ In (d, major, red) (tick_lines default_drawing).
Proof.
  apply (proj2 (default_scale_ticks_at_integers 30 (_options default_meter)
                  default_drawing (-20) 3 eq_refl eq_refl eq_refl eq_refl)
           (-4)%Z);
    vm_compute; intro H; discriminate H.
Defined.

(** X19.  The minor tick lines of the S-meter scale are anchored at
    [dbMin]: with finite bounds they are at the positions [dbMin + 6 n] of
    [[dbMin, dbMax]] that are not S-unit positions, whatever [dbMin] is; the
    major tick lines are at the S-unit positions of the range. *)
Theorem smeter_ticks_anchored_at_dbMin
    (fuel : nat) (o : options) (ns : list node) (lo hi : Q) :
  smeter_preset o = true ->
  dbMin o = Fin lo -> dbMax o = Fin hi ->
  _buildScale fuel o = Some ns ->
  (forall d red,
      In (d, false, red) (tick_lines ns) ->
      (exists n : nat,
          num_eq d (Fin (lo + inject_Z (Z.of_nat n) * 6)) /\
          lo + inject_Z (Z.of_nat n) * 6 <= hi) /\
      forall t, In t SMETER_TICKS -> ~ num_eq d (of_Z (fst t))) /\
  (forall n : nat,
      lo + inject_Z (Z.of_nat n) * 6 <= hi ->
      (forall t, In t SMETER_TICKS ->
                 ~ lo + inject_Z (Z.of_nat n) * 6 == inject_Z (fst t)) ->
      exists d red,
        num_eq d (Fin (lo + inject_Z (Z.of_nat n) * 6)) /\
        In (d, false, red) (tick_lines ns)) /\
  (forall d red,
      In (d, true, red) (tick_lines ns) <->
      exists t, In t SMETER_TICKS /\ d = of_Z (fst t) /\
                lo <= inject_Z (fst t) /\ inject_Z (fst t) <= hi /\
                red = ngt d (clipThreshold o)).
Proof.
  intros Hp Hlo Hhi H.
  assert (Hd : drawable (dbMin o) (dbMax o) = true)
    by (apply buildScale_drawable; now exists fuel, ns).
  assert (Hrange : forall z, in_range o (of_Z z) = true <->
                             lo <= inject_Z z /\ inject_Z z <= hi).
  { intros z. unfold in_range, nge, of_Z. rewrite Hlo, Hhi. cbn [nle].
    rewrite andb_true_iff, !Qle_bool_iff. tauto. }
  pose proof H as H0.
  apply buildScale_Some in H0. rewrite Hp in H0. destruct H0 as (ticks & H0 & _).
  apply buildSmeterScale_Some in H0. destruct H0 as (r & Hr & _).
  destruct (buildScale_smeter_parts fuel o ns Hp H) as (Hl & _).
  rewrite Hl. rewrite Hlo, Hhi in *. split; [|split].
  - intros d red Hin. apply in_app_or in Hin. destruct Hin as [Hin | Hin].
    2:{ apply in_map_iff in Hin. destruct Hin as (t & E & _). discriminate E. }
    apply in_map_iff in Hin. destruct Hin as (d0 & E & Hin).
    injection E as -> _. apply filter_In in Hin. destruct Hin as (Hin & Hset).
    destruct (visited_steps 6 hi fuel lo d Hin) as (y & n & -> & Hy & Hyh).
    split.
    + exists n. cbn [num_eq]. split; [exact Hy | lra].
    + intros t Ht Heq. apply negb_true_iff in Hset.
      assert (Hin' : Set_has
                 (map (fun t => of_Z (fst t))
                    (filter (fun t => in_range o (of_Z (fst t))) SMETER_TICKS))
                 (Fin y) = true).
      { apply existsb_exists. exists (of_Z (fst t)). split.
        - apply in_map_iff. exists t. split; [reflexivity|].
          apply filter_In. split; [exact Ht|]. apply Hrange.
          unfold of_Z in Heq. cbn [num_eq] in Heq.
          pose proof (inject_nat_nonneg n). lra.
        - now apply same_value_zero_num_eq. }
      rewrite Hin' in Hset. discriminate Hset.
  - intros n Hn Hfree.
    destruct (visited_covers 6 hi _ ltac:(discriminate) fuel lo r Hr n Hn)
      as (y & Hy & Hyn).
    exists (Fin y). eexists. split; [exact Hyn|].
    apply in_or_app. left. apply in_map_iff. exists (Fin y).
    split; [reflexivity|]. apply filter_In. split; [exact Hy|].
    apply negb_true_iff. destruct (Set_has _ (Fin y)) eqn:Hset; [|reflexivity].
    apply existsb_exists in Hset. destruct Hset as (m & Hm & Hsame).
    apply in_map_iff in Hm. destruct Hm as (t & <- & Ht).
    apply filter_In in Ht. destruct Ht as (Ht & _).
    apply same_value_zero_num_eq in Hsame. unfold of_Z in Hsame.
    cbn [num_eq] in Hsame. exfalso. apply (Hfree t Ht). lra.
  - intros d red. split.
    + intros Hin. apply in_app_or in Hin. destruct Hin as [Hin | Hin].
      { apply in_map_iff in Hin. destruct Hin as (x & E & _). discriminate E. }
      apply in_map_iff in Hin. destruct Hin as (t & E & Hin).
      injection E as <- <-. apply filter_In in Hin. destruct Hin as (Ht & Hr').
      apply Hrange in Hr'. exists t. tauto.
    + intros (t & Ht & -> & H1 & H2 & ->).
      apply in_or_app. right. apply in_map_iff. exists t.
      split; [reflexivity|]. apply filter_In. split; [exact Ht|].
      apply Hrange. now split.
Qed.

Lemma smeter_ticks_anchored_at_dbMin_witness :
  exists d red,
    num_eq d (Fin (-127 + inject_Z (Z.of_nat 10) * 6)) /\
    In (d, false, red) (tick_lines smeter_drawing).
Proof.
  apply (proj1 (proj2 (smeter_ticks_anchored_at_dbMin 30
                         (_options (constructor smeter_options))
                         smeter_drawing (-127) (-13)
                         eq_refl eq_refl eq_refl eq_refl))
           10%nat).
  - vm_compute. intro H. discriminate H.
  - intros t Ht.
    repeat (destruct Ht as [<- | Ht]; [vm_compute; intro E; discriminate E|]).
    destruct Ht.
Defined.

(** ** Manual range and the values *)

(** X20.  [setRange(lo, hi)] on values that are numbers: with [lo <= hi]
    the target and the current value end within [[lo, hi]], and a current
    value that was within the new range is not moved; with [hi < lo] both
    values become [lo]. *)
Theorem setRange_pins_values (lo hi : num) (s : state) :
  is_nan (_targetDb s) = false ->
  is_nan (_currentDb s) = false ->
  (nle lo hi = true ->
   nle lo (_targetDb (setRange lo hi s)) = true /\
   nle (_targetDb (setRange lo hi s)) hi = true /\
   nle lo (getValue (setRange lo hi s)) = true /\
   nle (getValue (setRange lo hi s)) hi = true /\
   (nle lo (getValue s) = true -> nle (getValue s) hi = true ->
    num_eq (getValue (setRange lo hi s)) (getValue s))) /\
  (nlt hi lo = true ->
   _targetDb (setRange lo hi s) = lo /\ getValue (setRange lo hi s) = lo).
Proof.
  intros Ht Hc.
  change (_targetDb (setRange lo hi s)) with (clamp lo hi (_targetDb s)).
  change (getValue (setRange lo hi s)) with (clamp lo hi (_currentDb s)).
  unfold getValue. split.
  - intros Hle.
    destruct (clamp_between lo hi (_targetDb s) Hle Ht) as (H1 & H2).
    destruct (clamp_between lo hi (_currentDb s) Hle Hc) as (H3 & H4).
    repeat (split; [assumption|]).
    clear. intros Hlo Hhi. unfold clamp, Math_max, Math_min.
    destruct lo as [l| | |], hi as [h| | |], (_currentDb s) as [v| | |];
      simpl in *; try discriminate; try exact I;
      q_branches; simpl; q_branches; simpl; try exact I; q_reflect; lra.
  - intros Hlt. unfold clamp, Math_max, Math_min.
    destruct lo as [l| | |], hi as [h| | |]; try discriminate Hlt;
      destruct (_targetDb s) as [t| | |]; try discriminate Ht;
      destruct (_currentDb s) as [v| | |]; try discriminate Hc;
      simpl in *; q_branches; simpl; q_branches; split; try reflexivity;
      q_reflect; lra.
Qed.

Lemma setRange_pins_values_witness :
  _targetDb (setRange (Fin 5) (Fin 1) (setValue 0 (Fin (-3)) default_meter))
  = Fin 5 /\
  getValue (setRange (Fin 5) (Fin 1) (setValue 0 (Fin (-3)) default_meter))
  = Fin 5.
Proof.
  apply (setRange_pins_values (Fin 5) (Fin 1)
           (setValue 0 (Fin (-3)) default_meter));
    reflexivity.
Defined.

(** ** Reset after any history *)


(** ** The decaying peak *)


